(** * GSR-bench: action validation / execution coordination core

    A shallow embedding of the control path of the LangGraph agent:

    - [PyStr]      : the Python string operations the validator relies on
    - [Scene]      : [utils/scene_graph_manager.py] (class [SceneGraphManager])
    - [Validator]  : the constraint checks of
                     [tools/action_validation_execution_tool.py]
    - [Tool]       : [ActionValidationExecutionTool.execute] and the wait loop
    - [Agent]      : the repetition guard and the routing functions of
                     [core/agent_reflect.py]
    - [SceneOps]   : the remaining methods of the store and the ROS callback
                     of [utils/ros_manager.py] that feeds it
    - [Completion] : the completion checks of the tool
    - [Routing]    : the routing after the planning node
    - [Ros]        : the task messages of [utils/ros_manager.py]

    Strings are sequences of code points below 256 (Latin-1); the Python
    methods are modelled on these code points. *)

From Stdlib Require Import Bool List Arith ZArith Lia Ascii String DecimalString.
Import ListNotations.
Open Scope list_scope.
Open Scope string_scope.
Open Scope nat_scope.

(* ================================================================= *)
(** ** Python string operations *)

Module PyStr.

(** [str.isspace] on one character, which is also the class of white
    space of [str.strip] and of the regular expressions: TAB..CR, FS..US,
    SPACE, NEL (133) and the no-break space (160). *)
Definition is_space (c : ascii) : bool :=
  let n := nat_of_ascii c in
  ((9 <=? n) && (n <=? 13)) || ((28 <=? n) && (n <=? 32))
  || (n =? 133) || (n =? 160).

Definition is_digit (c : ascii) : bool :=
  let n := nat_of_ascii c in (48 <=? n) && (n <=? 57).

Definition is_upper (c : ascii) : bool :=
  let n := nat_of_ascii c in (65 <=? n) && (n <=? 90).

Definition is_lower (c : ascii) : bool :=
  let n := nat_of_ascii c in (97 <=? n) && (n <=? 122).

Definition is_alpha (c : ascii) : bool := is_upper c || is_lower c.

(** The capital letters beyond ASCII: 192..222 without the
    multiplication sign (215). *)
Definition is_upper_latin1 (c : ascii) : bool :=
  let n := nat_of_ascii c in (192 <=? n) && (n <=? 222) && negb (n =? 215).

Definition lower_char (c : ascii) : ascii :=
  if is_upper c || is_upper_latin1 c then ascii_of_nat (nat_of_ascii c + 32) else c.

(** [s.lower()] *)
Fixpoint lower (s : string) : string :=
  match s with
  | EmptyString => EmptyString
  | String c s' => String (lower_char c) (lower s')
  end.

(** [s.lstrip()], [s.rstrip()], [s.strip()] *)
Fixpoint lstrip (s : string) : string :=
  match s with
  | EmptyString => EmptyString
  | String c s' => if is_space c then lstrip s' else s
  end.

Fixpoint rstrip (s : string) : string :=
  match s with
  | EmptyString => EmptyString
  | String c s' =>
      let r := rstrip s' in
      if is_space c && String.eqb r "" then "" else String c r
  end.

Definition strip (s : string) : string := rstrip (lstrip s).

(** [s.startswith(p)] *)
Definition startswith (p s : string) : bool := prefix p s.

(** [s.endswith(suf)] *)
Fixpoint endswith (suf s : string) : bool :=
  String.eqb s suf ||
  match s with
  | EmptyString => false
  | String _ s' => endswith suf s'
  end.

(** [needle in s] *)
Fixpoint contains (needle s : string) : bool :=
  prefix needle s ||
  match s with
  | EmptyString => false
  | String _ s' => contains needle s'
  end.

(** [s.split(sep)] for a non-empty separator: the text is cut at every
    occurrence of [sep], scanning left to right without overlap.  [skip]
    counts the characters of a matched separator still to be dropped and
    [cur] is the current piece, reversed. *)
Fixpoint rev_to_string (l : list ascii) (acc : string) : string :=
  match l with
  | [] => acc
  | c :: l' => rev_to_string l' (String c acc)
  end.

Fixpoint split_aux (sep : string) (skip : nat) (cur : list ascii) (s : string)
  : list string :=
  match s with
  | EmptyString => [rev_to_string cur ""]
  | String c s' =>
      match skip with
      | S k => split_aux sep k cur s'
      | O =>
          if prefix sep s
          then rev_to_string cur "" :: split_aux sep (String.length sep - 1) [] s'
          else split_aux sep 0 (c :: cur) s'
      end
  end.

Definition split (sep s : string) : list string := split_aux sep 0 [] s.

(** [s.replace(old, new)] for a non-empty [old]. *)
Fixpoint replace_aux (old new : string) (skip : nat) (s : string) : string :=
  match s with
  | EmptyString => EmptyString
  | String c s' =>
      match skip with
      | S k => replace_aux old new k s'
      | O =>
          if prefix old s
          then new ++ replace_aux old new (String.length old - 1) s'
          else String c (replace_aux old new 0 s')
      end
  end.

Definition replace (old new s : string) : string := replace_aux old new 0 s.

(** [sep.join(l)] *)
Fixpoint join (sep : string) (l : list string) : string :=
  match l with
  | [] => ""
  | [x] => x
  | x :: l' => x ++ sep ++ join sep l'
  end.

(** [str(n)] for an integer. *)
Definition str_of_Z (z : Z) : string := NilZero.string_of_int (Z.to_int z).

Definition str_of_nat (n : nat) : string := str_of_Z (Z.of_nat n).

(** [x in l] for a list of strings. *)
Definition mem (x : string) (l : list string) : bool :=
  existsb (String.eqb x) l.

(** [repr(s)]: the text between single quotes, or between double quotes
    when it holds a single quote and no double quote; the delimiter and
    the backslash are escaped, TAB, LF and CR are written with their
    letter, and every other character that is not printable by its two
    hexadecimal digits. *)
Definition backslash : ascii := ascii_of_nat 92.
Definition single_quote : ascii := ascii_of_nat 39.
Definition double_quote : ascii := ascii_of_nat 34.

Definition hex_digit (n : nat) : ascii :=
  nth n ["0"; "1"; "2"; "3"; "4"; "5"; "6"; "7"; "8"; "9";
         "a"; "b"; "c"; "d"; "e"; "f"]%char "0"%char.

Definition is_printable (c : ascii) : bool :=
  let n := nat_of_ascii c in
  negb ((n <? 32) || ((127 <=? n) && (n <=? 160)) || (n =? 173)).

Definition repr_char (quote c : ascii) : string :=
  let n := nat_of_ascii c in
  if Ascii.eqb c quote || Ascii.eqb c backslash then String backslash (String c "")
  else if n =? 9 then String backslash "t"
  else if n =? 10 then String backslash "n"
  else if n =? 13 then String backslash "r"
  else if is_printable c then String c ""
  else String backslash
         (String "x" (String (hex_digit (n / 16)) (String (hex_digit (n mod 16)) ""))).

Fixpoint repr_body (quote : ascii) (s : string) : string :=
  match s with
  | EmptyString => EmptyString
  | String c s' => repr_char quote c ++ repr_body quote s'
  end.

Fixpoint has_char (c : ascii) (s : string) : bool :=
  match s with
  | EmptyString => false
  | String x s' => Ascii.eqb x c || has_char c s'
  end.

Definition repr (s : string) : string :=
  let quote :=
    if has_char single_quote s && negb (has_char double_quote s)
    then double_quote else single_quote in
  String quote (repr_body quote s ++ String quote "").

End PyStr.

(* ================================================================= *)
(** ** Scene graphs and the scene-graph store
    ([utils/scene_graph_manager.py]) *)

Module Scene.

(** A node of the payload is a string (3D desk simulator format) or an
    integer (legacy format). *)
Inductive node : Type :=
| NStr (s : string)
| NInt (z : Z).

(** The scene-graph dictionary.  A key that is absent is [None], so that
    [{}] is [empty_dict] and [d.get(key, [])] is [get_nodes] / [get_edges]. *)
Record SceneGraph : Type := mkSceneGraph {
  timestamp : option Z;
  nodes : option (list node);
  edges : option (list string)
}.

Definition empty_dict : SceneGraph := mkSceneGraph None None None.

Definition get_nodes (g : SceneGraph) : list node :=
  match nodes g with Some l => l | None => [] end.

Definition get_edges (g : SceneGraph) : list string :=
  match edges g with Some l => l | None => [] end.

(** Truth value of a dictionary: false exactly for [{}]. *)
Definition truthy (g : SceneGraph) : bool :=
  match timestamp g, nodes g, edges g with
  | None, None, None => false
  | _, _, _ => true
  end.

Definition node_eq_dec (a b : node) : {a = b} + {a <> b}.
Proof. decide equality; [apply string_dec | apply Z.eq_dec]. Defined.

(** Dictionary equality [g1 == g2]. *)
Definition SceneGraph_eq_dec (a b : SceneGraph) : {a = b} + {a <> b}.
Proof.
  decide equality.
  - decide equality. apply (list_eq_dec string_dec).
  - decide equality. apply (list_eq_dec node_eq_dec).
  - decide equality. apply Z.eq_dec.
Defined.

(** What [update_scene_graph] receives: a dictionary (the ROS callback
    decodes the message before calling), a text together with the result
    of [_parse_and_convert_scene_graph] on it, or a value of another type.
    The result for a text is a dictionary or [None]: a text that decodes
    to a JSON value of another kind is not represented. *)
Inductive RawData : Type :=
| RawDict (g : SceneGraph)
| RawStr (decoded : option SceneGraph)
| RawOther.

(** The attributes of [SceneGraphManager]. *)
Record SceneGraphManager : Type := mkManager {
  current_scene_graph : SceneGraph;
  raw_msg : option string;
  scene_graph_history : list SceneGraph;
  stable_frame_count : nat;
  last_scene_graph : SceneGraph;
  waiting_for_update : bool;
  stable_frame_threshold : nat;
  max_history_size : nat;
  parse_success_count : nat;
  parse_error_count : nat
}.

(** [STABILITY_CONFIG] of [config.py]. *)
Definition STABILITY_stable_frame_threshold : nat := 5.
Definition STABILITY_max_history_size : nat := 15.

(** [SceneGraphManager.__init__] *)
Definition init : SceneGraphManager :=
  mkManager empty_dict None [] 0 empty_dict false
            STABILITY_stable_frame_threshold STABILITY_max_history_size 0 0.

Definition set_stability (m : SceneGraphManager)
  (h : list SceneGraph) (c : nat) : SceneGraphManager :=
  mkManager (current_scene_graph m) (raw_msg m) h c (last_scene_graph m)
            (waiting_for_update m) (stable_frame_threshold m)
            (max_history_size m) (parse_success_count m) (parse_error_count m).

(** [_check_stability] *)
Definition _check_stability (m : SceneGraphManager) (new_scene_graph : SceneGraph)
  : SceneGraphManager :=
  match rev (scene_graph_history m) with
  | [] => set_stability m [new_scene_graph] 1
  | last_frame :: _ =>
      if SceneGraph_eq_dec last_frame new_scene_graph then
        set_stability m
          (if List.length (scene_graph_history m) <? max_history_size m
           then (scene_graph_history m ++ [new_scene_graph])%list
           else scene_graph_history m)
          (stable_frame_count m + 1)
      else set_stability m [new_scene_graph] 1
  end.

(** The store after the assignments of [update_scene_graph] for a parsed
    snapshot, before the stability check. *)
Definition stored (m : SceneGraphManager) (g : SceneGraph) (msg : option string)
  : SceneGraphManager :=
  mkManager g msg (scene_graph_history m) (stable_frame_count m)
            (last_scene_graph m) (waiting_for_update m)
            (stable_frame_threshold m) (max_history_size m)
            (parse_success_count m + 1) (parse_error_count m).

Definition count_parse_error (m : SceneGraphManager) : SceneGraphManager :=
  mkManager (current_scene_graph m) (raw_msg m) (scene_graph_history m)
            (stable_frame_count m) (last_scene_graph m) (waiting_for_update m)
            (stable_frame_threshold m) (max_history_size m)
            (parse_success_count m) (parse_error_count m + 1).

(** [update_scene_graph] *)
Definition update_scene_graph (m : SceneGraphManager) (raw_data : RawData)
  (msg : option string) : SceneGraphManager :=
  let store (parsed_data : option SceneGraph) :=
    match parsed_data with
    | Some g =>
        if truthy g then
          let m1 := stored m g msg in
          if waiting_for_update m1 then _check_stability m1 g else m1
        else count_parse_error m
    | None => count_parse_error m
    end in
  match raw_data with
  | RawDict g => store (Some g)
  | RawStr decoded => store decoded
  | RawOther => m
  end.

(** [get_current_scene_graph]: a copy of the current dictionary. *)
Definition get_current_scene_graph (m : SceneGraphManager) : SceneGraph :=
  current_scene_graph m.

(** [get_current_raw_msg] *)
Definition get_current_raw_msg (m : SceneGraphManager)
  : option string * SceneGraph :=
  (raw_msg m, current_scene_graph m).

(** [start_waiting_for_update] *)
Definition start_waiting_for_update (m : SceneGraphManager)
  (reference_scene_graph : SceneGraph) : SceneGraphManager :=
  mkManager (current_scene_graph m) (raw_msg m) [] 0 reference_scene_graph true
            (stable_frame_threshold m) (max_history_size m)
            (parse_success_count m) (parse_error_count m).

(** [stop_waiting_for_update] (and [reset_stability_tracking], which
    assigns the same four attributes). *)
Definition stop_waiting_for_update (m : SceneGraphManager) : SceneGraphManager :=
  mkManager (current_scene_graph m) (raw_msg m) [] 0 empty_dict false
            (stable_frame_threshold m) (max_history_size m)
            (parse_success_count m) (parse_error_count m).

(** The dictionary returned by [check_update_status]; the last two keys
    are present only while waiting. *)
Record UpdateStatus : Type := mkUpdateStatus {
  is_waiting : bool;
  is_stable : bool;
  has_real_change : bool;
  stable_scene_graph : option SceneGraph;
  status_stable_frame_count : option nat;
  required_frames : option nat
}.

(** [check_update_status] *)
Definition check_update_status (m : SceneGraphManager) : UpdateStatus :=
  if negb (waiting_for_update m) then
    mkUpdateStatus false false false None None None
  else
    let stable := stable_frame_threshold m <=? stable_frame_count m in
    match stable, scene_graph_history m with
    | true, first :: _ =>
        mkUpdateStatus true stable
          (if SceneGraph_eq_dec first (last_scene_graph m) then false else true)
          (Some first)
          (Some (stable_frame_count m)) (Some (stable_frame_threshold m))
    | _, _ =>
        mkUpdateStatus true stable false None
          (Some (stable_frame_count m)) (Some (stable_frame_threshold m))
    end.

End Scene.

(* ================================================================= *)
(** ** The constraint validator
    ([tools/action_validation_execution_tool.py]) *)

Module Validator.
Import PyStr Scene.

(** *** Parsing of action commands ([_parse_flexible_action_command])

    The regular expressions of the source are matched from the start of
    the lower-cased, stripped command ([re.match]).  Every repetition in
    them is followed by a character class disjoint from its own, so the
    greedy match is the only one; the alternation of prepositions is tried
    in the order of the pattern, each time with the rest of the pattern. *)

Definition ident_start (c : ascii) : bool := is_alpha c || Ascii.eqb c "_"%char.

Definition ident_char (c : ascii) : bool :=
  is_alpha c || is_digit c || Ascii.eqb c "_"%char || Ascii.eqb c "/"%char.

(** A literal word. *)
Fixpoint eat_lit (lit s : string) : option string :=
  match lit, s with
  | EmptyString, _ => Some s
  | String a lit', String b s' => if Ascii.eqb a b then eat_lit lit' s' else None
  | String _ _, EmptyString => None
  end.

(** One or more, and zero or more, white-space characters. *)
Definition eat_ws1 (s : string) : option string :=
  match s with
  | String c _ => if is_space c then Some (lstrip s) else None
  | EmptyString => None
  end.

Definition eat_ws0 (s : string) : string := lstrip s.

(** One or more digits. *)
Fixpoint skip_digits (s : string) : string :=
  match s with
  | String c s' => if is_digit c then skip_digits s' else s
  | EmptyString => EmptyString
  end.

Definition eat_digits1 (s : string) : option string :=
  match s with
  | String c _ => if is_digit c then Some (skip_digits s) else None
  | EmptyString => None
  end.

(** The name group: one of [a-zA-Z_], then any of [a-zA-Z0-9_/], as many
    as possible; the captured name and the rest. *)
Fixpoint take_ident (s : string) : string * string :=
  match s with
  | String c s' =>
      if ident_char c
      then let (name, rest) := take_ident s' in (String c name, rest)
      else ("", s)
  | EmptyString => ("", "")
  end.

Definition eat_ident (s : string) : option (string * string) :=
  match s with
  | String c s' =>
      if ident_start c
      then let (name, rest) := take_ident s' in Some (String c name, rest)
      else None
  | EmptyString => None
  end.

(** The prefix: action, white space, type, white space, digits, optional
    white space, a colon, optional white space. *)
Definition eat_action_type_prefix (s : string) : option string :=
  match eat_lit "action" s with
  | None => None
  | Some s1 =>
      match eat_ws1 s1 with
      | None => None
      | Some s2 =>
          match eat_lit "type" s2 with
          | None => None
          | Some s3 =>
              match eat_ws1 s3 with
              | None => None
              | Some s4 =>
                  match eat_digits1 s4 with
                  | None => None
                  | Some s5 =>
                      match eat_lit ":" (eat_ws0 s5) with
                      | None => None
                      | Some s6 => Some (eat_ws0 s6)
                      end
                  end
              end
          end
      end
  end.

(** The dictionary returned by the parser. *)
Inductive ParsedAction : Type :=
| OpenClose (action_type : string) (target_object : string)
| Move (source_object relation target_location : string).

(** The verb [open] or [close], white space, a name. *)
Definition match_open_close (s : string) : option ParsedAction :=
  let after_verb (verb : string) :=
    match eat_lit verb s with
    | None => None
    | Some s1 =>
        match eat_ws1 s1 with
        | None => None
        | Some s2 =>
            match eat_ident s2 with
            | None => None
            | Some (name, _) => Some (OpenClose verb name)
            end
        end
    end in
  match after_verb "open" with
  | Some a => Some a
  | None => after_verb "close"
  end.

(** One of the prepositions in, into, to, on, upon (in this order), white
    space, then a name or the word table. *)
Fixpoint match_relation_target (alts : list string) (s : string)
  : option (string * string) :=
  match alts with
  | [] => None
  | alt :: alts' =>
      let this :=
        match eat_lit alt s with
        | None => None
        | Some s1 =>
            match eat_ws1 s1 with
            | None => None
            | Some s2 =>
                match eat_ident s2 with
                | Some (name, _) => Some (alt, name)
                | None =>
                    match eat_lit "table" s2 with
                    | Some _ => Some (alt, "table")
                    | None => None
                    end
                end
            end
        end in
      match this with
      | Some r => Some r
      | None => match_relation_target alts' s
      end
  end.

(** The verb, white space, a name, white space, preposition and target;
    [verb] is move or put. *)
Definition match_move (verb s : string) : option (string * string * string) :=
  match eat_lit verb s with
  | None => None
  | Some s1 =>
      match eat_ws1 s1 with
      | None => None
      | Some s2 =>
          match eat_ident s2 with
          | None => None
          | Some (source, s3) =>
              match eat_ws1 s3 with
              | None => None
              | Some s4 =>
                  match match_relation_target ["in"; "into"; "to"; "on"; "upon"] s4 with
                  | None => None
                  | Some (rel, target) => Some (source, rel, target)
                  end
              end
          end
      end
  end.

Definition first_some {A} (l : list (option A)) : option A :=
  fold_right (fun o acc => match o with Some a => Some a | None => acc end) None l.

Definition normalize_relation (relation : string) : string :=
  if String.eqb relation "into" then "in"
  else if String.eqb relation "to" || String.eqb relation "upon" then "on"
  else relation.

(** [_parse_flexible_action_command] *)
Definition _parse_flexible_action_command (command : string) : option ParsedAction :=
  let command := lower (strip command) in
  let with_prefix {A} (f : string -> option A) :=
    match eat_action_type_prefix command with
    | Some rest => f rest
    | None => None
    end in
  match first_some [match_open_close command; with_prefix match_open_close] with
  | Some a => Some a
  | None =>
      match first_some [match_move "move" command;
                        with_prefix (match_move "move");
                        match_move "put" command;
                        with_prefix (match_move "put")] with
      | Some (source, rel, target) => Some (Move source (normalize_relation rel) target)
      | None => None
      end
  end.

(** *** Object classes *)

(** [_is_cube], [_is_mug], [_is_container] *)
Definition _is_cube (object_name : string) : bool :=
  endswith "_cube" object_name || contains "cube" (lower object_name).

Definition _is_mug (object_name : string) : bool :=
  endswith "_mug" object_name || contains "mug" (lower object_name).

Definition _is_container (object_name : string) : bool :=
  let object_name_lower := lower object_name in
  if contains "drawer" object_name_lower then true
  else if contains "lid_box" object_name_lower then true
  else if endswith "_box" object_name_lower then true
  else false.

(** *** Messages

    Every message the checks build with an f-string is a constructor that
    carries the interpolated values; [render_msg] gives the text. *)

Inductive msg : Type :=
| MBlockedOnTop (object_name object_above : string)
| MContainerClosed (object_name object_container : string)
| MContainerBlocked (object_name object_container blocking_object : string)
| MCanBeMoved (object_name : string)
| MDrawerNotOpen (drawer_name : string)
| MDrawerBlockedBy (drawer_name open_drawer : string)
| MDrawerAccessibleLow (drawer_name : string)
| MDrawerAccessibleMiddle (drawer_name : string)
| MDrawerAccessibleHigh (drawer_name : string)
| MDrawerAccessible (drawer_name : string)
| MTargetBlocked (target_name : string) (blocking_objects : list string)
| MTargetClosed (target_name : string)
| MTargetAccessible (target_name : string)
| MCubeContainerBlocked (cube_name location : string) (blocking_objects : list string)
| MCubeTargetBlocked (cube_name target_box : string) (blocking_objects : list string)
| MAtCapacity (cube_name target_box : string) (cubes_in_target : nat)
| MCubeCanMove (cube_name target_box : string) (cubes_in_target : nat)
| MNoLocation (cube_name : string)
| MCubeOnTable (cube_name : string)
| MSourceContainerBlocked (location : string) (blocking_objects : list string) (cube_name : string)
| MSourceContainerAccessible (location cube_name : string)
| MAppearsAccessible (cube_name location : string)
| MAlready (source_object relation target_location : string)
| MAlreadyOnTable (source_object : string)
| MNotYet (source_object relation target_location : string)
| MCubeNoSupport (target_location : string)
| MMugNoSupport (target_location : string)
| MTargetValid (target_location : string).

(** The value of the key [error_reason] of a validation result. *)
Inductive reason : Type :=
| ECannotParse (command : string)
| ESourceNotFound (source_object : string)
| ETargetNotFound (target_location : string)
| ECannotMoveCube (source_object : string) (source_reason : msg)
| ECannotMove (source_object : string) (move_reason : msg)
| EContainerInContainer (source_object target_location : string)
| ETargetReason (target_reason : msg)
| ECannotPlaceOn (target_location : string) (access_reason : msg)
| ECannotPlaceCube (source_object target_location : string) (cube_placement_reason : msg)
| ETableFull
| EAlreadyCompleted (completion_reason : msg)
| EValidationError (exception : string)
| EObjectNotFound (target_object : string)
| ENoStateInfo (target_object : string)
| EAlreadyOpen (target_object : string)
| EAlreadyClosed (target_object : string).

(** *** Scene analysis *)

Inductive ObjState : Type := StOpen | StClosed.

(** The keys of the analysis dictionary the checks read.  The counters
    and the sets [movable_objects], [blocked_objects], [objects_on_table]
    only feed the report of an accepted action and are left out.
    [scene_graph_data] is [None] when the key was not set or holds [None]. *)
Record SceneAnalysis : Type := mkAnalysis {
  all_objects : list string;
  table_status : string;
  an_edges : list string;
  scene_graph_data : option SceneGraph
}.

Definition clean (name : string) : string :=
  replace "(closed)" "" (replace "(open)" "" name).

(** [edge.split('(on)')] when ['(on)' in edge]; the two stripped parts when
    there are exactly two. *)
Definition on_parts (edge : string) : option (string * string) :=
  if contains "(on)" edge then
    match split "(on)" edge with
    | [a; b] => Some (strip a, strip b)
    | _ => None
    end
  else None.

Definition in_parts (edge : string) : option (string * string) :=
  if contains "(in)" edge then
    match split "(in)" edge with
    | [a; b] => Some (strip a, strip b)
    | _ => None
    end
  else None.

Definition not_table (name : string) : list string :=
  if String.eqb name "table" then [] else [name].

Definition edge_objects (edge : string) : list string :=
  if contains "(on)" edge || contains "(in)" edge then
    let parts := if contains "(on)" edge then split "(on)" edge
                 else split "(in)" edge in
    match parts with
    | [a; b] => (not_table (clean (strip a)) ++ not_table (clean (strip b)))%list
    | _ => []
    end
  else [].

Definition node_objects (n : node) : list string :=
  match n with
  | NInt _ => []
  | NStr s =>
      let node_clean := clean s in
      if String.eqb node_clean "" then [] else not_table node_clean
  end.

Definition scan_table_status (status edge : string) : string :=
  if contains "=" edge then
    if startswith "0=" edge then nth 1 (split "=" edge) status else status
  else status.

(** [_analyze_scene_graph]; [None] is the value on which [.get] raises,
    answered by the analysis of the exception handler. *)
Definition _analyze_scene_graph (data : option SceneGraph) : SceneAnalysis :=
  match data with
  | Some g =>
      let edges := get_edges g in
      let nodes := get_nodes g in
      mkAnalysis (flat_map edge_objects edges ++ flat_map node_objects nodes)%list
                 (fold_left scan_table_status edges "T")
                 edges None
  | None => mkAnalysis [] "T" [] None
  end.

Definition set_scene_graph_data (a : SceneAnalysis) (data : option SceneGraph)
  : SceneAnalysis :=
  mkAnalysis (all_objects a) (table_status a) (an_edges a) data.

Definition str_of_node (n : node) : string :=
  match n with NStr s => s | NInt z => str_of_Z z end.

(** The state tag found in a text that mentions [(open)] or [(closed)]. *)
Definition tag_of (text : string) : option ObjState :=
  if contains "(open)" text then Some StOpen
  else if contains "(closed)" text then Some StClosed
  else None.

Fixpoint state_from_nodes (object_name : string) (ns : list node) : option ObjState :=
  match ns with
  | [] => None
  | n :: ns' =>
      let node_str := str_of_node n in
      if startswith (object_name ++ "(") node_str then
        match tag_of node_str with
        | Some st => Some st
        | None => state_from_nodes object_name ns'
        end
      else state_from_nodes object_name ns'
  end.

Fixpoint state_from_edges (object_name : string) (es : list string) : option ObjState :=
  match es with
  | [] => None
  | edge :: es' =>
      if contains object_name edge then
        if contains (object_name ++ "(open)") edge then Some StOpen
        else if contains (object_name ++ "(closed)") edge then Some StClosed
        else state_from_edges object_name es'
      else state_from_edges object_name es'
  end.

(** [_get_object_state] *)
Definition _get_object_state (object_name : string) (scene_analysis : SceneAnalysis)
  : option ObjState :=
  match scene_graph_data scene_analysis with
  | None => None
  | Some g =>
      match state_from_nodes object_name (get_nodes g) with
      | Some st => Some st
      | None => state_from_edges object_name (get_edges g)
      end
  end.

Definition is_open (st : option ObjState) : bool :=
  match st with Some StOpen => true | _ => false end.

Definition is_closed (st : option ObjState) : bool :=
  match st with Some StClosed => true | _ => false end.

(** [_check_drawer_constraints] *)
Definition _check_drawer_constraints (drawer_name : string)
  (scene_analysis : SceneAnalysis) : bool * msg :=
  let current_state := _get_object_state drawer_name scene_analysis in
  if negb (is_open current_state) then (false, MDrawerNotOpen drawer_name)
  else if String.eqb drawer_name "short_cabinet/drawer_low" then
    let middle_state := _get_object_state "short_cabinet/drawer_middle" scene_analysis in
    let high_state := _get_object_state "short_cabinet/drawer_high" scene_analysis in
    if is_open middle_state
    then (false, MDrawerBlockedBy drawer_name "short_cabinet/drawer_middle")
    else if is_open high_state
    then (false, MDrawerBlockedBy drawer_name "short_cabinet/drawer_high")
    else (true, MDrawerAccessibleLow drawer_name)
  else if String.eqb drawer_name "short_cabinet/drawer_middle" then
    let high_state := _get_object_state "short_cabinet/drawer_high" scene_analysis in
    if is_open high_state
    then (false, MDrawerBlockedBy drawer_name "short_cabinet/drawer_high")
    else (true, MDrawerAccessibleMiddle drawer_name)
  else if String.eqb drawer_name "short_cabinet/drawer_high" then
    (true, MDrawerAccessibleHigh drawer_name)
  else (true, MDrawerAccessible drawer_name).

(** *** The placement checks *)

Fixpoint find_map {A B : Type} (f : A -> option B) (l : list A) : option B :=
  match l with
  | [] => None
  | a :: l' => match f a with Some b => Some b | None => find_map f l' end
  end.

(** The object above, for an edge [above(on)target] with the given target. *)
Definition above_if_on (target edge : string) : option string :=
  match on_parts edge with
  | Some (object_above, target_object) =>
      if String.eqb target_object target then Some object_above else None
  | None => None
  end.

(** The container, for an edge [object(in)container] of the given object. *)
Definition container_if_in (object_name edge : string) : option string :=
  match in_parts edge with
  | Some (inner, container) =>
      if String.eqb inner object_name then Some container else None
  | None => None
  end.

(** [_can_move_object] *)
Definition _can_move_object (object_name : string) (scene_analysis : SceneAnalysis)
  : bool * msg :=
  let edges := an_edges scene_analysis in
  match find_map (above_if_on object_name) edges with
  | Some object_above => (false, MBlockedOnTop object_name object_above)
  | None =>
      match find_map (container_if_in object_name) edges with
      | None => (true, MCanBeMoved object_name)
      | Some object_container =>
          if String.eqb object_container "" then (true, MCanBeMoved object_name)
          else if is_closed (_get_object_state object_container scene_analysis)
          then (false, MContainerClosed object_name object_container)
          else
            let drawer_check :=
              if contains "drawer" object_container
              then _check_drawer_constraints object_container scene_analysis
              else (true, MDrawerAccessible object_container) in
            if negb (fst drawer_check) then (false, snd drawer_check)
            else
              match find_map (above_if_on object_container) edges with
              | Some blocking_object =>
                  (false, MContainerBlocked object_name object_container blocking_object)
              | None => (true, MCanBeMoved object_name)
              end
      end
  end.

(** [_can_access_target] *)
Definition _can_access_target (target_name : string) (scene_analysis : SceneAnalysis)
  : bool * msg :=
  let edges := an_edges scene_analysis in
  let blocking_objects :=
    flat_map (fun edge => match above_if_on target_name edge with
                          | Some a => [a] | None => [] end) edges in
  match blocking_objects with
  | _ :: _ => (false, MTargetBlocked target_name blocking_objects)
  | [] =>
      if contains "lid_box" target_name || contains "drawer" target_name then
        if is_closed (_get_object_state target_name scene_analysis)
        then (false, MTargetClosed target_name)
        else if contains "drawer" target_name then
          let drawer_check := _check_drawer_constraints target_name scene_analysis in
          if negb (fst drawer_check) then (false, snd drawer_check)
          else (true, MTargetAccessible target_name)
        else (true, MTargetAccessible target_name)
      else (true, MTargetAccessible target_name)
  end.

(** The first edge that places the cube: its other end, and whether the
    edge is an [(in)] edge. *)
Fixpoint cube_location (cube_name : string) (es : list string)
  : option (string * bool) :=
  match es with
  | [] => None
  | edge :: es' =>
      if contains (cube_name ++ "(in)") edge then
        match split "(in)" edge with
        | [a; b] => if String.eqb (strip a) cube_name then Some (strip b, true)
                    else cube_location cube_name es'
        | _ => cube_location cube_name es'
        end
      else if contains (cube_name ++ "(on)") edge then
        match split "(on)" edge with
        | [a; b] => if String.eqb (strip a) cube_name then Some (strip b, false)
                    else cube_location cube_name es'
        | _ => cube_location cube_name es'
        end
      else cube_location cube_name es'
  end.

(** The objects of the edges that end with [(on)location]. *)
Definition objects_on (location : string) (es : list string) : list string :=
  flat_map (fun edge =>
    if contains "(on)" edge && endswith ("(on)" ++ location) edge then
      match split "(on)" edge with
      | [a; _] => [strip a]
      | _ => []
      end
    else []) es.

(** The objects of the edges that end with [(in)target_box]. *)
Definition objects_in (target_box : string) (es : list string) : list string :=
  flat_map (fun edge =>
    if contains "(in)" edge && endswith ("(in)" ++ target_box) edge then
      match split "(in)" edge with
      | [a; _] => [strip a]
      | _ => []
      end
    else []) es.

(** [_can_place_cube_in_box] *)
Definition _can_place_cube_in_box (cube_name target_box : string)
  (scene_analysis : SceneAnalysis) : bool * msg :=
  let edges := an_edges scene_analysis in
  let source_blockers :=
    match cube_location cube_name edges with
    | Some (cube_current_location, true) =>
        if String.eqb cube_current_location "" then None
        else match objects_on cube_current_location edges with
             | [] => None
             | l => Some (cube_current_location, l)
             end
    | _ => None
    end in
  match source_blockers with
  | Some (cube_current_location, l) =>
      (false, MCubeContainerBlocked cube_name cube_current_location l)
  | None =>
      match objects_on target_box edges with
      | (_ :: _) as l => (false, MCubeTargetBlocked cube_name target_box l)
      | [] =>
          let cubes_in_target :=
            List.length (filter _is_cube (objects_in target_box edges)) in
          if 10 <=? cubes_in_target
          then (false, MAtCapacity cube_name target_box cubes_in_target)
          else (true, MCubeCanMove cube_name target_box cubes_in_target)
      end
  end.

(** [_validate_cube_source_accessibility] *)
Definition _validate_cube_source_accessibility (cube_name : string)
  (scene_analysis : SceneAnalysis) : bool * msg :=
  let edges := an_edges scene_analysis in
  match cube_location cube_name edges with
  | None => (false, MNoLocation cube_name)
  | Some (cube_current_location, via_in) =>
      let cube_in_container :=
        if via_in then true else negb (String.eqb cube_current_location "table") in
      if String.eqb cube_current_location "" then (false, MNoLocation cube_name)
      else if String.eqb cube_current_location "table" then (true, MCubeOnTable cube_name)
      else if cube_in_container then
        match objects_on cube_current_location edges with
        | (_ :: _) as l =>
            (false, MSourceContainerBlocked cube_current_location l cube_name)
        | [] => (true, MSourceContainerAccessible cube_current_location cube_name)
        end
      else (true, MAppearsAccessible cube_name cube_current_location)
  end.

(** [_is_valid_target_location] *)
Definition _is_valid_target_location (target_location : string) : bool * msg :=
  if _is_cube target_location then (false, MCubeNoSupport target_location)
  else if _is_mug target_location then (false, MMugNoSupport target_location)
  else (true, MTargetValid target_location).

(** [_check_action_already_completed] *)
Definition _check_action_already_completed (source_object target_location relation : string)
  (scene_analysis : SceneAnalysis) : bool * msg :=
  let edges := an_edges scene_analysis in
  let expected_edge := source_object ++ "(" ++ relation ++ ")" ++ target_location in
  if mem expected_edge edges
  then (true, MAlready source_object relation target_location)
  else if String.eqb target_location "table" && mem (source_object ++ "(on)table") edges
  then (true, MAlreadyOnTable source_object)
  else (false, MNotYet source_object relation target_location).

(** *** Validation results *)

(** The result dictionary: the keys [is_valid], [error_reason] and
    [validation_details].  The remaining keys (suggestions, lists of
    available objects, the summary of an accepted action) repeat the
    arguments and the analysis and are left out. *)
Record ValidationResult : Type := mkResult {
  is_valid : bool;
  error_reason : option reason;
  validation_details : list (string * bool)
}.

Definition invalid (r : reason) (details : list (string * bool))
  : ValidationResult :=
  mkResult false (Some r) details.

(** [validation_details] of a move after [k] of its four stages passed. *)
Definition move_details (k : nat) : list (string * bool) :=
  [("objects_exist", 1 <=? k); ("source_movable", 2 <=? k);
   ("target_accessible", 3 <=? k); ("action_valid", 4 <=? k)].

(** [validation_details] of open/close after [k] of its stages passed;
    the last two keys are set together. *)
Definition open_close_details (k : nat) : list (string * bool) :=
  [("object_exists", 1 <=? k); ("state_valid", 2 <=? k); ("action_valid", 2 <=? k)].

(** The search of [_validate_open_close_action] through the nodes, then
    through the edges: [None] when the object is not found, otherwise the
    state read at the first hit. *)
Fixpoint find_in_nodes (target_object : string) (ns : list node)
  : option (option ObjState) :=
  match ns with
  | [] => None
  | n :: ns' =>
      let node_str := str_of_node n in
      if String.eqb node_str target_object then Some None
      else if startswith (target_object ++ "(") node_str then Some (tag_of node_str)
      else find_in_nodes target_object ns'
  end.

Fixpoint find_in_edges (target_object : string) (es : list string)
  : option (option ObjState) :=
  match es with
  | [] => None
  | edge :: es' =>
      if contains target_object edge then
        Some (if contains (target_object ++ "(open)") edge then Some StOpen
              else if contains (target_object ++ "(closed)") edge then Some StClosed
              else None)
      else find_in_edges target_object es'
  end.

(** [_validate_open_close_action]; on [None] the call [.get] raises and the
    handler of the function answers. *)
Definition _validate_open_close_action (action_type target_object : string)
  (data : option SceneGraph) : ValidationResult :=
  match data with
  | None =>
      invalid (EValidationError "'NoneType' object has no attribute 'get'")
              (open_close_details 0)
  | Some g =>
      let found :=
        match find_in_nodes target_object (get_nodes g) with
        | Some st => Some st
        | None => find_in_edges target_object (get_edges g)
        end in
      match found with
      | None => invalid (EObjectNotFound target_object) (open_close_details 0)
      | Some None => invalid (ENoStateInfo target_object) (open_close_details 1)
      | Some (Some current_state) =>
          match current_state with
          | StOpen =>
              if String.eqb action_type "open"
              then invalid (EAlreadyOpen target_object) (open_close_details 1)
              else mkResult true None (open_close_details 2)
          | StClosed =>
              if String.eqb action_type "close"
              then invalid (EAlreadyClosed target_object) (open_close_details 1)
              else mkResult true None (open_close_details 2)
          end
      end
  end.

(** The body of [_validate_action_command] for a parsed move. *)
Definition validate_move (source_object relation target_location : string)
  (data : option SceneGraph) : ValidationResult :=
  let scene_analysis := set_scene_graph_data (_analyze_scene_graph data) data in
  let is_table := String.eqb target_location "table" in
  if negb (mem source_object (all_objects scene_analysis))
  then invalid (ESourceNotFound source_object) (move_details 0)
  else if negb is_table && negb (mem target_location (all_objects scene_analysis))
  then invalid (ETargetNotFound target_location) (move_details 0)
  else
    let cube_source :=
      if _is_cube source_object
      then _validate_cube_source_accessibility source_object scene_analysis
      else (true, MCanBeMoved source_object) in
    if negb (fst cube_source)
    then invalid (ECannotMoveCube source_object (snd cube_source)) (move_details 1)
    else
      let can_move := _can_move_object source_object scene_analysis in
      if negb (fst can_move)
      then invalid (ECannotMove source_object (snd can_move)) (move_details 1)
      else if negb is_table && _is_container source_object && _is_container target_location
      then invalid (EContainerInContainer source_object target_location) (move_details 2)
      else if negb is_table && negb (fst (_is_valid_target_location target_location))
      then invalid (ETargetReason (snd (_is_valid_target_location target_location)))
                   (move_details 2)
      else
        let target_stage : option reason :=
          if negb is_table then
            let can_access := _can_access_target target_location scene_analysis in
            if negb (fst can_access)
            then Some (ECannotPlaceOn target_location (snd can_access))
            else if _is_cube source_object then
              let can_place :=
                _can_place_cube_in_box source_object target_location scene_analysis in
              if negb (fst can_place)
              then Some (ECannotPlaceCube source_object target_location (snd can_place))
              else None
            else None
          else if String.eqb (table_status scene_analysis) "F" then Some ETableFull
          else None in
        match target_stage with
        | Some r => invalid r (move_details 2)
        | None =>
            let completed :=
              _check_action_already_completed source_object target_location relation
                                              scene_analysis in
            if fst completed
            then invalid (EAlreadyCompleted (snd completed)) (move_details 3)
            else mkResult true None (move_details 4)
        end.

(** [_validate_action_command] *)
Definition _validate_action_command (command : string) (data : option SceneGraph)
  : ValidationResult :=
  match _parse_flexible_action_command command with
  | None => invalid (ECannotParse command) (move_details 0)
  | Some (OpenClose action_type target_object) =>
      _validate_open_close_action action_type target_object data
  | Some (Move source_object relation target_location) =>
      validate_move source_object relation target_location data
  end.

(** *** The text of the messages *)

Definition render_msg (m : msg) : string :=
  match m with
  | MBlockedOnTop o a => o ++ " is blocked by " ++ a ++ " on top of it"
  | MContainerClosed o c =>
      "Cannot move " ++ o ++ " from " ++ c
      ++ " because the container is closed. Please open " ++ c ++ " first."
  | MContainerBlocked o c b =>
      o ++ " cannot be moved because its container " ++ c ++ " is blocked by " ++ b
  | MCanBeMoved o => o ++ " can be moved (no objects blocking it)"
  | MDrawerNotOpen d => d ++ " is not open. Please open " ++ d ++ " first."
  | MDrawerBlockedBy d x =>
      "Cannot access " ++ d ++ " because " ++ x ++ " is open. Please close "
      ++ x ++ " first."
  | MDrawerAccessibleLow d => d ++ " is accessible (middle and high drawers are closed)"
  | MDrawerAccessibleMiddle d => d ++ " is accessible (high drawer is closed)"
  | MDrawerAccessibleHigh d => d ++ " is accessible (top drawer, no additional constraints)"
  | MDrawerAccessible d => d ++ " is accessible"
  | MTargetBlocked t l =>
      t ++ " is blocked by objects on top: " ++ join ", " l
      ++ ". Must clear these objects first."
  | MTargetClosed t =>
      "Cannot place objects in " ++ t ++ " because it is closed. Please open "
      ++ t ++ " first."
  | MTargetAccessible t => t ++ " is accessible (no objects blocking from above)"
  | MCubeContainerBlocked c loc l =>
      "Cannot move " ++ c ++ " from " ++ loc ++ " because container is blocked by: "
      ++ join ", " l ++ ". Must clear these objects first."
  | MCubeTargetBlocked c b l =>
      "Cannot place " ++ c ++ " in " ++ b ++ " because target container is blocked by: "
      ++ join ", " l ++ ". Must clear these objects first."
  | MAtCapacity c b n =>
      "Cannot place " ++ c ++ " in " ++ b ++ " because container is at capacity ("
      ++ str_of_nat n ++ "/3 cubes)."
  | MCubeCanMove c b n =>
      "Can move " ++ c ++ " to " ++ b
      ++ ". Source accessible, target accessible, target has capacity ("
      ++ str_of_nat n ++ "/3)."
  | MNoLocation c => "Cannot determine current location of " ++ c
  | MCubeOnTable c => c ++ " is on table, directly accessible"
  | MSourceContainerBlocked loc l c =>
      "Container " ++ loc ++ " is blocked by: " ++ join ", " l
      ++ ". Must clear these objects first before accessing " ++ c ++ "."
  | MSourceContainerAccessible loc c =>
      "Container " ++ loc ++ " is accessible, can move " ++ c
  | MAppearsAccessible c loc => c ++ " appears to be accessible from " ++ loc
  | MAlready s r t => s ++ " is already " ++ r ++ " " ++ t
  | MAlreadyOnTable s => s ++ " is already on table"
  | MNotYet s r t => s ++ " is not yet " ++ r ++ " " ++ t
  | MCubeNoSupport t =>
      "Cannot place objects on cube '" ++ t ++ "'. Cubes cannot support other objects."
  | MMugNoSupport t =>
      "Cannot place objects on mug '" ++ t ++ "'. Mugs cannot support other objects."
  | MTargetValid t => "Target location '" ++ t ++ "' is valid for placement"
  end.

Definition render_reason (r : reason) : string :=
  match r with
  | ECannotParse c => "Cannot parse action: " ++ c
  | ESourceNotFound s => "Source object '" ++ s ++ "' not found in scene"
  | ETargetNotFound t => "Target location '" ++ t ++ "' not found in scene"
  | ECannotMoveCube s m => "Cannot move cube " ++ s ++ ": " ++ render_msg m
  | ECannotMove s m => "Cannot move " ++ s ++ ": " ++ render_msg m
  | EContainerInContainer s t =>
      "Cannot move container '" ++ s ++ "' into another container '" ++ t
      ++ "'. Containers cannot be placed inside other containers."
  | ETargetReason m => render_msg m
  | ECannotPlaceOn t m => "Cannot place on " ++ t ++ ": " ++ render_msg m
  | ECannotPlaceCube s t m =>
      "Cannot place cube " ++ s ++ " in " ++ t ++ ": " ++ render_msg m
  | ETableFull => "Table is full (3 stacks maximum)"
  | EAlreadyCompleted m => "Action already completed: " ++ render_msg m
  | EValidationError e => "Validation error: " ++ e
  | EObjectNotFound t => "Object '" ++ t ++ "' not found in scene graph"
  | ENoStateInfo t =>
      "Object '" ++ t
      ++ "' does not have open/close state information in scene graph"
  | EAlreadyOpen t =>
      "Object '" ++ t ++ "' is already open. Cannot open an already opened object."
  | EAlreadyClosed t =>
      "Object '" ++ t ++ "' is already closed. Cannot close an already closed object."
  end.

End Validator.

(* ================================================================= *)
(** ** Exceptions *)

(** The result of a call that may raise: a value, or the text of the
    exception that leaves the call. *)
Inductive Outcome (A : Type) : Type :=
| Returned (a : A)
| Raised (e : string).

Arguments Returned {A} a.
Arguments Raised {A} e.

(* ================================================================= *)
(** ** The validate-and-execute tool
    ([ActionValidationExecutionTool]) and the bus it polls *)

Module Tool.
Import PyStr Scene Validator.

(** The key [status] of the JSON envelope. *)
Inductive Status : Type :=
| validation_failed
| task_failed
| execution_success
| execution_timeout
| execution_error.

(** [_analyze_scene_changes]: the keys [edges_added], [edges_removed] and
    [has_changes].  The source computes the two differences on Python
    sets; here each is the list of its distinct elements. *)
Record ChangeAnalysis : Type := mkChanges {
  edges_added : list string;
  edges_removed : list string;
  has_changes : bool
}.

Definition set_difference (a b : list string) : list string :=
  nodup string_dec (filter (fun e => negb (mem e b)) a).

Definition _analyze_scene_changes (initial_scene_graph final_scene_graph : SceneGraph)
  : ChangeAnalysis :=
  let initial_edges := get_edges initial_scene_graph in
  let final_edges := get_edges final_scene_graph in
  let added_edges := set_difference final_edges initial_edges in
  let removed_edges := set_difference initial_edges final_edges in
  mkChanges added_edges removed_edges
    ((0 <? List.length added_edges) || (0 <? List.length removed_edges)).

(** The dictionaries [execute] serialises, one constructor for each
    [json.dumps] of the source, with the keys a caller reads.  A scene
    graph that may be [None] (JSON null) is an [option]. *)
Inductive Payload : Type :=
| TaskFailed (consecutive_failures : nat) (current_scene_graph : option SceneGraph)
| NoCommand (current_scene_graph : option SceneGraph)
| ValidationFailed (validation_result : ValidationResult)
                   (current_scene_graph : SceneGraph) (consecutive_failures : nat)
| ExecutionSuccess (intended_action : string) (previous_nodes current_nodes : nat)
                   (scene_graph : SceneGraph) (change_analysis : ChangeAnalysis)
| ExecutionTimeout (current_scene_graph : SceneGraph)
| ExecutionError (message : string) (current_scene_graph : SceneGraph).

Definition status (p : Payload) : Status :=
  match p with
  | TaskFailed _ _ => task_failed
  | NoCommand _ => validation_failed
  | ValidationFailed _ _ _ => validation_failed
  | ExecutionSuccess _ _ _ _ _ => execution_success
  | ExecutionTimeout _ => execution_timeout
  | ExecutionError _ _ => execution_error
  end.

(** The value of [current_scene_graph], or of [scene_graph] when the
    former is absent. *)
Definition payload_scene_graph (p : Payload) : option SceneGraph :=
  match p with
  | TaskFailed _ g => g
  | NoCommand g => g
  | ValidationFailed _ g _ => Some g
  | ExecutionSuccess _ _ _ g _ => Some g
  | ExecutionTimeout g => Some g
  | ExecutionError _ g => Some g
  end.

(** The attributes of the tool that [execute] reads and writes.  [agent]
    tells whether the tool was given the agent, [_ros_node] whether the
    tool holds a ROS node of its own.  [scene_graph_getter] is the bound
    method of the store the tool was built with; [store_agent] tells
    whether that store carries an agent in its attribute [_agent] (the
    agent writes itself there when it is built). *)
Record ToolState : Type := mkTool {
  validation_count : nat;
  success_count : nat;
  consecutive_failures : nat;
  init_raw_data : option string;
  init_scene_graph_data : option SceneGraph;
  trigger_received : bool;
  agent : bool;
  _ros_node : bool;
  store_agent : bool
}.

Definition max_consecutive_failures : nat := 5.

(** [__init__] *)
Definition init (with_agent with_node store_has_agent : bool) : ToolState :=
  mkTool 0 0 0 None None false with_agent with_node store_has_agent.

(** What one [rclpy.spin_once] does: nothing within its timeout, the
    delivery of one scene-graph message, of one [/agent_trigger] message,
    or an exception. *)
Inductive BusEvent : Type :=
| EvIdle
| EvScene (data : RawData) (msg : string)
| EvTrigger (value : bool)
| EvRaise (e : string).

(** A message the tool has published: the cleaned command on
    [/instruction], or the text of the initial scene graph on
    [/scene_graph_init]. *)
Inductive Publication : Type :=
| PubInstruction (data : string)
| PubSceneInit (data : string).

(** The tool, the scene-graph store it shares with the agent, the events
    the bus will deliver, in order, and the number of polling rounds the
    clock allows before [max_wait_time] has elapsed.  [publisher] sums up
    what a publishing helper meets: [None] when no publisher is there and
    none can be created (the helper returns early), otherwise the outcome
    of the call of [publish].  [published] is the log of what went out. *)
Record World : Type := mkWorld {
  manager : SceneGraphManager;
  tool : ToolState;
  bus : list BusEvent;
  poll_budget : nat;
  publisher : option (Outcome unit);
  published : list Publication
}.

Definition set_tool (w : World) (t : ToolState) : World :=
  mkWorld (manager w) t (bus w) (poll_budget w) (publisher w) (published w).

Definition set_trigger (t : ToolState) (b : bool) : ToolState :=
  mkTool (validation_count t) (success_count t) (consecutive_failures t)
         (init_raw_data t) (init_scene_graph_data t) b (agent t) (_ros_node t)
         (store_agent t).

Definition set_init_data (t : ToolState) (raw : option string) (g : SceneGraph)
  : ToolState :=
  mkTool (validation_count t) (success_count t) (consecutive_failures t)
         raw (Some g) (trigger_received t) (agent t) (_ros_node t) (store_agent t).

Definition set_counters (t : ToolState) (vc sc cf : nat) : ToolState :=
  mkTool vc sc cf (init_raw_data t) (init_scene_graph_data t)
         (trigger_received t) (agent t) (_ros_node t) (store_agent t).

(** [rclpy.spin_once]: the next event of the bus is handled by the
    callback subscribed to it ([update_scene_graph] through the ROS
    manager, [_agent_trigger_callback]). *)
Definition rclpy_spin_once (w : World) : Outcome World :=
  match bus w with
  | [] => Returned w
  | ev :: rest =>
      match ev with
      | EvIdle =>
          Returned (mkWorld (manager w) (tool w) rest (poll_budget w)
                            (publisher w) (published w))
      | EvScene data msg =>
          Returned (mkWorld (update_scene_graph (manager w) data (Some msg))
                            (tool w) rest (poll_budget w)
                            (publisher w) (published w))
      | EvTrigger value =>
          Returned (mkWorld (manager w)
                            (if value then set_trigger (tool w) true else tool w)
                            rest (poll_budget w)
                            (publisher w) (published w))
      | EvRaise e => Raised e
      end
  end.

Definition drop_event (w : World) : World :=
  mkWorld (manager w) (tool w) (tl (bus w)) (poll_budget w)
          (publisher w) (published w).

(** [LangGraphAgent.spin_once], that is [ROSManager.spin_once]: an
    exception of [rclpy.spin_once] is printed and dropped. *)
Definition spin_once (w : World) : World :=
  match rclpy_spin_once w with
  | Returned w' => w'
  | Raised _ => drop_event w
  end.

(** [force_refresh_from_ros]: up to [attempts] rounds, until a new scene
    graph has been stored. *)
Fixpoint force_refresh_from_ros (attempts : nat) (old_parse_count : nat) (w : World)
  : World :=
  match attempts with
  | O => w
  | S k =>
      let w' := spin_once w in
      if old_parse_count <? parse_success_count (manager w') then w'
      else force_refresh_from_ros k old_parse_count w'
  end.

(** [_smart_refresh_scene_graph]: the refresh runs with the agent of the
    tool or, when the tool has none, with the agent the store carries. *)
Definition _smart_refresh_scene_graph (w : World) : World :=
  if agent (tool w) || store_agent (tool w)
  then force_refresh_from_ros 10 (parse_success_count (manager w)) w
  else w.

(** The refresh both branches of [execute] run before the final snapshot:
    one round of the agent, the smart refresh, then [get_current_raw_msg]
    stored in the tool.  The snapshot is returned with the world. *)
Definition refresh_and_snapshot (w : World) : SceneGraph * World :=
  let w1 := if agent (tool w) then spin_once w else w in
  let w2 := _smart_refresh_scene_graph w1 in
  let '(raw, g) := get_current_raw_msg (manager w2) in
  (g, set_tool w2 (set_init_data (tool w2) raw g)).

(** Case-insensitive literal of [_extract_core_action]. *)
Fixpoint eat_lit_ci (lit s : string) : option string :=
  match lit, s with
  | EmptyString, _ => Some s
  | String a lit', String b s' =>
      if Ascii.eqb (lower_char a) (lower_char b) then eat_lit_ci lit' s' else None
  | String _ _, EmptyString => None
  end.

Definition newline_char : ascii := ascii_of_nat 10.

Fixpoint has_newline (s : string) : bool :=
  match s with
  | String c s' => Ascii.eqb c newline_char || has_newline s'
  | EmptyString => false
  end.

(** The tail of both patterns: digits, optional white space, a colon,
    optional white space, then the rest of the text, which has to be
    non-empty and on one line; the captured rest. *)
Definition core_after_number (s : string) : option string :=
  match eat_digits1 s with
  | None => None
  | Some s1 =>
      match eat_lit ":" (eat_ws0 s1) with
      | None => None
      | Some s2 =>
          let rest := eat_ws0 s2 in
          if String.eqb rest "" || has_newline rest then None else Some rest
      end
  end.

(** [_extract_core_action]: the command without a leading
    [action type N:] or [step N:]. *)
Definition _extract_core_action (action : string) : string :=
  let text := strip action in
  let action_type :=
    match eat_lit_ci "action" text with
    | None => None
    | Some s1 =>
        match eat_ws1 s1 with
        | None => None
        | Some s2 =>
            match eat_lit_ci "type" s2 with
            | None => None
            | Some s3 =>
                match eat_ws1 s3 with
                | None => None
                | Some s4 => core_after_number s4
                end
            end
        end
    end in
  let step :=
    match eat_lit_ci "step" text with
    | None => None
    | Some s1 =>
        match eat_ws1 s1 with
        | None => None
        | Some s2 => core_after_number s2
        end
    end in
  match action_type, step with
  | Some core, _ => strip core
  | None, Some core => strip core
  | None, None => text
  end.

Definition publish (w : World) (m : Publication) : World :=
  match publisher w with
  | Some (Returned _) =>
      mkWorld (manager w) (tool w) (bus w) (poll_budget w) (publisher w)
              (published w ++ [m])%list
  | Some (Raised _) => w
  | None => w
  end.

(** [_publish_action_cmd]: an exception of the publisher is printed by the
    handler of the helper. *)
Definition _publish_action_cmd (w : World) (action : string) : World :=
  publish w (PubInstruction (_extract_core_action action)).

(** [_publish_init_raw_msg] *)
Definition _publish_init_raw_msg (w : World) : World :=
  match init_raw_data (tool w) with
  | None => w
  | Some json_str => publish w (PubSceneInit json_str)
  end.

(** [_format_success_response] *)
Definition _format_success_response (initial_scene_graph final_scene_graph : SceneGraph)
  (intended_action : string) : Payload :=
  ExecutionSuccess intended_action
    (List.length (get_nodes initial_scene_graph))
    (List.length (get_nodes final_scene_graph))
    final_scene_graph
    (_analyze_scene_changes initial_scene_graph final_scene_graph).

(** [_format_timeout_response] *)
Definition _format_timeout_response (w : World) : Payload :=
  ExecutionTimeout (get_current_scene_graph (manager w)).

(** [_format_error_response] *)
Definition _format_error_response (error_msg : string) (w : World) : Payload :=
  ExecutionError ("Error during action execution: " ++ error_msg)
                 (get_current_scene_graph (manager w)).

(** The bus pump of one polling round: the agent's [spin_once] when the
    tool has the agent, otherwise [rclpy.spin_once] on the tool's own node. *)
Definition pump (w : World) : Outcome World :=
  if agent (tool w) then Returned (spin_once w)
  else if _ros_node (tool w) then rclpy_spin_once w
  else Returned w.

(** The [while] loop of [_execute_action] with the [try] around it; [fuel]
    is the number of rounds left before the deadline. *)
Fixpoint wait_loop (fuel : nat) (initial_scene_graph_data : SceneGraph)
  (query : string) (w : World) : Payload * World :=
  match fuel with
  | O => (_format_timeout_response w, w)
  | S k =>
      match pump w with
      | Raised e =>
          let w' := drop_event w in (_format_error_response e w', w')
      | Returned w1 =>
          if trigger_received (tool w1) then
            let '(final, w2) := refresh_and_snapshot w1 in
            (_format_success_response initial_scene_graph_data final query, w2)
          else wait_loop k initial_scene_graph_data query w1
      end
  end.

(** [_execute_action].  The command and the initial scene graph are
    published first.  The first read of the initial scene graph stands
    before the [try]: on [None] it raises. *)
Definition _execute_action (w : World) (query : string)
  (initial_scene_graph_data : option SceneGraph) : Outcome Payload * World :=
  let w_pub := _publish_init_raw_msg (_publish_action_cmd w query) in
  match initial_scene_graph_data with
  | None => (Raised "'NoneType' object has no attribute 'get'", w_pub)
  | Some initial =>
      let w0 := set_tool w_pub (set_trigger (tool w_pub) false) in
      let '(p, w1) := wait_loop (poll_budget w0) initial query w0 in
      (Returned p, set_tool w1 (set_trigger (tool w1) false))
  end.

(** [execute] *)
Definition execute (w : World) (query : string) : Outcome Payload * World :=
  let t := tool w in
  let vc := validation_count t + 1 in
  if max_consecutive_failures <=? consecutive_failures t then
    (Returned (TaskFailed max_consecutive_failures (init_scene_graph_data t)),
     set_tool w (set_counters t vc (success_count t) 0))
  else
    let t1 :=
      let t' := set_counters t vc (success_count t) (consecutive_failures t) in
      if vc =? 1
      then let '(raw, g) := get_current_raw_msg (manager w) in set_init_data t' raw g
      else t' in
    let w1 := set_tool w t1 in
    if String.eqb (strip query) "" then
      (Returned (NoCommand (init_scene_graph_data t1)), w1)
    else
      let validation_result := _validate_action_command query (init_scene_graph_data t1) in
      if negb (is_valid validation_result) then
        let cf := consecutive_failures t1 + 1 in
        let w2 := set_tool w1 (set_counters t1 vc (success_count t1) cf) in
        let '(g, w3) := refresh_and_snapshot w2 in
        (Returned (ValidationFailed validation_result g cf), w3)
      else
        let w2 := set_tool w1 (set_counters t1 vc (success_count t1 + 1) 0) in
        _execute_action w2 query (init_scene_graph_data t1).

End Tool.

(* ================================================================= *)
(** ** The agent: repetition guard and routing
    ([core/agent_reflect.py]) *)

Module Agent.
Import PyStr Scene Validator Tool.

Definition nl : string := String (ascii_of_nat 10) "".
Definition dquote : string := String (ascii_of_nat 34) "".

Definition tool_name_vae : string := "ValidateAndExecuteAction".

(** A tool call of an AI message: the keys [name], [args] and [id].  The
    arguments of the tool are the dictionary with the single key [query];
    two such dictionaries are equal when their queries are. *)
Record ToolCall : Type := mkToolCall {
  tc_name : string;
  tc_args : string;
  tc_id : string
}.

Inductive Message : Type :=
| HumanMessage (content : string)
| AIMessage (content : string) (tool_calls : list ToolCall)
| SystemMessage (content : string)
| ToolMessage (content : string) (name : string) (tool_call_id : string).

Definition content_of (m : Message) : string :=
  match m with
  | HumanMessage c => c
  | AIMessage c _ => c
  | SystemMessage c => c
  | ToolMessage c _ _ => c
  end.

Definition name_of (m : Message) : option string :=
  match m with
  | ToolMessage _ n _ => Some n
  | _ => None
  end.

Definition tool_calls_of (m : Message) : list ToolCall :=
  match m with
  | AIMessage _ tcs => tcs
  | _ => []
  end.

(** What the tool wrapper ([BaseTool.__call__]) hands back: the JSON text
    of a payload, or the text it builds from an exception of [execute]. *)
Inductive ToolOutput : Type :=
| OutPayload (p : Payload)
| OutText (text : string).

(** The entries of [execution_records] with the keys the routing reads. *)
Inductive ExecRecord : Type :=
| RecordRejected (invalid_reason : string)
| RecordValidateExecute (tools_called : list string)
                        (tool_results : list (string * ToolOutput))
                        (rec_task_failed : bool)
| RecordOther (type : string).

(** The attributes of [LangGraphAgent] the node reads and writes, with the
    tool and the store it owns. *)
Record AgentState : Type := mkAgent {
  same_tool_count : nat;
  last_call_message : option string;
  last_last_call_message : option string;
  execution_records : list ExecRecord;
  world : World
}.

(** [reset_validation_count] *)
Definition reset_validation_count (st : AgentState) : AgentState :=
  let w := world st in
  mkAgent 0 None None (execution_records st)
    (set_tool w (set_counters (tool w) 0 (success_count (tool w)) 0)).

(** The verdict of the two tests on the arguments of the call. *)
Inductive GuardVerdict : Type :=
| RejectedSameAsBeforeLast
| RejectedRepeated
| Passed.

Definition same_args (a : string) (b : option string) : bool :=
  match b with
  | Some x => String.eqb a x
  | None => false
  end.

(** The repetition tests at the head of [_call_validate_execute]: the
    verdict and the new values of [same_tool_count], [last_call_message]
    and [last_last_call_message]. *)
Definition repetition_guard (st : AgentState) (tool_args : string)
  : GuardVerdict * (nat * option string * option string) :=
  if same_args tool_args (last_last_call_message st) then
    (RejectedSameAsBeforeLast, (0, None, None))
  else if same_args tool_args (last_call_message st) then
    let count := same_tool_count st + 1 in
    if 5 <=? count
    then (RejectedRepeated, (0, None, last_last_call_message st))
    else (Passed, (count, last_call_message st, last_last_call_message st))
  else (Passed, (0, Some tool_args, last_call_message st)).

(** The text of the key [error_reason] of a payload, and of [message]. *)
Definition payload_error_reason (p : Payload) : option string :=
  match p with
  | TaskFailed n _ =>
      Some ("Task terminated due to consecutive validation failures ("
            ++ str_of_nat n
            ++ " times). The task appears to be impossible to complete.")
  | NoCommand _ =>
      Some ("No action command provided. Please provide a valid action in format "
            ++ "'action type X: move boxY to boxZ' or 'action type X: move boxY to table'")
  | ValidationFailed r _ _ =>
      Some (match error_reason r with
            | Some e => render_reason e
            | None => "None"
            end)
  | _ => None
  end.

Definition payload_message (p : Payload) : option string :=
  match p with
  | ExecutionSuccess _ _ _ _ _ =>
      Some ("Action validated and executed successfully. "
            ++ "Environment updated and scene graph stabilized.")
  | ExecutionTimeout _ => Some "Timed out waiting for /agent_trigger signal (value=true)"
  | ExecutionError m _ => Some m
  | _ => None
  end.

Definition or_default (o : option string) (d : string) : string :=
  match o with Some s => s | None => d end.

(** [BaseTool.__call__] around [execute]. *)
Definition call_tool (w : World) (query : string) : ToolOutput * World :=
  match execute w query with
  | (Returned p, w') => (OutPayload p, w')
  | (Raised e, w') => (OutText ("Tool execution failed: " ++ e), w')
  end.

(** The JSON library.  [json_dumps] renders a scene graph.  [json_decode]
    is the decoder on a text whose first character after JSON white space
    can begin a JSON value; on any other text [json.loads] raises
    [JSONDecodeError], which is [None] here.  A decoded document is an
    object, with its key [status] when it has one, or another value. *)
Inductive JsonDoc : Type :=
| JsonObject (status_key : option string)
| JsonOther.

Fixpoint json_lstrip (s : string) : string :=
  match s with
  | String c s' =>
      let n := nat_of_ascii c in
      if (n =? 32) || (n =? 9) || (n =? 10) || (n =? 13) then json_lstrip s' else s
  | EmptyString => EmptyString
  end.

Definition json_value_start (c : ascii) : bool :=
  is_digit c || existsb (Ascii.eqb c)
    [ascii_of_nat 34; "{"; "["; "n"; "t"; "f"; "-"; "N"; "I"]%char.

Section Json.

Variable json_dumps : SceneGraph -> string.
Variable json_decode : string -> option JsonDoc.

Definition json_loads (s : string) : option JsonDoc :=
  match json_lstrip s with
  | String c _ => if json_value_start c then json_decode s else None
  | EmptyString => None
  end.

(** [_build_action_feedback_message] *)
Definition _build_action_feedback_message (result : ToolOutput) (action_query : string)
  (w : World) : string :=
  match result with
  | OutText text => text
  | OutPayload p =>
      let feedback_prefix :=
        match status p with
        | execution_success =>
            "The previous action '" ++ action_query ++ "' was executed successfully."
        | validation_failed =>
            "The action '" ++ action_query ++ "' is invalid, reason: "
            ++ or_default (payload_error_reason p) "Unknown validation error"
        | task_failed =>
            "The action '" ++ action_query ++ "' failed, reason: "
            ++ or_default (payload_error_reason p) "Task failed"
        | execution_timeout =>
            "The action '" ++ action_query ++ "' timed out waiting for completion signal."
        | execution_error =>
            "The action '" ++ action_query ++ "' encountered an error: "
            ++ or_default (payload_message p) "Unknown execution error"
        end in
      let with_graph (g : SceneGraph) :=
        feedback_prefix ++ nl ++ nl ++ "Current scene graph:" ++ nl ++ json_dumps g in
      let from_store :=
        let current_scene := get_current_scene_graph (manager w) in
        if truthy current_scene then with_graph current_scene
        else feedback_prefix ++ nl ++ nl ++ "(Scene graph not available)" in
      match payload_scene_graph p with
      | Some g => if truthy g then with_graph g else from_store
      | None => from_store
      end
  end.

Definition output_task_failed (o : ToolOutput) : bool :=
  match o with
  | OutPayload p => match status p with task_failed => true | _ => false end
  | OutText text => contains "task_failed" (lower text)
  end.

Definition set_repetition (st : AgentState)
  (r : nat * option string * option string) : AgentState :=
  let '(count, last, before_last) := r in
  mkAgent count last before_last (execution_records st) (world st).

Definition add_record (st : AgentState) (r : ExecRecord) : AgentState :=
  mkAgent (same_tool_count st) (last_call_message st) (last_last_call_message st)
          (execution_records st ++ [r])%list (world st).

Definition set_world (st : AgentState) (w : World) : AgentState :=
  mkAgent (same_tool_count st) (last_call_message st) (last_last_call_message st)
          (execution_records st) w.

(** The arguments in an f-string: [str] of the dictionary. *)
Definition repr_args (tool_args : string) : string :=
  "{'query': " ++ repr tool_args ++ "}".

(** [_call_validate_execute]: the messages the node adds to the state and
    the agent after it.  The tool is registered in [tools_by_name]. *)
Definition _call_validate_execute (st : AgentState) (messages : list Message)
  : list Message * AgentState :=
  match tool_calls_of (last messages (HumanMessage "")) with
  | [] => ([], add_record st (RecordValidateExecute [] [] false))
  | tool_call :: _ =>
      let tool_args := tc_args tool_call in
      let '(verdict, rep) := repetition_guard st tool_args in
      let st1 := set_repetition st rep in
      match verdict with
      | RejectedSameAsBeforeLast =>
          let reason := "The action " ++ dquote ++ repr_args tool_args ++ dquote
                        ++ " is the same as the one before last." in
          ([HumanMessage ("invalid, reason: " ++ reason)],
           add_record st1 (RecordRejected reason))
      | RejectedRepeated =>
          let reason := "The action " ++ dquote ++ repr_args tool_args ++ dquote
                        ++ " was repeated." in
          ([HumanMessage ("invalid, reason: " ++ reason)],
           add_record st1 (RecordRejected reason))
      | Passed =>
          if String.eqb (tc_name tool_call) tool_name_vae then
            let '(result, w') := call_tool (world st1) tool_args in
            let content_to_save := _build_action_feedback_message result tool_args w' in
            let tool_outputs :=
              [ToolMessage content_to_save (tc_name tool_call) (tc_id tool_call)] in
            let failed := output_task_failed result in
            let st2 := add_record (set_world st1 w')
                         (RecordValidateExecute [tc_name tool_call]
                            [(tc_name tool_call, result)] failed) in
            (if failed
             then (tool_outputs ++
                   [SystemMessage "If the user goal is not completed, please continue planning."])%list
             else tool_outputs,
             st2)
          else ([], add_record st1 (RecordValidateExecute [] [] false))
      end
  end.

(** The two answers of a routing function. *)
Inductive Route : Type := route_continue | route_end.

Definition is_vae_message (m : Message) : bool :=
  match name_of m with
  | Some n => String.eqb n tool_name_vae
  | None => false
  end.

Definition last_record_task_failed (records : list ExecRecord) : bool :=
  match rev records with
  | RecordValidateExecute _ _ failed :: _ => failed
  | _ => false
  end.

(** [_should_continue_after_execution].  The graph state carries only the
    messages, so its key [task_failed] is never found.  A decoded document
    that is not an object has no [get]: the [AttributeError] is not among
    the exceptions the function catches. *)
Definition _should_continue_after_execution (st : AgentState) (messages : list Message)
  : Outcome Route :=
  if existsb (fun m => startswith "TASK_FAILED:" (content_of m)) messages
  then Returned route_end
  else
    let by_records :=
      if last_record_task_failed (execution_records st)
      then Returned route_end else Returned route_continue in
    match find is_vae_message (rev messages) with
    | None => by_records
    | Some last_tool_message =>
        let content := content_of last_tool_message in
        match json_loads content with
        | Some (JsonObject status_key) =>
            let status := or_default status_key "" in
            if String.eqb status "validation_failed" then Returned route_end
            else if String.eqb status "task_failed" then Returned route_end
            else by_records
        | Some JsonOther => Raised "AttributeError"
        | None =>
            if startswith "The action '" content
               && contains "is invalid, reason:" content
            then Returned route_end
            else by_records
        end
    end.

(** The nodes of the workflow built by [initialize] and the edges that
    leave [validate_execute]. *)
Inductive GraphNode : Type :=
| node_get_initial_info
| node_agent
| node_validate_execute
| node_END.

Definition after_validate_execute (r : Route) : GraphNode :=
  match r with
  | route_continue => node_agent
  | route_end => node_END
  end.

(** One visit of the node [validate_execute] followed by its conditional
    edge: the messages of the state after the node, the agent after it,
    and the node the graph enters next. *)
Definition validate_execute_round (st : AgentState) (messages : list Message)
  : list Message * AgentState * Outcome GraphNode :=
  let '(added, st') := _call_validate_execute st messages in
  let messages' := (messages ++ added)%list in
  (messages', st',
   match _should_continue_after_execution st' messages' with
   | Returned r => Returned (after_validate_execute r)
   | Raised e => Raised e
   end).

End Json.

End Agent.

(* ================================================================= *)
(** ** Vocabulary of the statements and sample scenes *)

Module Samples.
Import PyStr Scene Validator Tool Agent.

(** The reasons of the checks that run before the idempotence check. *)
Definition earlier_check (r : reason) : bool :=
  match r with
  | ESourceNotFound _ | ETargetNotFound _ | ECannotMoveCube _ _ | ECannotMove _ _
  | EContainerInContainer _ _ | ETargetReason _ | ECannotPlaceOn _ _
  | ECannotPlaceCube _ _ _ | ETableFull => true
  | _ => false
  end.

(** The analysis [_validate_action_command] works with. *)
Definition analysis_of (data : option SceneGraph) : SceneAnalysis :=
  set_scene_graph_data (_analyze_scene_graph data) data.

(** One check of the fixed order: the reason it returns when it rejects. *)
Definition rejects (failed : bool) (r : reason) : option reason :=
  if failed then Some r else None.

(** The checks a move goes through before the idempotence check, in the
    fixed order, each with its reason: existence of the source and of the
    target, accessibility of a cube source, movability, container nesting,
    target type, target accessibility, cube placement, table full. *)
Definition checks_before_completion (source_object target_location : string)
  (a : SceneAnalysis) : list (option reason) :=
  let to_table := String.eqb target_location "table" in
  let cube_source := _validate_cube_source_accessibility source_object a in
  let can_move := _can_move_object source_object a in
  let valid_target := _is_valid_target_location target_location in
  let can_access := _can_access_target target_location a in
  let can_place := _can_place_cube_in_box source_object target_location a in
  [rejects (negb (mem source_object (all_objects a)))
           (ESourceNotFound source_object);
   rejects (negb to_table && negb (mem target_location (all_objects a)))
           (ETargetNotFound target_location);
   rejects (_is_cube source_object && negb (fst cube_source))
           (ECannotMoveCube source_object (snd cube_source));
   rejects (negb (fst can_move)) (ECannotMove source_object (snd can_move));
   rejects (negb to_table && _is_container source_object
            && _is_container target_location)
           (EContainerInContainer source_object target_location);
   rejects (negb to_table && negb (fst valid_target))
           (ETargetReason (snd valid_target));
   rejects (negb to_table && negb (fst can_access))
           (ECannotPlaceOn target_location (snd can_access));
   rejects (negb to_table && _is_cube source_object && negb (fst can_place))
           (ECannotPlaceCube source_object target_location (snd can_place));
   rejects (to_table && String.eqb (table_status a) "F") ETableFull].

(** The container a move takes its object from, as [_can_move_object]
    finds it: the other end of the first [(in)] edge of the object. *)
Definition source_container (object_name : string) (a : SceneAnalysis) : option string :=
  find_map (container_if_in object_name) (an_edges a).

Definition drawer_low : string := "short_cabinet/drawer_low".
Definition drawer_middle : string := "short_cabinet/drawer_middle".
Definition drawer_high : string := "short_cabinet/drawer_high".

(** The drawer rule as [_check_drawer_constraints] tests it: the drawer is
    open, and no drawer above it reads as open. *)
Definition drawer_rule_holds (d : string) (a : SceneAnalysis) : Prop :=
  is_open (_get_object_state d a) = true /\
  (d = drawer_low ->
     is_open (_get_object_state drawer_middle a) = false /\
     is_open (_get_object_state drawer_high a) = false) /\
  (d = drawer_middle -> is_open (_get_object_state drawer_high a) = false).

(** Three cubes in [red_box], a fourth cube on the table. *)
Definition three_cubes_scene : SceneGraph :=
  mkSceneGraph None
    (Some [NStr "table"; NStr "red_box"; NStr "red_cube1"; NStr "red_cube2";
           NStr "red_cube3"; NStr "red_cube4"])
    (Some ["red_box(on)table"; "red_cube1(in)red_box"; "red_cube2(in)red_box";
           "red_cube3(in)red_box"; "red_cube4(on)table"]).

(** The low drawer open, the high drawer closed, the middle drawer listed
    without a state tag. *)
Definition untagged_drawer_scene : SceneGraph :=
  mkSceneGraph None
    (Some [NStr "table"; NStr "short_cabinet"; NStr "short_cabinet/drawer_low(open)";
           NStr "short_cabinet/drawer_middle"; NStr "short_cabinet/drawer_high(closed)";
           NStr "red_mug"])
    (Some ["short_cabinet(on)table"; "red_mug(on)table"]).

(** A mug standing on a box. *)
Definition mug_on_box_scene : SceneGraph :=
  mkSceneGraph None
    (Some [NStr "table"; NStr "blue_box"; NStr "red_mug"])
    (Some ["blue_box(on)table"; "red_mug(on)blue_box"]).

(** The scene of the idempotence example after its first application. *)
Definition cube_in_box_scene : SceneGraph :=
  mkSceneGraph None
    (Some [NStr "table"; NStr "red_box"; NStr "red_cube1"])
    (Some ["red_cube1(in)red_box"]).

(** An open box with a lid that holds a cube; the mug stands on the box,
    and its edge names the box with the state tag. *)
Definition tagged_lid_scene : SceneGraph :=
  mkSceneGraph None
    (Some [NStr "table"; NStr "lid_box(open)"; NStr "red_mug"; NStr "red_cube1"])
    (Some ["lid_box(open)(on)table"; "red_cube1(in)lid_box";
           "red_mug(on)lid_box(open)"]).

(** The scene graph [execute] validates against: the snapshot it takes on
    its first call, otherwise the one the tool kept from the last call. *)
Definition validation_snapshot (w : World) : option SceneGraph :=
  if validation_count (tool w) + 1 =? 1
  then Some (current_scene_graph (manager w))
  else init_scene_graph_data (tool w).

(** An event that neither signals completion nor makes the pump of the
    wait loop fail (the agent's pump drops an exception of the bus). *)
Definition quiet_event (has_agent : bool) (ev : BusEvent) : bool :=
  match ev with
  | EvTrigger true => false
  | EvRaise _ => has_agent
  | _ => true
  end.

(** The event is the completion signal; the event makes
    [rclpy.spin_once] raise. *)
Definition completion_signal (ev : BusEvent) : bool :=
  match ev with EvTrigger true => true | _ => false end.

Definition raising_event (ev : BusEvent) : bool :=
  match ev with EvRaise _ => true | _ => false end.

(** No completion signal within the polling rounds of [max_wait_time]. *)
Definition no_completion_signal (w : World) : Prop :=
  existsb completion_signal (firstn (poll_budget w) (bus w)) = false.

(** The tool has no agent and polls the bus on a node of its own: an
    exception of [rclpy.spin_once] then reaches the handler of the wait
    loop. *)
Definition polls_own_node (t : ToolState) : bool := negb (agent t) && _ros_node t.

(** A polling round of the waiting time raises. *)
Definition polling_raises (w : World) : bool :=
  polls_own_node (tool w)
  && existsb raising_event (firstn (poll_budget w) (bus w)).

(** The counters and the configuration of the tool are the same. *)
Definition same_config (t t' : ToolState) : Prop :=
  validation_count t' = validation_count t /\
  success_count t' = success_count t /\
  consecutive_failures t' = consecutive_failures t /\
  agent t' = agent t /\ _ros_node t' = _ros_node t.

(** The tool called with the commands of a list, one after the other. *)
Definition run_commands (w : World) (queries : list string) : World :=
  fold_left (fun w q => snd (execute w q)) queries w.

(** A world whose store holds [cube_in_box_scene]; the bus delivers
    nothing, and three polling rounds fit in the waiting time. *)
Definition sample_world : World :=
  mkWorld (update_scene_graph Scene.init (RawDict cube_in_box_scene) (Some "scene"))
          (Tool.init true false true) [] 3 (Some (Returned tt)) [].

(** The same store polled by a tool without the agent, on a node of its
    own; the first round of the bus raises. *)
Definition failing_bus_world : World :=
  mkWorld (update_scene_graph Scene.init (RawDict cube_in_box_scene) (Some "scene"))
          (Tool.init false true false) [EvRaise "context is shut down"] 3
          (Some (Raised "publisher destroyed")) [].

(** A tool without the agent on a node of its own, with a working
    publisher; the second round of the bus raises, and no signal comes. *)
Definition raising_bus_world : World :=
  mkWorld (update_scene_graph Scene.init (RawDict cube_in_box_scene) (Some "scene"))
          (Tool.init false true false) [EvIdle; EvRaise "context is shut down"] 3
          (Some (Returned tt)) [].

(** The bus delivers a new scene graph during the wait, and no trigger. *)
Definition late_update_world : World :=
  mkWorld (update_scene_graph Scene.init (RawDict cube_in_box_scene) (Some "scene"))
          (Tool.init true false true)
          [EvIdle; EvScene (RawDict mug_on_box_scene) "update"] 3
          (Some (Returned tt)) [].

(** The tool after five commands in a row that fail validation. *)
Definition world_after_five_failures : World :=
  run_commands sample_world (repeat "move ghost on table" 5).

(** The command of the round is valid: the failure counter is below its
    limit, the command is not empty and the validator accepts it. *)
Definition validates_successfully (w : World) (query : string) : Prop :=
  consecutive_failures (tool w) < max_consecutive_failures /\
  strip query <> "" /\
  is_valid (_validate_action_command query (validation_snapshot w)) = true.

(** The last message of the state asks for the tool with this query. *)
Definition submits (messages : list Message) (query : string) : Prop :=
  exists id rest,
    tool_calls_of (last messages (HumanMessage ""))
    = mkToolCall tool_name_vae query id :: rest.

(** The streak counter, the last command and the one before it. *)
Definition repetition_state (st : AgentState) : nat * option string * option string :=
  (same_tool_count st, last_call_message st, last_last_call_message st).

(** No message of the state starts with the marker of a failed task. *)
Definition no_task_failed_marker (messages : list Message) : Prop :=
  existsb (fun m => startswith "TASK_FAILED:" (content_of m)) messages = false.

(** A message of the state starts with the marker of a failed task. *)
Definition task_failed_marker (messages : list Message) : bool :=
  existsb (fun m => startswith "TASK_FAILED:" (content_of m)) messages.

(** The sentence the feedback text starts with, up to the part common to
    every payload of the status. *)
Definition feedback_head (p : Payload) (query : string) : string :=
  match status p with
  | execution_success => "The previous action '" ++ query
  | validation_failed => "The action '" ++ query ++ "' is invalid, reason: "
  | task_failed => "The action '" ++ query ++ "' failed, reason: "
  | execution_timeout => "The action '" ++ query
  | execution_error => "The action '" ++ query
  end.

(** A closed box with a lid and a mug on an open box. *)
Definition lid_box_scene : SceneGraph :=
  mkSceneGraph None
    (Some [NStr "table"; NStr "blue_box"; NStr "lid_box(closed)"; NStr "red_mug"])
    (Some ["blue_box(on)table"; "lid_box(on)table"; "red_mug(on)blue_box"]).

(** A world whose simulator signals completion but never changes the
    scene: each trigger is followed by the eleven rounds of the refresh. *)
Definition unchanging_world : World :=
  mkWorld (update_scene_graph Scene.init (RawDict lid_box_scene) (Some "scene"))
          (Tool.init true false true)
          (EvTrigger true :: repeat EvIdle 11 ++ EvTrigger true :: repeat EvIdle 11)%list
          3 (Some (Returned tt)) [].

(** A world with the same scene whose bus stays silent. *)
Definition silent_world : World :=
  mkWorld (update_scene_graph Scene.init (RawDict lid_box_scene) (Some "scene"))
          (Tool.init true false true) [] 3 (Some (Returned tt)) [].

(** The agent at the start of a task. *)
Definition fresh_agent (w : World) : AgentState := mkAgent 0 None None [] w.

(** A task message followed by the planner's call of the tool. *)
Definition call_messages (query : string) : list Message :=
  [HumanMessage "task"; AIMessage "" [mkToolCall tool_name_vae query "call_1"]].

(** The same, for a task whose text starts with the marker of a failed
    task. *)
Definition marked_call_messages (query : string) : list Message :=
  [HumanMessage "TASK_FAILED: the cube fell, put it back";
   AIMessage "" [mkToolCall tool_name_vae query "call_1"]].

Definition sample_json_dumps (g : SceneGraph) : string := "{}".
Definition sample_json_decode (text : string) : option JsonDoc := None.

(** The node visited once for each command of a list. *)
Definition run_rounds (st : AgentState) (queries : list string) : AgentState :=
  fold_left (fun st q => snd (_call_validate_execute sample_json_dumps st (call_messages q)))
            queries st.

Definition open_lid : string := "open lid_box".
Definition mug_to_table : string := "move red_mug on table".

(** Three rounds from the start of a task: open, move, open. *)
Definition round1 : list Message * AgentState :=
  _call_validate_execute sample_json_dumps (fresh_agent silent_world)
                         (call_messages open_lid).
Definition round2 : list Message * AgentState :=
  _call_validate_execute sample_json_dumps (snd round1) (call_messages mug_to_table).
Definition round3 : list Message * AgentState :=
  _call_validate_execute sample_json_dumps (snd round2) (call_messages open_lid).

(** A store that has just been asked to wait for an update. *)
Definition waiting_store : SceneGraphManager :=
  start_waiting_for_update
    (update_scene_graph Scene.init (RawDict lid_box_scene) (Some "scene"))
    lid_box_scene.

End Samples.

(* ================================================================= *)
(** ** The remaining methods of the store, and the ROS callback that
    feeds it ([utils/scene_graph_manager.py], [utils/ros_manager.py]) *)

Module SceneOps.
Import PyStr Scene.

(** [reset_stability_tracking] *)
Definition reset_stability_tracking (m : SceneGraphManager) : SceneGraphManager :=
  mkManager (current_scene_graph m) (raw_msg m) [] 0 empty_dict false
            (stable_frame_threshold m) (max_history_size m)
            (parse_success_count m) (parse_error_count m).

(** The dictionary of [get_scene_graph_stats]. *)
Record Stats : Type := mkStats {
  current_node_count : nat;
  current_edge_count : nat;
  is_waiting_for_update : bool;
  stats_stable_frame_count : nat;
  required_stable_frames : nat;
  history_size : nat;
  stats_parse_success_count : nat;
  stats_parse_error_count : nat
}.

Definition get_scene_graph_stats (m : SceneGraphManager) : Stats :=
  mkStats (List.length (get_nodes (current_scene_graph m)))
          (List.length (get_edges (current_scene_graph m)))
          (waiting_for_update m) (stable_frame_count m)
          (stable_frame_threshold m) (List.length (scene_graph_history m))
          (parse_success_count m) (parse_error_count m).

Definition not_available : string :=
  "Scene graph is not available yet. Please wait for the update.".

(** [get_latest_scene_graph], over the rendering of [json.dumps]. *)
Definition get_latest_scene_graph (json_dumps : SceneGraph -> string)
  (m : SceneGraphManager) : string :=
  if negb (truthy (current_scene_graph m)) then not_available
  else "Current scene graph: " ++ json_dumps (current_scene_graph m).

(** The calls that change the store. *)
Inductive StoreCall : Type :=
| CallUpdate (raw_data : RawData) (msg : option string)
| CallStartWaiting (reference_scene_graph : SceneGraph)
| CallStopWaiting
| CallResetTracking.

Definition call (m : SceneGraphManager) (c : StoreCall) : SceneGraphManager :=
  match c with
  | CallUpdate raw_data msg => update_scene_graph m raw_data msg
  | CallStartWaiting reference => start_waiting_for_update m reference
  | CallStopWaiting => stop_waiting_for_update m
  | CallResetTracking => reset_stability_tracking m
  end.

Definition run_calls (m : SceneGraphManager) (cs : list StoreCall) : SceneGraphManager :=
  fold_left call cs m.

(** The snapshot an update stores: the parsed data when it is a non-empty
    dictionary. *)
Definition accepted_snapshot (raw_data : RawData) : option SceneGraph :=
  match raw_data with
  | RawDict g => if truthy g then Some g else None
  | RawStr (Some g) => if truthy g then Some g else None
  | _ => None
  end.

(** An input of a type [update_scene_graph] handles that stores nothing. *)
Definition counted_as_error (raw_data : RawData) : bool :=
  match raw_data, accepted_snapshot raw_data with
  | RawOther, _ => false
  | _, Some _ => false
  | _, None => true
  end.

Definition is_accepted (raw_data : RawData) : bool :=
  match accepted_snapshot raw_data with Some _ => true | None => false end.

Definition updates_of (cs : list StoreCall) : list RawData :=
  flat_map (fun c => match c with CallUpdate raw _ => [raw] | _ => [] end) cs.

(** The snapshots the updates of a list of calls store, in order. *)
Definition accepted_snapshots (cs : list StoreCall) : list SceneGraph :=
  flat_map (fun raw => match accepted_snapshot raw with
                       | Some g => [g]
                       | None => []
                       end) (updates_of cs).

(** [n] messages in a row that carry the same dictionary. *)
Definition same_frames (g : SceneGraph) (n : nat) : list StoreCall :=
  repeat (CallUpdate (RawDict g) None) n.

(** What [json.loads] makes of the text of a message. *)
Inductive Decoded : Type :=
| NotJson
| JsonNoDict
| JsonDict (g : SceneGraph).

(** [ROSManager._ros2_callback] with [update_scene_graph] as the callback
    it was built with: [text] is [msg.data], [decode] is [json.loads]. *)
Definition _ros2_callback (decode : string -> Decoded) (m : SceneGraphManager)
  (text : string) : SceneGraphManager :=
  if String.eqb text "" || String.eqb (strip text) "" then m
  else
    match decode text with
    | NotJson => m
    | JsonNoDict => m
    | JsonDict g =>
        match nodes g, edges g with
        | Some _, Some _ => update_scene_graph m (RawDict g) (Some text)
        | _, _ => m
        end
    end.

Definition run_messages (decode : string -> Decoded) (m : SceneGraphManager)
  (texts : list string) : SceneGraphManager :=
  fold_left (_ros2_callback decode) texts m.

(** The invariant of the stability tracking. *)
Record tracking_ok (m : SceneGraphManager) : Prop := mkTrackingOk {
  ok_idle : waiting_for_update m = false ->
            scene_graph_history m = [] /\ stable_frame_count m = 0;
  ok_frames : Forall (eq (current_scene_graph m)) (scene_graph_history m);
  ok_empty : scene_graph_history m = [] <-> stable_frame_count m = 0;
  ok_length : List.length (scene_graph_history m) <= stable_frame_count m;
  ok_bound : List.length (scene_graph_history m) <= Nat.max 1 (max_history_size m);
  ok_threshold : stable_frame_threshold m = STABILITY_stable_frame_threshold;
  ok_size : max_history_size m = STABILITY_max_history_size
}.

(** The routine steps of a proof that the invariant holds. *)
Ltac ok_simple :=
  cbn -[Nat.max]; auto; try lia; try (intros; congruence);
  try (split; intros; first [discriminate | lia | reflexivity]).

End SceneOps.

(* ================================================================= *)
(** ** Names and edges as the statements speak of them *)

Module Names.
Import PyStr Scene Validator.

Fixpoint all_chars (p : ascii -> bool) (s : string) : bool :=
  match s with
  | EmptyString => true
  | String c s' => p c && all_chars p s'
  end.

(** A name as the name group of the parser reads one: not empty, made of
    letters, digits, the underscore and the slash. *)
Definition is_name (s : string) : bool :=
  negb (String.eqb s "") && all_chars ident_char s.

(** A character a lower-cased text can hold. *)
Definition not_upper (c : ascii) : bool := negb (is_upper c).

End Names.

(* ================================================================= *)
(** ** The completion checks of the tool
    ([tools/action_validation_execution_tool.py]) *)

Module Completion.
Import PyStr Scene Validator.

(** The value of the key [type] of a target state. *)
Inductive ActionKind : Type :=
| move_to_table
| move_into_container
| move_on_surface.

(** The dictionary returned by [_parse_action_target_state]: the one for
    a command that does not parse, the one of the exception handler, or
    the description of a move. *)
Inductive TargetState : Type :=
| TargetUnknown
| TargetError (e : string)
| TargetMove (type : ActionKind)
             (source_object target_location relation expected_edge : string).

(** [_parse_action_target_state].  The dictionary of an open or close
    command has no key [source_object]: the [KeyError] is caught. *)
Definition _parse_action_target_state (action_command : string) : TargetState :=
  match _parse_flexible_action_command action_command with
  | None => TargetUnknown
  | Some (OpenClose _ _) => TargetError "'source_object'"
  | Some (Move source_object action_relation target_location) =>
      if String.eqb target_location "table" then
        TargetMove move_to_table source_object target_location action_relation
          (source_object ++ "(" ++ action_relation ++ ")" ++ target_location)
      else if String.eqb action_relation "in" || String.eqb action_relation "into" then
        TargetMove move_into_container source_object target_location "in"
          (source_object ++ "(in)" ++ target_location)
      else
        TargetMove move_on_surface source_object target_location "on"
          (source_object ++ "(on)" ++ target_location)
  end.

(** [_analyze_action_completion_by_type]: the relations listed in the
    text it returns. *)
Definition _analyze_action_completion_by_type (action_type : ActionKind)
  (source_object target_location relation : string)
  (initial_edges current_edges : list string) : list string :=
  match action_type with
  | move_to_table =>
      filter (contains (source_object ++ "(on)table")) current_edges
  | move_into_container =>
      filter (contains (source_object ++ "(in)" ++ target_location)) current_edges
  | move_on_surface =>
      filter (contains (source_object ++ "(on)" ++ target_location)) current_edges
  end.

(** The text returned with the verdict, as the values it interpolates. *)
Inductive CompletionReport : Type :=
| TargetIncomplete
| Established (action_type : ActionKind) (expected_edge : string)
              (completion_details : list string)
| NotEstablished (action_type : ActionKind) (expected_edge : string)
                 (completion_details : list string).

(** [_check_action_completion] *)
Definition _check_action_completion (target_state : TargetState)
  (current_scene_graph initial_scene_graph : SceneGraph)
  : bool * CompletionReport :=
  match target_state with
  | TargetMove action_type source_object target_location relation expected_edge =>
      if String.eqb expected_edge "" || String.eqb source_object ""
      then (false, TargetIncomplete)
      else
        let current_edges := get_edges current_scene_graph in
        let initial_edges := get_edges initial_scene_graph in
        let new_relation_found := mem expected_edge current_edges in
        let completion_details :=
          _analyze_action_completion_by_type action_type source_object
            target_location relation initial_edges current_edges in
        if new_relation_found
        then (true, Established action_type expected_edge completion_details)
        else (false, NotEstablished action_type expected_edge completion_details)
  | _ => (false, TargetIncomplete)
  end.

(** [_check_source_object_removed_from_initial_position] *)
Definition _check_source_object_removed_from_initial_position
  (source_object : string) (initial_edges current_edges : list string) : bool :=
  let initial_relations :=
    filter (fun edge =>
              contains source_object edge &&
              (contains (source_object ++ "(on)") edge
               || contains (source_object ++ "(in)") edge)) initial_edges in
  if existsb (fun initial_relation => mem initial_relation current_edges)
             initial_relations
  then false
  else 0 <? List.length initial_relations.

End Completion.

(* ================================================================= *)
(** ** Vocabulary for the calls of the tool *)

Module Calls.
Import PyStr Scene Validator Tool Samples.

(** The command of the round is rejected by the validator: the failure
    counter is below its limit and the command is not empty. *)
Definition fails_validation (w : World) (query : string) : Prop :=
  consecutive_failures (tool w) < max_consecutive_failures /\
  strip query <> "" /\
  is_valid (_validate_action_command query (validation_snapshot w)) = false.

(** The completion signal is among the events the wait loop handles
    within [fuel] rounds, and no event before it makes the pump fail. *)
Fixpoint signal_within (has_agent : bool) (fuel : nat) (events : list BusEvent) : bool :=
  match fuel, events with
  | S _, EvTrigger true :: _ => true
  | S k, ev :: rest => quiet_event has_agent ev && signal_within has_agent k rest
  | _, _ => false
  end.

(** The wait loop pumps the bus (through the agent or a node of the tool)
    and the signal arrives before [max_wait_time] has elapsed. *)
Definition completion_signal_arrives (w : World) : Prop :=
  agent (tool w) || _ros_node (tool w) = true /\
  signal_within (agent (tool w)) (poll_budget w) (bus w) = true.

(** What a validated command sends out when the publisher works. *)
Definition publications_of (w : World) (query : string) : list Publication :=
  PubInstruction (_extract_core_action query)
  :: match (if validation_count (tool w) + 1 =? 1
            then raw_msg (manager w) else init_raw_data (tool w)) with
     | Some json_str => [PubSceneInit json_str]
     | None => []
     end.

(** The world in which [execute] enters [_execute_action]: the call is
    counted, the snapshot of a first call is taken, the success is counted
    and the failure counter reset. *)
Definition validated_world (w : World) : World :=
  let t := tool w in
  let vc := validation_count t + 1 in
  let t' := set_counters t vc (success_count t) (consecutive_failures t) in
  let t1 := if vc =? 1
            then let '(raw, g) := get_current_raw_msg (manager w) in
                 set_init_data t' raw g
            else t' in
  set_tool (set_tool w t1) (set_counters t1 vc (success_count t1 + 1) 0).

(** The world after the head of [execute]: the call is counted and the
    snapshot of a first call is taken. *)
Definition counted_world (w : World) : World :=
  let t := tool w in
  let vc := validation_count t + 1 in
  let t' := set_counters t vc (success_count t) (consecutive_failures t) in
  set_tool w (if vc =? 1
              then let '(raw, g) := get_current_raw_msg (manager w) in
                   set_init_data t' raw g
              else t').

(** The world in which a rejected command is answered: the failure is
    counted, the refresh is still to come. *)
Definition failed_world (w : World) : World :=
  let w1 := counted_world w in
  set_tool w1 (set_counters (tool w1) (validation_count (tool w) + 1)
                 (success_count (tool w1)) (consecutive_failures (tool w1) + 1)).

(** The world in which the wait loop starts: the command and the initial
    scene graph are published and the trigger flag is cleared. *)
Definition waiting_world (w : World) (query : string) : World :=
  let w_pub := _publish_init_raw_msg (_publish_action_cmd (validated_world w) query) in
  set_tool w_pub (set_trigger (tool w_pub) false).

(** What polling the bus can change: the trigger flag of the tool, the
    store and the bus. *)
Definition polled (w w' : World) : Prop :=
  (tool w' = tool w \/ tool w' = set_trigger (tool w) true) /\
  publisher w' = publisher w /\ published w' = published w /\
  poll_budget w' = poll_budget w.

(** The completion signal arrives in the second polling round. *)
Definition responsive_world : World :=
  mkWorld (update_scene_graph Scene.init (RawDict mug_on_box_scene) (Some "scene"))
          (Tool.init true false true)
          [EvScene (RawDict cube_in_box_scene) "moved"; EvTrigger true] 3
          (Some (Returned tt)) [].

End Calls.

(* ================================================================= *)
(** ** The routing after the planning node ([core/agent_reflect.py]) *)

Module Routing.
Import PyStr Scene Validator Tool Agent Samples.

Definition names_vae (tool_call : ToolCall) : bool :=
  String.eqb (tc_name tool_call) tool_name_vae.

(** [_should_continue]; the state holds at least one message. *)
Definition _should_continue (messages : list Message) : Route :=
  if existsb names_vae (tool_calls_of (last messages (HumanMessage "")))
  then route_continue else route_end.

(** The two answers of [_should_execute_action]. *)
Inductive ActionRoute : Type := route_execute | route_no_action.

(** [_should_execute_action]; the state holds at least one message. *)
Definition _should_execute_action (messages : list Message) : ActionRoute :=
  if existsb names_vae (tool_calls_of (last messages (HumanMessage "")))
  then route_execute else route_no_action.

(** The edges that leave the planning node. *)
Definition after_agent (r : ActionRoute) : GraphNode :=
  match r with
  | route_execute => node_validate_execute
  | route_no_action => node_END
  end.

(** The node visited once for each command of a list, each handed over
    by a message that asks for the tool. *)
Definition rounds (json_dumps : SceneGraph -> string) (st : AgentState)
  (queries : list string) : AgentState :=
  fold_left (fun st q => snd (_call_validate_execute json_dumps st (call_messages q)))
            queries st.

(** The command is neither the last one nor the one before it. *)
Definition new_command (st : AgentState) (query : string) : Prop :=
  same_args query (last_call_message st) = false /\
  same_args query (last_last_call_message st) = false.

(** Where the streak of a repeated command stands: [0] when the command
    is new to the window, [k + 1] after it has passed [k + 1] times. *)
Definition streak_phase (query : string) (k : nat) (st : AgentState) : Prop :=
  match k with
  | O => new_command st query
  | S r => same_tool_count st = r /\ last_call_message st = Some query /\
           same_args query (last_last_call_message st) = false
  end.

(** The text of a tool message ends the graph on its own: it reads as
    the feedback of a rejected command. *)
Definition reads_as_invalid (content : string) : bool :=
  startswith "The action '" content && contains "is invalid, reason:" content.

End Routing.

(* ================================================================= *)
(** ** The task messages ([utils/ros_manager.py]) *)

Module Ros.
Import PyStr Scene Validator Tool Names.

(** [ROSManager._extract_task_content]: the text after [task:], matched
    without regard to case from the start of the stripped message; the
    text has to be non-empty and on one line. *)
Definition _extract_task_content (task_data : string) : string :=
  match eat_lit_ci "task" (strip task_data) with
  | None => ""
  | Some s1 =>
      match eat_lit ":" (eat_ws0 s1) with
      | None => ""
      | Some s2 =>
          let content := eat_ws0 s2 in
          if String.eqb content "" || has_newline content then ""
          else strip content
      end
  end.

(** A text as a task message carries it after the colon: not empty,
    without white space at its ends, on one line. *)
Definition one_line_text (s : string) : Prop :=
  s <> "" /\ strip s = s /\ has_newline s = false.

(** A task message: the word, white space, the colon, white space, the
    content. *)
Definition task_message (word gap1 gap2 content : string) : string :=
  word ++ gap1 ++ ":" ++ gap2 ++ content.

End Ros.

(* ================================================================= *)
(** ** State tags of the nodes *)

Module StateTags.
Import PyStr Scene Validator.

(** The tag a node carries for a state. *)
Definition state_tag (st : ObjState) : string :=
  match st with
  | StOpen => "(open)"
  | StClosed => "(closed)"
  end.

(** A node the search of [_validate_open_close_action] passes over when
    it looks for the object. *)
Definition passed_over (object_name : string) (n : node) : bool :=
  negb (String.eqb (str_of_node n) object_name)
  && negb (startswith (object_name ++ "(") (str_of_node n)).

(** A lid box listed after other nodes, with its tag. *)
Definition tagged_box_scene (st : ObjState) : SceneGraph :=
  mkSceneGraph None
    (Some [NStr "table"; NStr "blue_box"; NStr ("lid_box" ++ state_tag st)])
    (Some ["blue_box(on)table"; "lid_box(on)table"]).

End StateTags.

(* ================================================================= *)
(** ** Further sample values *)

Module MoreSamples.
Import PyStr Scene Validator Tool Agent Samples SceneOps Names Completion Calls
       Routing Ros.

(** A wait with [cube_in_box_scene] as its reference that receives
    [mug_on_box_scene] five times. *)
Definition stable_wait : list StoreCall :=
  CallStartWaiting cube_in_box_scene :: same_frames mug_on_box_scene 5.

Definition cube_to_box : string := "move red_cube4 in red_box".
Definition cube_to_table : string := "move red_cube1 on table".
Definition prefixed_cube_to_table : string := "action type 1: move red_cube1 on table".

(** The planner asks for another tool first and for the action second. *)
Definition two_call_messages : list Message :=
  [HumanMessage "task";
   AIMessage "" [mkToolCall "GetSceneGraph" "" "call_0";
                 mkToolCall tool_name_vae open_lid "call_1"]].

End MoreSamples.

(* ================================================================= *)
(** * Properties *)

(** ** Facts about the string operations *)

Module PyStrFacts.
Import PyStr.

Lemma prefix_app (p s : string) : prefix p (p ++ s) = true.
Proof.
  induction p as [|c p IH]; simpl.
  - destruct s; reflexivity.
  - destruct (ascii_dec c c) as [_|n]; [exact IH | contradiction].
Qed.

Lemma contains_prefix (needle s : string) :
  prefix needle s = true -> contains needle s = true.
Proof.
  intros H. destruct s; cbn [contains]; rewrite H; reflexivity.
Qed.

Lemma contains_app_r (needle a s : string) :
  contains needle s = true -> contains needle (a ++ s) = true.
Proof.
  intros H. induction a as [|c a IH]; simpl.
  - exact H.
  - cbn [contains] in *. rewrite IH. apply orb_true_r.
Qed.

Lemma contains_infix (needle a b : string) :
  contains needle (a ++ needle ++ b) = true.
Proof.
  apply contains_app_r, contains_prefix, prefix_app.
Qed.

Lemma prefix_app_l (p s b : string) : prefix p s = true -> prefix p (s ++ b) = true.
Proof.
  revert s. induction p as [|c p IH]; intros s H.
  - destruct (s ++ b); reflexivity.
  - destruct s as [|d s]; [discriminate|]. cbn in H |- *.
    destruct (ascii_dec c d); [apply IH; exact H | discriminate].
Qed.

Lemma contains_app_l (needle s b : string) :
  contains needle s = true -> contains needle (s ++ b) = true.
Proof.
  induction s as [|c s IH]; intros H.
  - cbn [contains] in H. rewrite orb_false_r in H.
    apply contains_prefix. apply (prefix_app_l needle "" b). exact H.
  - cbn [contains] in H. apply orb_true_iff in H.
    change (String c s ++ b) with (String c (s ++ b)). cbn [contains].
    apply orb_true_iff. destruct H as [H|H].
    + left. apply (prefix_app_l needle (String c s) b). exact H.
    + right. apply IH. exact H.
Qed.

Lemma append_assoc (a b c : string) : (a ++ b) ++ c = a ++ b ++ c.
Proof. induction a as [|x a IH]; cbn; [reflexivity | rewrite IH; reflexivity]. Qed.

Lemma mem_In (x : string) (l : list string) : mem x l = true <-> In x l.
Proof.
  unfold mem. rewrite existsb_exists. split.
  - intros (y & Hy & E). apply String.eqb_eq in E. subst. exact Hy.
  - intros H. exists x. split; [exact H | apply String.eqb_refl].
Qed.

Example split_one :
  split "(on)" "blue_cube(on)red_box" = ["blue_cube"; "red_box"].
Proof. reflexivity. Qed.

Example split_two : split "(in)" "a(in)b(in)c" = ["a"; "b"; "c"].
Proof. reflexivity. Qed.

Example split_none : split "=" "abc" = ["abc"].
Proof. reflexivity. Qed.

Example strip_ex : strip "  move a  on b   " = "move a  on b".
Proof. reflexivity. Qed.

Example replace_ex : replace "(open)" "" "lid_box(open)" = "lid_box".
Proof. reflexivity. Qed.

Example str_of_Z_ex : str_of_Z 0 = "0" /\ str_of_Z 13 = "13".
Proof. split; reflexivity. Qed.

End PyStrFacts.

(** ** The scene-graph store *)

Module SceneFacts.
Import Scene.

Lemma last_app_singleton {A} (l : list A) (x : A) : rev (l ++ [x]) = x :: rev l.
Proof. apply rev_unit. Qed.

(** After a snapshot has been ingested while waiting, the history ends
    with it. *)
Lemma check_stability_history (m : SceneGraphManager) (g : SceneGraph) :
  exists older, rev (scene_graph_history (_check_stability m g)) = g :: older.
Proof.
  unfold _check_stability.
  destruct (rev (scene_graph_history m)) as [|last_frame older] eqn:E.
  - exists []. reflexivity.
  - destruct (SceneGraph_eq_dec last_frame g) as [->|Hne].
    + simpl. destruct (List.length (scene_graph_history m) <? max_history_size m).
      * exists (rev (scene_graph_history m)). apply rev_unit.
      * exists older. exact E.
    + exists []. reflexivity.
Qed.

Lemma check_stability_count (m : SceneGraphManager) (g prev : SceneGraph)
  (older : list SceneGraph) :
  rev (scene_graph_history m) = prev :: older ->
  stable_frame_count (_check_stability m g) =
    if SceneGraph_eq_dec prev g then stable_frame_count m + 1 else 1.
Proof.
  intros E. unfold _check_stability. rewrite E.
  destruct (SceneGraph_eq_dec prev g); reflexivity.
Qed.

Lemma check_stability_fields (m : SceneGraphManager) (g : SceneGraph) :
  waiting_for_update (_check_stability m g) = waiting_for_update m /\
  stable_frame_threshold (_check_stability m g) = stable_frame_threshold m.
Proof.
  unfold _check_stability. destruct (rev (scene_graph_history m)) as [|f older].
  - split; reflexivity.
  - destruct (SceneGraph_eq_dec f g); split; reflexivity.
Qed.

Lemma update_while_waiting (m : SceneGraphManager) (g : SceneGraph) (msg : option string) :
  waiting_for_update m = true -> truthy g = true ->
  update_scene_graph m (RawDict g) msg = _check_stability (stored m g msg) g.
Proof.
  intros Hw Ht. unfold update_scene_graph. rewrite Ht.
  cbn [waiting_for_update stored]. rewrite Hw. reflexivity.
Qed.

Lemma update_waiting (m : SceneGraphManager) (g : SceneGraph) (msg : option string) :
  waiting_for_update m = true -> truthy g = true ->
  let m' := update_scene_graph m (RawDict g) msg in
  waiting_for_update m' = true /\
  stable_frame_threshold m' = stable_frame_threshold m /\
  (exists older, rev (scene_graph_history m') = g :: older) /\
  (forall prev older, rev (scene_graph_history m) = prev :: older ->
     stable_frame_count m' =
       if SceneGraph_eq_dec prev g then stable_frame_count m + 1 else 1) /\
  (scene_graph_history m = [] -> stable_frame_count m' = 1).
Proof.
  intros Hw Ht m'. subst m'. rewrite (update_while_waiting m g msg Hw Ht).
  destruct (check_stability_fields (stored m g msg) g) as [Ew Et].
  repeat split.
  - rewrite Ew. exact Hw.
  - rewrite Et. reflexivity.
  - apply check_stability_history.
  - intros prev older E.
    apply (check_stability_count (stored m g msg) g prev older). exact E.
  - intros E. unfold _check_stability. cbn [scene_graph_history stored].
    rewrite E. reflexivity.
Qed.

(** C9. While the store is waiting for an update, a snapshot equal to the
    one received just before it adds one to the stable-frame counter, a
    different one sets the counter to 1 (as does the first snapshot of the
    wait), and [check_update_status] reports the graph as stable exactly
    when the counter has reached the threshold, which is 5 in the
    configuration. *)
Theorem stability_counter_tracks_identical_frames
  (m : SceneGraphManager) (g1 g2 : SceneGraph) (msg1 msg2 : option string) :
  waiting_for_update m = true -> truthy g1 = true -> truthy g2 = true ->
  let m1 := update_scene_graph m (RawDict g1) msg1 in
  let m2 := update_scene_graph m1 (RawDict g2) msg2 in
  (g2 = g1 -> stable_frame_count m2 = stable_frame_count m1 + 1) /\
  (g2 <> g1 -> stable_frame_count m2 = 1) /\
  (scene_graph_history m = [] -> stable_frame_count m1 = 1) /\
  (is_stable (check_update_status m2) = true <->
     stable_frame_threshold m2 <= stable_frame_count m2) /\
  is_waiting (check_update_status m2) = true /\
  stable_frame_threshold init = 5.
Proof.
  intros Hw H1 H2 m1 m2.
  destruct (update_waiting m g1 msg1 Hw H1) as (Hw1 & _ & (older & Hh1) & _ & Hfirst).
  fold m1 in Hw1, Hh1, Hfirst.
  destruct (update_waiting m1 g2 msg2 Hw1 H2) as (Hw2 & _ & _ & Hc & _).
  fold m2 in Hw2, Hc.
  specialize (Hc g1 older Hh1).
  repeat split.
  - intros ->. rewrite Hc. destruct (SceneGraph_eq_dec g1 g1); [reflexivity|contradiction].
  - intros Hne. rewrite Hc.
    destruct (SceneGraph_eq_dec g1 g2) as [E|_]; [symmetry in E; contradiction|reflexivity].
  - exact Hfirst.
  - unfold check_update_status. rewrite Hw2. simpl.
    destruct (stable_frame_threshold m2 <=? stable_frame_count m2) eqn:E.
    + intros _. apply Nat.leb_le. exact E.
    + simpl. discriminate.
  - unfold check_update_status. rewrite Hw2. simpl.
    destruct (stable_frame_threshold m2 <=? stable_frame_count m2) eqn:E.
    + intros _. destruct (scene_graph_history m2); reflexivity.
    + intros H. apply Nat.leb_le in H. congruence.
  - unfold check_update_status. rewrite Hw2. simpl.
    destruct (stable_frame_threshold m2 <=? stable_frame_count m2);
      destruct (scene_graph_history m2); reflexivity.
Qed.

End SceneFacts.

Module SceneWitness.
Import Scene Samples SceneFacts.

Lemma stability_counter_tracks_identical_frames_witness :
  (cube_in_box_scene = cube_in_box_scene ->
     stable_frame_count
       (update_scene_graph
          (update_scene_graph waiting_store (RawDict cube_in_box_scene) None)
          (RawDict cube_in_box_scene) None)
     = stable_frame_count
         (update_scene_graph waiting_store (RawDict cube_in_box_scene) None) + 1) /\
  (cube_in_box_scene <> cube_in_box_scene ->
     stable_frame_count
       (update_scene_graph
          (update_scene_graph waiting_store (RawDict cube_in_box_scene) None)
          (RawDict cube_in_box_scene) None) = 1) /\
  (scene_graph_history waiting_store = [] ->
     stable_frame_count
       (update_scene_graph waiting_store (RawDict cube_in_box_scene) None) = 1) /\
  (is_stable (check_update_status
                (update_scene_graph
                   (update_scene_graph waiting_store (RawDict cube_in_box_scene) None)
                   (RawDict cube_in_box_scene) None)) = true <->
   stable_frame_threshold
     (update_scene_graph
        (update_scene_graph waiting_store (RawDict cube_in_box_scene) None)
        (RawDict cube_in_box_scene) None)
   <= stable_frame_count
        (update_scene_graph
           (update_scene_graph waiting_store (RawDict cube_in_box_scene) None)
           (RawDict cube_in_box_scene) None)) /\
  is_waiting (check_update_status
                (update_scene_graph
                   (update_scene_graph waiting_store (RawDict cube_in_box_scene) None)
                   (RawDict cube_in_box_scene) None)) = true /\
  stable_frame_threshold Scene.init = 5.
Proof.
  apply (stability_counter_tracks_identical_frames
           waiting_store cube_in_box_scene cube_in_box_scene None None);
    reflexivity.
Defined.

Example five_identical_frames_are_stable :
  is_stable (check_update_status
    (fold_left (fun m g => update_scene_graph m (RawDict g) None)
               (repeat cube_in_box_scene 5) waiting_store)) = true /\
  is_stable (check_update_status
    (fold_left (fun m g => update_scene_graph m (RawDict g) None)
               (repeat cube_in_box_scene 4) waiting_store)) = false /\
  stable_frame_count
    (fold_left (fun m g => update_scene_graph m (RawDict g) None)
               [cube_in_box_scene; cube_in_box_scene; lid_box_scene] waiting_store) = 1.
Proof. repeat split; vm_compute; reflexivity. Qed.

End SceneWitness.

(** ** The validator *)

Module ValidatorFacts.
Import PyStr Scene Validator Samples PyStrFacts.

(** C1. With three cubes already in [red_box], the move of a fourth cube
    into it is accepted: the capacity test of [_can_place_cube_in_box]
    compares the count with 10, and reports room for 3 of 3. *)
Theorem fourth_cube_is_accepted :
  List.length (filter _is_cube
    (objects_in "red_box" (get_edges three_cubes_scene))) = 3 /\
  _can_place_cube_in_box "red_cube4" "red_box" (analysis_of (Some three_cubes_scene))
    = (true, MCubeCanMove "red_cube4" "red_box" 3) /\
  _validate_action_command "move red_cube4 in red_box" (Some three_cubes_scene)
    = mkResult true None (move_details 4).
Proof. repeat split; vm_compute; reflexivity. Qed.

(** C3 at a scene where the middle drawer carries no state tag: the move
    into the open low drawer is accepted although the middle drawer is not
    closed. *)
Theorem low_drawer_accepted_with_untagged_middle :
  _get_object_state drawer_low (analysis_of (Some untagged_drawer_scene)) = Some StOpen /\
  _get_object_state drawer_middle (analysis_of (Some untagged_drawer_scene)) = None /\
  is_valid (_validate_action_command "move red_mug in short_cabinet/drawer_low"
              (Some untagged_drawer_scene)) = true.
Proof. repeat split; vm_compute; reflexivity. Qed.

Example parse_examples :
  _parse_flexible_action_command "move red_cube4 in red_box"
    = Some (Move "red_cube4" "in" "red_box") /\
  _parse_flexible_action_command "Action Type 3:   Put a/b_1  into  table!!"
    = Some (Move "a/b_1" "in" "table") /\
  _parse_flexible_action_command "move a upon b" = Some (Move "a" "on" "b") /\
  _parse_flexible_action_command "open short_cabinet/drawer_low"
    = Some (OpenClose "open" "short_cabinet/drawer_low") /\
  _parse_flexible_action_command "move a inx b" = None.
Proof. repeat split; reflexivity. Qed.

Lemma check_drawer_constraints_sound (d : string) (a : SceneAnalysis) :
  fst (_check_drawer_constraints d a) = true -> drawer_rule_holds d a.
Proof.
  unfold _check_drawer_constraints, drawer_rule_holds, drawer_low, drawer_middle, drawer_high.
  destruct (is_open (_get_object_state d a)) eqn:Eo; cbn [negb fst]; [|discriminate].
  destruct (String.eqb d "short_cabinet/drawer_low") eqn:El.
  - apply String.eqb_eq in El. subst d.
    destruct (is_open (_get_object_state "short_cabinet/drawer_middle" a)); [discriminate|].
    destruct (is_open (_get_object_state "short_cabinet/drawer_high" a)); [discriminate|].
    intros _. repeat split; try reflexivity; intros; try discriminate; try congruence.
  - apply String.eqb_neq in El.
    destruct (String.eqb d "short_cabinet/drawer_middle") eqn:Em.
    + apply String.eqb_eq in Em. subst d.
      destruct (is_open (_get_object_state "short_cabinet/drawer_high" a)); [discriminate|].
      intros _. repeat split; try reflexivity; intros; try discriminate; try congruence.
    + apply String.eqb_neq in Em.
      intros _. repeat split; try reflexivity; intros; try discriminate; try congruence.
Qed.

(** An accepted move passed the movability check and, when the target is
    not the table, the accessibility check. *)
Lemma accepted_move_checks (s r t : string) (data : option SceneGraph) :
  is_valid (validate_move s r t data) = true ->
  fst (_can_move_object s (analysis_of data)) = true /\
  (String.eqb t "table" = false ->
   fst (_can_access_target t (analysis_of data)) = true).
Proof.
  unfold validate_move, analysis_of.
  set (a := set_scene_graph_data (_analyze_scene_graph data) data).
  intros H.
  repeat match type of H with
  | context [if ?c then _ else _] => destruct c eqn:?; cbn [is_valid invalid] in H
  end; try discriminate.
  all: repeat match goal with
       | E : negb _ = false |- _ => apply negb_false_iff in E
       | E : negb _ = true |- _ => apply negb_true_iff in E
       end.
  all: split; [assumption | intros; congruence].
Qed.

Lemma access_target_drawer (t : string) (a : SceneAnalysis) :
  contains "drawer" t = true ->
  fst (_can_access_target t a) = true ->
  fst (_check_drawer_constraints t a) = true.
Proof.
  intros Hd. unfold _can_access_target. rewrite Hd, orb_true_r.
  destruct (flat_map _ (an_edges a)); [|discriminate].
  destruct (is_closed (_get_object_state t a)); [discriminate|].
  destruct (fst (_check_drawer_constraints t a)); [reflexivity|discriminate].
Qed.

Lemma move_object_drawer (s c : string) (a : SceneAnalysis) :
  source_container s a = Some c -> c <> "" -> contains "drawer" c = true ->
  fst (_can_move_object s a) = true ->
  fst (_check_drawer_constraints c a) = true.
Proof.
  unfold source_container. intros Hc Hne Hd. unfold _can_move_object.
  destruct (find_map (above_if_on s) (an_edges a)); [discriminate|].
  rewrite Hc, Hd. apply String.eqb_neq in Hne. rewrite Hne.
  destruct (is_closed (_get_object_state c a)); [discriminate|].
  destruct (fst (_check_drawer_constraints c a)); [reflexivity|discriminate].
Qed.

(** The drawer rule the validator enforces on every accepted move, for
    the target and for the container the object is taken from. *)
Lemma accepted_move_respects_drawer_rule (s r t : string) (data : option SceneGraph) :
  is_valid (validate_move s r t data) = true ->
  (contains "drawer" t = true -> drawer_rule_holds t (analysis_of data)) /\
  (forall c, source_container s (analysis_of data) = Some c -> c <> "" ->
     contains "drawer" c = true -> drawer_rule_holds c (analysis_of data)).
Proof.
  intros H. destruct (accepted_move_checks s r t data H) as [Hm Ha]. split.
  - intros Hd. apply check_drawer_constraints_sound, access_target_drawer; [exact Hd|].
    apply Ha. destruct (String.eqb t "table") eqn:E; [|reflexivity].
    apply String.eqb_eq in E. subst t. discriminate Hd.
  - intros c Hc Hne Hd.
    apply check_drawer_constraints_sound, (move_object_drawer s c); assumption.
Qed.

Lemma validate_move_with_expected_edge (s r t : string) (g : SceneGraph) :
  mem (s ++ "(" ++ r ++ ")" ++ t) (get_edges g) = true ->
  is_valid (validate_move s r t (Some g)) = false /\
  (error_reason (validate_move s r t (Some g))
     = Some (EAlreadyCompleted (MAlready s r t)) \/
   exists e, error_reason (validate_move s r t (Some g)) = Some e /\
             earlier_check e = true).
Proof.
  intros Hm. unfold validate_move.
  set (a := set_scene_graph_data (_analyze_scene_graph (Some g)) (Some g)).
  assert (Ha : an_edges a = get_edges g) by reflexivity.
  assert (Hc : _check_action_already_completed s t r a = (true, MAlready s r t)).
  { unfold _check_action_already_completed. rewrite Ha, Hm. reflexivity. }
  rewrite Hc. cbn [fst snd].
  repeat match goal with
  | |- context [if ?c then _ else _] => destruct c
  end; cbn.
  all: try (split; [reflexivity | right; eexists; split; reflexivity]).
  all: try (split; [reflexivity | left; reflexivity]).
Qed.

(** The reason of a move the validator does not accept, when the
    idempotence check answers that the state is reached: the reason of the
    first check of the fixed order that rejects, and the already-completed
    reason when none does. *)
Lemma validate_move_first_rejection (s r t : string) (data : option SceneGraph)
  (m : msg) :
  _check_action_already_completed s t r (analysis_of data) = (true, m) ->
  validate_move s r t data
  = invalid (match first_some (checks_before_completion s t (analysis_of data)) with
             | Some rejection => rejection
             | None => EAlreadyCompleted m
             end)
            (validation_details (validate_move s r t data)).
Proof.
  intros Hc. unfold validate_move, checks_before_completion, analysis_of in *.
  set (a := set_scene_graph_data (_analyze_scene_graph data) data) in *.
  rewrite Hc. cbn [fst snd first_some fold_right].
  destruct (mem s (all_objects a)); cbn [negb rejects]; [|reflexivity].
  destruct (String.eqb t "table"); cbn [negb andb orb rejects].
  - destruct (_is_cube s); cbn [andb rejects].
    + destruct (fst (_validate_cube_source_accessibility s a));
        cbn [negb rejects]; [|reflexivity].
      destruct (fst (_can_move_object s a)); cbn [negb rejects]; [|reflexivity].
      destruct (String.eqb (table_status a) "F"); reflexivity.
    + destruct (fst (_can_move_object s a)); cbn [negb rejects]; [|reflexivity].
      destruct (String.eqb (table_status a) "F"); reflexivity.
  - destruct (mem t (all_objects a)); cbn [negb rejects]; [|reflexivity].
    destruct (_is_cube s); cbn [andb rejects].
    + destruct (fst (_validate_cube_source_accessibility s a));
        cbn [negb rejects]; [|reflexivity].
      destruct (fst (_can_move_object s a)); cbn [negb rejects]; [|reflexivity].
      destruct (_is_container s && _is_container t); cbn [rejects]; [reflexivity|].
      destruct (fst (_is_valid_target_location t)); cbn [negb rejects]; [|reflexivity].
      destruct (fst (_can_access_target t a)); cbn [negb rejects]; [|reflexivity].
      destruct (fst (_can_place_cube_in_box s t a)); reflexivity.
    + destruct (fst (_can_move_object s a)); cbn [negb rejects]; [|reflexivity].
      destruct (_is_container s && _is_container t); cbn [rejects]; [reflexivity|].
      destruct (fst (_is_valid_target_location t)); cbn [negb rejects]; [|reflexivity].
      destruct (fst (_can_access_target t a)); reflexivity.
Qed.

(** C4, amended.  A move command whose target relation edge is already in
    the edge list of the scene graph is never accepted.  Its reason is that
    of the first check of the fixed order (existence, cube source,
    movability, nesting, target type, accessibility, cube placement, table
    full) that rejects the command, and the already-completed reason, with
    the text of the edge, when none of them rejects. *)
Theorem existing_edge_is_never_accepted
  (command s r t : string) (g : SceneGraph) :
  _parse_flexible_action_command command = Some (Move s r t) ->
  mem (s ++ "(" ++ r ++ ")" ++ t) (get_edges g) = true ->
  is_valid (_validate_action_command command (Some g)) = false /\
  error_reason (_validate_action_command command (Some g))
  = Some (match first_some (checks_before_completion s t (analysis_of (Some g))) with
          | Some rejection => rejection
          | None => EAlreadyCompleted (MAlready s r t)
          end).
Proof.
  intros Hp Hm. unfold _validate_action_command. rewrite Hp.
  assert (Hc : _check_action_already_completed s t r (analysis_of (Some g))
               = (true, MAlready s r t)).
  { unfold _check_action_already_completed.
    change (an_edges (analysis_of (Some g))) with (get_edges g).
    rewrite Hm. reflexivity. }
  rewrite (validate_move_first_rejection s r t (Some g) _ Hc).
  split; reflexivity.
Qed.

(** The idempotence example: on the scene the first application has
    produced every check of the fixed order passes, and the second
    validation of the same move is answered as already completed. *)
Lemma existing_edge_is_never_accepted_witness :
  is_valid (_validate_action_command "move red_cube1 in red_box"
              (Some cube_in_box_scene)) = false /\
  error_reason (_validate_action_command "move red_cube1 in red_box"
                  (Some cube_in_box_scene))
  = Some (EAlreadyCompleted (MAlready "red_cube1" "in" "red_box")).
Proof.
  destruct (existing_edge_is_never_accepted
              "move red_cube1 in red_box" "red_cube1" "in" "red_box"
              cube_in_box_scene eq_refl eq_refl) as [Hv Hr].
  split; [exact Hv|]. rewrite Hr. vm_compute. reflexivity.
Defined.

(** C4 as stated fails for an [(on)] edge: the edge itself blocks the
    target, and the accessibility check answers before the idempotence
    check is reached. *)
Lemma existing_on_edge_reports_blocked_target :
  mem "red_mug(on)blue_box" (get_edges mug_on_box_scene) = true /\
  _parse_flexible_action_command "move red_mug on blue_box"
    = Some (Move "red_mug" "on" "blue_box") /\
  error_reason (_validate_action_command "move red_mug on blue_box"
                  (Some mug_on_box_scene))
    = Some (ECannotPlaceOn "blue_box" (MTargetBlocked "blue_box" ["red_mug"])) /\
  ~ (exists m, error_reason (_validate_action_command "move red_mug on blue_box"
                               (Some mug_on_box_scene))
               = Some (EAlreadyCompleted m)).
Proof.
  repeat split; try (vm_compute; reflexivity).
  intros [m Hm]. vm_compute in Hm. discriminate Hm.
Qed.

End ValidatorFacts.

(** ** The tool *)

Module ToolFacts.
Import PyStr Scene Validator Tool Samples PyStrFacts.

Lemma same_config_refl t : same_config t t.
Proof. repeat split. Qed.

Lemma same_config_trans t1 t2 t3 :
  same_config t1 t2 -> same_config t2 t3 -> same_config t1 t3.
Proof. unfold same_config. intuition congruence. Qed.

Lemma rclpy_spin_once_config w w' :
  rclpy_spin_once w = Returned w' ->
  same_config (tool w) (tool w') /\ poll_budget w' = poll_budget w /\ bus w' = tl (bus w).
Proof.
  unfold rclpy_spin_once. destruct (bus w) as [|ev rest] eqn:E.
  - intros H. inversion H; subst. rewrite E. repeat split.
  - destruct ev as [|d m|[|]|e]; intros H; inversion H; subst; cbn; repeat split.
Qed.

Lemma spin_once_config w :
  same_config (tool w) (tool (spin_once w)) /\
  poll_budget (spin_once w) = poll_budget w /\ bus (spin_once w) = tl (bus w).
Proof.
  unfold spin_once. destruct (rclpy_spin_once w) as [w'|e] eqn:E.
  - apply rclpy_spin_once_config. exact E.
  - cbn. repeat split.
Qed.

Lemma force_refresh_config n old w :
  same_config (tool w) (tool (force_refresh_from_ros n old w)) /\
  poll_budget (force_refresh_from_ros n old w) = poll_budget w.
Proof.
  revert w. induction n as [|n IH]; intros w; cbn [force_refresh_from_ros].
  - split; [apply same_config_refl | reflexivity].
  - destruct (spin_once_config w) as (Hc & Hp & _).
    destruct (old <? parse_success_count (manager (spin_once w))).
    + split; assumption.
    + destruct (IH (spin_once w)) as [Hc' Hp']. split.
      * eapply same_config_trans; eassumption.
      * congruence.
Qed.

Lemma refresh_and_snapshot_config w :
  same_config (tool w) (tool (snd (refresh_and_snapshot w))) /\
  fst (refresh_and_snapshot w) = current_scene_graph (manager (snd (refresh_and_snapshot w))) /\
  init_scene_graph_data (tool (snd (refresh_and_snapshot w))) = Some (fst (refresh_and_snapshot w)).
Proof.
  unfold refresh_and_snapshot, _smart_refresh_scene_graph, get_current_raw_msg.
  cbn [fst snd].
  set (w1 := if agent (tool w) then spin_once w else w).
  assert (H1 : same_config (tool w) (tool w1)).
  { subst w1. destruct (agent (tool w)); [apply spin_once_config | apply same_config_refl]. }
  set (w2 := if agent (tool w1) || store_agent (tool w1) then _ else w1).
  assert (H2 : same_config (tool w1) (tool w2)).
  { subst w2. destruct (agent (tool w1) || store_agent (tool w1));
      [apply force_refresh_config | apply same_config_refl]. }
  unfold set_init_data, set_tool. cbn.
  destruct H1 as (?&?&?&?&?); destruct H2 as (?&?&?&?&?).
  repeat split; cbn; try reflexivity; try congruence.
Qed.

Lemma forallb_firstn_S {A} (f : A -> bool) n l :
  forallb f (firstn (S n) l) = true ->
  forallb f (firstn n l) = true /\ forallb f (firstn n (tl l)) = true /\
  (forall x rest, l = x :: rest -> f x = true).
Proof.
  revert l. induction n as [|n IH]; intros l H.
  - repeat split. intros x rest ->. cbn in H. rewrite andb_true_r in H. exact H.
  - destruct l as [|x l].
    + repeat split. intros; discriminate.
    + change (firstn (S (S n)) (x :: l)) with (x :: firstn (S n) l) in H.
      cbn [forallb] in H. apply andb_true_iff in H. destruct H as [Hx Hl].
      destruct (IH l Hl) as (H1 & H2 & _).
      repeat split.
      * change (firstn (S n) (x :: l)) with (x :: firstn n l).
        cbn [forallb]. rewrite Hx, H1. reflexivity.
      * exact Hl.
      * intros y rest E. inversion E; subst. exact Hx.
Qed.

Lemma pump_quiet w :
  (forall ev rest, bus w = ev :: rest -> quiet_event (agent (tool w)) ev = true) ->
  trigger_received (tool w) = false ->
  exists w1, pump w = Returned w1 /\
    trigger_received (tool w1) = false /\ same_config (tool w) (tool w1) /\
    poll_budget w1 = poll_budget w /\ (bus w1 = bus w \/ bus w1 = tl (bus w)).
Proof.
  intros Hq Ht. unfold pump, spin_once, rclpy_spin_once.
  destruct (agent (tool w)) eqn:Ea; [|destruct (_ros_node (tool w)) eqn:Er].
  - destruct (bus w) as [|ev rest] eqn:Eb.
    + exists w. rewrite Eb. repeat split; auto.
    + specialize (Hq ev rest eq_refl).
      destruct ev as [|d m|[|]|e]; cbn in Hq; try discriminate;
        eexists; (split; [reflexivity|]); cbn; rewrite ?Eb; repeat split; auto.
  - destruct (bus w) as [|ev rest] eqn:Eb.
    + exists w. rewrite Eb. repeat split; auto.
    + specialize (Hq ev rest eq_refl).
      destruct ev as [|d m|[|]|e]; cbn in Hq; try discriminate;
        eexists; (split; [reflexivity|]); cbn; rewrite ?Eb; repeat split; auto.
  - exists w. repeat split; auto.
Qed.

Lemma wait_loop_timeout fuel initial query w :
  forallb (quiet_event (agent (tool w))) (firstn fuel (bus w)) = true ->
  trigger_received (tool w) = false ->
  fst (wait_loop fuel initial query w)
    = ExecutionTimeout (current_scene_graph (manager (snd (wait_loop fuel initial query w)))) /\
  same_config (tool w) (tool (snd (wait_loop fuel initial query w))).
Proof.
  revert w. induction fuel as [|fuel IH]; intros w Hq Ht.
  - cbn. split; [reflexivity | apply same_config_refl].
  - cbn [wait_loop].
    destruct (forallb_firstn_S _ _ _ Hq) as (Hq1 & Hq2 & Hhd).
    destruct (pump_quiet w Hhd Ht) as (w1 & Ep & Ht1 & Hc & Hb & Hbus).
    rewrite Ep, Ht1.
    assert (Ea : agent (tool w1) = agent (tool w)) by (destruct Hc as (?&?&?&?&?); assumption).
    assert (Hq' : forallb (quiet_event (agent (tool w1))) (firstn fuel (bus w1)) = true).
    { rewrite Ea. destruct Hbus as [-> | ->]; assumption. }
    destruct (IH w1 Hq' Ht1) as [Hr Hc']. split; [exact Hr|].
    eapply same_config_trans; eassumption.
Qed.

Lemma none_graph_is_rejected (query : string) :
  is_valid (_validate_action_command query None) = false /\
  exists e, error_reason (_validate_action_command query None) = Some e.
Proof.
  unfold _validate_action_command.
  destruct (_parse_flexible_action_command query) as [[verb target|s r t]|];
    cbn; split; try reflexivity; eexists; reflexivity.
Qed.

Lemma execute_snapshot (w : World) :
  init_scene_graph_data
    (let t' := set_counters (tool w) (validation_count (tool w) + 1)
                 (success_count (tool w)) (consecutive_failures (tool w)) in
     if validation_count (tool w) + 1 =? 1
     then let '(raw, g) := get_current_raw_msg (manager w) in set_init_data t' raw g
     else t')
  = validation_snapshot w.
Proof.
  unfold validation_snapshot. destruct (validation_count (tool w) + 1 =? 1); reflexivity.
Qed.

Lemma publish_fields (w : World) (m : Publication) :
  manager (publish w m) = manager w /\ tool (publish w m) = tool w /\
  bus (publish w m) = bus w /\ poll_budget (publish w m) = poll_budget w.
Proof. unfold publish. destruct (publisher w) as [[u|e]|]; repeat split. Qed.

(** Publishing touches neither the store, the tool, the bus nor the clock. *)
Lemma publish_steps_fields (w : World) (query : string) :
  manager (_publish_init_raw_msg (_publish_action_cmd w query)) = manager w /\
  tool (_publish_init_raw_msg (_publish_action_cmd w query)) = tool w /\
  bus (_publish_init_raw_msg (_publish_action_cmd w query)) = bus w /\
  poll_budget (_publish_init_raw_msg (_publish_action_cmd w query)) = poll_budget w.
Proof.
  unfold _publish_init_raw_msg, _publish_action_cmd.
  destruct (publish_fields w (PubInstruction (_extract_core_action query)))
    as (Hm & Ht & Hb & Hp).
  destruct (init_raw_data (tool (publish w _))) as [json_str|].
  - destruct (publish_fields (publish w (PubInstruction (_extract_core_action query)))
                (PubSceneInit json_str)) as (Hm' & Ht' & Hb' & Hp').
    repeat split; congruence.
  - repeat split; assumption.
Qed.

Lemma execute_returns_payload (w : World) (query : string) :
  exists p, fst (execute w query) = Returned p.
Proof.
  unfold execute.
  destruct (max_consecutive_failures <=? consecutive_failures (tool w)).
  { eexists. reflexivity. }
  destruct (String.eqb (strip query) "").
  { eexists. reflexivity. }
  rewrite execute_snapshot.
  destruct (is_valid (_validate_action_command query (validation_snapshot w))) eqn:Ev;
    cbn [negb].
  - destruct (validation_snapshot w) as [g|].
    + unfold _execute_action.
      destruct (wait_loop _ g query _) as [p w1]. eexists. reflexivity.
    + destruct (none_graph_is_rejected query) as [Hn _]. congruence.
  - destruct (refresh_and_snapshot _) as [g w3]. eexists. reflexivity.
Qed.


(** C10, amended.  For an empty or white-space command: while the failure
    counter is below the limit, [execute] returns the validation failure
    for a missing command and leaves the counter as it is; once the counter
    has reached the limit, the call returns the task failure and resets the
    counter to zero.  In no case does the counter grow. *)
Theorem empty_command_is_not_counted (w : World) (query : string) :
  strip query = "" ->
  (consecutive_failures (tool w) < max_consecutive_failures ->
     (exists g, fst (execute w query) = Returned (NoCommand g)) /\
     consecutive_failures (tool (snd (execute w query))) = consecutive_failures (tool w)) /\
  (max_consecutive_failures <= consecutive_failures (tool w) ->
     (exists g, fst (execute w query) = Returned (TaskFailed max_consecutive_failures g)) /\
     consecutive_failures (tool (snd (execute w query))) = 0) /\
  consecutive_failures (tool (snd (execute w query))) <= consecutive_failures (tool w).
Proof.
  intros Hq. unfold execute. rewrite Hq. cbn [String.eqb].
  destruct (max_consecutive_failures <=? consecutive_failures (tool w)) eqn:E;
    [apply Nat.leb_le in E | apply Nat.leb_gt in E];
    (split; [|split]); cbn [fst snd].
  - intros Hlt. lia.
  - intros _. split; [eexists; reflexivity | reflexivity].
  - cbn. lia.
  - intros _. split; [eexists; reflexivity|].
    cbn. destruct (validation_count (tool w) + 1 =? 1); reflexivity.
  - intros Hge. lia.
  - cbn. destruct (validation_count (tool w) + 1 =? 1); cbn; lia.
Qed.

Lemma pump_config w w1 : pump w = Returned w1 -> same_config (tool w) (tool w1).
Proof.
  unfold pump. destruct (agent (tool w)); [|destruct (_ros_node (tool w))].
  - intros H. injection H as <-. apply spin_once_config.
  - intros H. apply rclpy_spin_once_config in H. apply H.
  - intros H. injection H as <-. apply same_config_refl.
Qed.

Lemma wait_loop_config fuel initial query w :
  same_config (tool w) (tool (snd (wait_loop fuel initial query w))).
Proof.
  revert w. induction fuel as [|fuel IH]; intros w; cbn [wait_loop].
  - apply same_config_refl.
  - destruct (pump w) as [w1|e] eqn:Ep.
    + pose proof (pump_config w w1 Ep) as Hc.
      destruct (trigger_received (tool w1)).
      * pose proof (refresh_and_snapshot_config w1) as (Hr & _).
        destruct (refresh_and_snapshot w1) as [final w2]. cbn [snd] in *.
        eapply same_config_trans; eassumption.
      * eapply same_config_trans; [exact Hc | apply IH].
    + cbn. apply same_config_refl.
Qed.

Lemma wait_loop_status fuel initial query w :
  status (fst (wait_loop fuel initial query w)) <> validation_failed /\
  status (fst (wait_loop fuel initial query w)) <> task_failed.
Proof.
  revert w. induction fuel as [|fuel IH]; intros w; cbn [wait_loop].
  - split; discriminate.
  - destruct (pump w) as [w1|e]; [|split; discriminate].
    destruct (trigger_received (tool w1)); [|apply IH].
    destruct (refresh_and_snapshot w1). split; discriminate.
Qed.

Lemma validated_command_resets_failures w query :
  validates_successfully w query ->
  consecutive_failures (tool (snd (execute w query))) = 0 /\
  exists p, fst (execute w query) = Returned p /\
            status p <> validation_failed /\ status p <> task_failed.
Proof.
  intros (Hcf & Hq & Hv). unfold execute.
  apply Nat.leb_gt in Hcf. rewrite Hcf.
  apply String.eqb_neq in Hq. rewrite Hq.
  rewrite execute_snapshot, Hv. cbn [negb].
  destruct (validation_snapshot w) as [g|] eqn:Eg.
  2:{ destruct (none_graph_is_rejected query) as [Hn _]. congruence. }
  unfold _execute_action.
  match goal with |- context [_publish_init_raw_msg (_publish_action_cmd ?w2 query)] =>
    destruct (publish_steps_fields w2 query) as (_ & Ht & _ & _);
    set (w_pub := _publish_init_raw_msg (_publish_action_cmd w2 query)) in *
  end.
  match goal with |- context [wait_loop ?f g query ?w0] =>
    pose proof (wait_loop_config f g query w0) as Hc;
    assert (Hs : status (fst (wait_loop f g query w0)) <> validation_failed /\
                 status (fst (wait_loop f g query w0)) <> task_failed);
    [ | destruct (wait_loop f g query w0) as [p w1] eqn:Ew ]
  end.
  - apply wait_loop_status.
  - cbn [fst snd] in *. split.
    + destruct Hc as (_ & _ & Hc & _).
      cbn [tool set_tool consecutive_failures set_trigger] in Hc |- *.
      rewrite Ht in Hc. cbn in Hc. exact Hc.
    + exists p. split; [reflexivity | exact Hs].
Qed.

Example extract_core_action_examples :
  _extract_core_action "action type 1: move box3 to table" = "move box3 to table" /\
  _extract_core_action "Step 2 :  open lid_box" = "open lid_box" /\
  _extract_core_action " move a on b " = "move a on b".
Proof. repeat split; reflexivity. Qed.

Example validated_command_is_published :
  published (snd (execute sample_world "action type 1: move red_cube1 on table"))
  = [PubInstruction "move red_cube1 on table"; PubSceneInit "scene"].
Proof. vm_compute. reflexivity. Qed.

Example pump_exception_gives_error_payload :
  fst (execute failing_bus_world "move red_cube1 on table")
  = Returned (ExecutionError "Error during action execution: context is shut down"
                             cube_in_box_scene).
Proof. vm_compute. reflexivity. Qed.

Example timeout_reports_the_latest_snapshot :
  fst (execute late_update_world "move red_cube1 on table")
  = Returned (ExecutionTimeout mug_on_box_scene).
Proof. vm_compute. reflexivity. Qed.

Lemma empty_command_is_not_counted_witness :
  (exists g, fst (execute sample_world "   ") = Returned (NoCommand g)) /\
  consecutive_failures (tool (snd (execute sample_world "   "))) = 0.
Proof.
  apply (empty_command_is_not_counted sample_world "   ").
  - vm_compute. reflexivity.
  - vm_compute. lia.
Defined.

(** C10 as stated fails once five validations in a row have failed: the
    empty command is then answered with the task failure. *)
Lemma empty_command_at_the_limit_is_task_failed :
  consecutive_failures (tool world_after_five_failures) = 5 /\
  strip "   " = "" /\
  fst (execute world_after_five_failures "   ")
    = Returned (TaskFailed 5 (Some cube_in_box_scene)) /\
  status (TaskFailed 5 (Some cube_in_box_scene)) <> validation_failed.
Proof.
  repeat split; try (vm_compute; reflexivity). discriminate.
Qed.

End ToolFacts.

(** ** The agent *)

Module AgentFacts.
Import PyStr Scene Validator Tool Agent Samples PyStrFacts ToolFacts.

Section WithJson.
Variable json_dumps : SceneGraph -> string.
Variable json_decode : string -> option JsonDoc.

Lemma node_repetition_state st messages query :
  submits messages query ->
  repetition_state (snd (_call_validate_execute json_dumps st messages))
  = snd (repetition_guard st query).
Proof.
  intros (id & rest & E). unfold _call_validate_execute. rewrite E.
  cbn [tc_args tc_name tc_id].
  destruct (repetition_guard st query) as [v [[c l] ll]].
  destruct v; cbn [snd]; try reflexivity.
  rewrite String.eqb_refl.
  destruct (call_tool _ query) as [result w'].
  destruct (output_task_failed result); reflexivity.
Qed.

Lemma node_rejects_same_as_before_last st messages query :
  submits messages query ->
  fst (repetition_guard st query) = RejectedSameAsBeforeLast ->
  fst (_call_validate_execute json_dumps st messages)
  = [HumanMessage ("invalid, reason: The action " ++ dquote ++ repr_args query
                   ++ dquote ++ " is the same as the one before last.")] /\
  world (snd (_call_validate_execute json_dumps st messages)) = world st.
Proof.
  intros (id & rest & E) Hv. unfold _call_validate_execute. rewrite E.
  cbn [tc_args tc_name tc_id].
  destruct (repetition_guard st query) as [v [[c l] ll]]. cbn [fst] in Hv. subst v.
  split; reflexivity.
Qed.

Lemma guard_passed_last st query :
  fst (repetition_guard st query) = Passed ->
  snd (fst (snd (repetition_guard st query))) = Some query.
Proof.
  unfold repetition_guard.
  destruct (same_args query (last_last_call_message st)); [discriminate|].
  destruct (same_args query (last_call_message st)) eqn:E.
  - destruct (5 <=? same_tool_count st + 1); [discriminate|]. intros _. cbn.
    unfold same_args in E. destruct (last_call_message st) as [x|]; [|discriminate].
    apply String.eqb_eq in E. congruence.
  - intros _. reflexivity.
Qed.

(** C2, amended.  For three commands submitted in sequence where the third
    equals the first and differs from the second, and the first two have
    passed the repetition tests: the third is rejected as the same as the
    one before last, the tool is not called (the world is untouched,
    whatever the validity of the command), and the streak counter, the last
    and the second-last command are all reset. *)
Theorem third_command_is_rejected_when_first_two_pass
  (st : AgentState) (a b : string) (m1 m2 m3 : list Message) :
  a <> b ->
  submits m1 a -> submits m2 b -> submits m3 a ->
  let r1 := _call_validate_execute json_dumps st m1 in
  let r2 := _call_validate_execute json_dumps (snd r1) m2 in
  let r3 := _call_validate_execute json_dumps (snd r2) m3 in
  fst (repetition_guard st a) = Passed ->
  fst (repetition_guard (snd r1) b) = Passed ->
  fst r3 = [HumanMessage ("invalid, reason: The action " ++ dquote ++ repr_args a
                          ++ dquote ++ " is the same as the one before last.")] /\
  repetition_state (snd r3) = (0, None, None) /\
  world (snd r3) = world (snd r2).
Proof.
  intros Hab S1 S2 S3 r1 r2 r3 P1 P2.
  pose proof (node_repetition_state st m1 a S1) as E1. fold r1 in E1.
  pose proof (guard_passed_last st a P1) as L1.
  assert (La : last_call_message (snd r1) = Some a).
  { unfold repetition_state in E1. destruct (snd (repetition_guard st a)) as [[c l] ll].
    cbn in L1. injection E1 as _ Hl1 _. congruence. }
  pose proof (node_repetition_state (snd r1) m2 b S2) as E2. fold r2 in E2.
  assert (G2 : snd (repetition_guard (snd r1) b) = (0, Some b, Some a)).
  { revert P2. unfold repetition_guard. rewrite La.
    destruct (same_args b (last_last_call_message (snd r1))); [discriminate|].
    assert (F : same_args b (Some a) = false).
    { cbn. apply String.eqb_neq. congruence. }
    rewrite F. reflexivity. }
  rewrite G2 in E2. unfold repetition_state in E2. injection E2 as Hc Hl Hll.
  assert (G3 : repetition_guard (snd r2) a = (RejectedSameAsBeforeLast, (0, None, None))).
  { unfold repetition_guard. rewrite Hll. cbn. rewrite String.eqb_refl. reflexivity. }
  destruct (node_rejects_same_as_before_last (snd r2) m3 a S3) as [Hm Hw].
  { rewrite G3. reflexivity. }
  fold r3 in Hm, Hw.
  pose proof (node_repetition_state (snd r2) m3 a S3) as E3. fold r3 in E3.
  rewrite G3 in E3. cbn [snd] in E3.
  split; [exact Hm | split; [exact E3 | exact Hw]].
Qed.


Lemma node_world_after_pass st messages query :
  submits messages query ->
  fst (repetition_guard st query) = Passed ->
  world (snd (_call_validate_execute json_dumps st messages))
  = snd (call_tool (world st) query).
Proof.
  intros (id & rest & E) Hv. unfold _call_validate_execute. rewrite E.
  cbn [tc_args tc_name tc_id].
  destruct (repetition_guard st query) as [v [[c l] ll]]. cbn [fst] in Hv. subst v.
  rewrite String.eqb_refl. cbn [set_repetition world].
  destruct (call_tool (world st) query) as [result w'].
  destruct (output_task_failed result); reflexivity.
Qed.

(** C5, amended.  After a command that validates successfully the
    consecutive-failure counter of the tool is zero.  The streak counter
    and the window belong to the repetition tests, which run before the
    validation: a command that differs from the last one sets the streak to
    zero and shifts the window; a command equal to the last one adds one to
    the streak and leaves the window as it is. *)
Theorem validated_command_clears_failure_counter
  (st : AgentState) (messages : list Message) (query : string) :
  submits messages query ->
  fst (repetition_guard st query) = Passed ->
  validates_successfully (world st) query ->
  let st' := snd (_call_validate_execute json_dumps st messages) in
  consecutive_failures (tool (world st')) = 0 /\
  (same_args query (last_call_message st) = false ->
     repetition_state st' = (0, Some query, last_call_message st)) /\
  (same_args query (last_call_message st) = true ->
     repetition_state st'
     = (same_tool_count st + 1, last_call_message st, last_last_call_message st)).
Proof.
  intros S P V st'. subst st'.
  rewrite (node_world_after_pass st messages query S P).
  rewrite (node_repetition_state st messages query S).
  split; [|split].
  - unfold call_tool.
    destruct (validated_command_resets_failures (world st) query V) as [Hz _].
    destruct (execute (world st) query) as [[p|e] w']; exact Hz.
  - intros Hl. revert P. unfold repetition_guard.
    destruct (same_args query (last_last_call_message st)); [discriminate|].
    rewrite Hl. reflexivity.
  - intros Hl. revert P. unfold repetition_guard.
    destruct (same_args query (last_last_call_message st)); [discriminate|].
    rewrite Hl. destruct (5 <=? same_tool_count st + 1); [discriminate|]. reflexivity.
Qed.


Lemma feedback_shape (p : Payload) (query : string) (w : World) :
  exists tail,
    _build_action_feedback_message json_dumps (OutPayload p) query w
    = feedback_head p query ++ tail.
Proof.
  unfold _build_action_feedback_message, feedback_head.
  destruct (payload_scene_graph p) as [g|]; [destruct (truthy g)|];
    try destruct (truthy (get_current_scene_graph (manager w)));
    destruct (status p); cbv beta zeta;
    eexists; rewrite !append_assoc; reflexivity.
Qed.

Lemma feedback_not_json (p : Payload) (query tail : string) :
  json_loads json_decode (feedback_head p query ++ tail) = None.
Proof. unfold feedback_head. destruct (status p); reflexivity. Qed.

Lemma feedback_not_marker (p : Payload) (query tail : string) :
  startswith "TASK_FAILED:" (feedback_head p query ++ tail) = false.
Proof. unfold feedback_head. destruct (status p); reflexivity. Qed.

Lemma existsb_snoc {A} (f : A -> bool) (l : list A) (x : A) :
  existsb f (l ++ [x])%list = existsb f l || f x.
Proof. rewrite existsb_app. cbn. rewrite orb_false_r. reflexivity. Qed.

(** C6, amended.  After a round of the node whose tool result has the
    status [validation_failed] or [task_failed], the graph goes to END.
    After a round with the status [execution_success] it goes back to the
    planning node when no message of the state starts with the marker
    [TASK_FAILED:], and to END when one does: the routing function looks
    for the marker in every message, the text of the task included. *)
Theorem failed_round_stops_and_success_continues
  (st : AgentState) (messages : list Message) (query : string) :
  submits messages query ->
  fst (repetition_guard st query) = Passed ->
  exists p,
    fst (call_tool (world st) query) = OutPayload p /\
    (status p = validation_failed \/ status p = task_failed ->
       snd (validate_execute_round json_dumps json_decode st messages)
       = Returned node_END) /\
    (status p = execution_success ->
       snd (validate_execute_round json_dumps json_decode st messages)
       = Returned (if task_failed_marker messages then node_END else node_agent)).
Proof.
  intros (id & rest & E) P.
  destruct (execute_returns_payload (world st) query) as [p Hp].
  exists p. unfold call_tool.
  unfold validate_execute_round, _call_validate_execute. rewrite E.
  cbn [tc_args tc_name tc_id].
  destruct (repetition_guard st query) as [v [[c l] ll]]. cbn [fst] in P. subst v.
  rewrite String.eqb_refl. cbn [set_repetition world]. unfold call_tool.
  destruct (execute (world st) query) as [[p'|e] w']; cbn [fst] in Hp; [|discriminate].
  injection Hp as ->.
  split; [reflexivity|].
  destruct (feedback_shape p query w') as [tail Ef]. rewrite Ef.
  pose proof (feedback_not_json p query tail) as Hj.
  pose proof (feedback_not_marker p query tail) as Hk.
  unfold output_task_failed.
  split.
  - intros Hs. cbn [snd].
    unfold _should_continue_after_execution.
    destruct Hs as [Hs|Hs]; rewrite Hs in *; cbn [fst snd].
    + destruct (existsb _ _); [reflexivity|].
      rewrite rev_unit. cbn [find is_vae_message name_of].
      unfold tool_name_vae at 1 2. rewrite String.eqb_refl. cbn [content_of].
      rewrite Hj.
      replace (startswith "The action '" (feedback_head p query ++ tail)) with true
        by (unfold feedback_head; rewrite Hs, append_assoc; symmetry; apply prefix_app).
      replace (contains "is invalid, reason:" (feedback_head p query ++ tail)) with true.
      * reflexivity.
      * symmetry. unfold feedback_head. rewrite Hs.
        apply contains_app_l. apply contains_app_r. apply contains_app_r.
        reflexivity.
    + destruct (existsb _ _); [reflexivity|].
      rewrite rev_app_distr. cbn [rev app find].
      cbn [is_vae_message name_of].
      unfold tool_name_vae at 1 2. rewrite String.eqb_refl. cbn [content_of].
      rewrite Hj.
      unfold add_record, last_record_task_failed. cbn [execution_records].
      rewrite rev_unit.
      destruct (_ && _); reflexivity.
  - intros Hs. cbn [snd]. rewrite Hs in *.
    unfold _should_continue_after_execution.
    rewrite existsb_snoc. fold (task_failed_marker messages).
    destruct (task_failed_marker messages); [reflexivity|].
    cbn [content_of orb]. rewrite Hk.
    rewrite rev_unit. cbn [find is_vae_message name_of].
    unfold tool_name_vae at 1 2. rewrite String.eqb_refl. cbn [content_of].
    rewrite Hj.
    replace (startswith "The action '" (feedback_head p query ++ tail)) with false
      by (unfold feedback_head; rewrite Hs; reflexivity).
    cbn [andb].
    unfold add_record, last_record_task_failed. cbn [execution_records].
    rewrite rev_unit. reflexivity.
Qed.

End WithJson.

Lemma submits_call_messages (query : string) : submits (call_messages query) query.
Proof. exists "call_1", []. reflexivity. Qed.

Lemma third_command_is_rejected_when_first_two_pass_witness :
  fst round3
  = [HumanMessage ("invalid, reason: The action " ++ dquote ++ repr_args open_lid
                   ++ dquote ++ " is the same as the one before last.")] /\
  repetition_state (snd round3) = (0, None, None) /\
  world (snd round3) = world (snd round2).
Proof.
  apply (third_command_is_rejected_when_first_two_pass sample_json_dumps
           (fresh_agent silent_world) open_lid mug_to_table
           (call_messages open_lid) (call_messages mug_to_table)
           (call_messages open_lid)).
  - discriminate.
  - apply submits_call_messages.
  - apply submits_call_messages.
  - apply submits_call_messages.
  - reflexivity.
  - vm_compute. reflexivity.
Defined.

(** C2 as stated fails in the sequence open, move, open, move, open: the
    third command is rejected and resets the window, so the fifth, which
    equals the third and differs from the fourth, passes the repetition
    tests and is handed to the tool. *)
Lemma fifth_alternating_command_is_not_rejected :
  open_lid <> mug_to_table /\
  fst (repetition_guard
         (run_rounds (fresh_agent silent_world) [open_lid; mug_to_table]) open_lid)
    = RejectedSameAsBeforeLast /\
  fst (repetition_guard
         (run_rounds (fresh_agent silent_world)
            [open_lid; mug_to_table; open_lid; mug_to_table]) open_lid)
    = Passed /\
  exists content,
    fst (_call_validate_execute sample_json_dumps
           (run_rounds (fresh_agent silent_world)
              [open_lid; mug_to_table; open_lid; mug_to_table])
           (call_messages open_lid))
    = [ToolMessage content tool_name_vae "call_1"].
Proof.
  split; [discriminate|].
  split; [vm_compute; reflexivity|].
  split; [vm_compute; reflexivity|].
  eexists. vm_compute. reflexivity.
Qed.

Lemma validated_command_clears_failure_counter_witness :
  consecutive_failures
    (tool (world (snd (_call_validate_execute sample_json_dumps
                         (fresh_agent unchanging_world) (call_messages open_lid))))) = 0 /\
  (same_args open_lid (last_call_message (fresh_agent unchanging_world)) = false ->
     repetition_state (snd (_call_validate_execute sample_json_dumps
                              (fresh_agent unchanging_world) (call_messages open_lid)))
     = (0, Some open_lid, last_call_message (fresh_agent unchanging_world))) /\
  (same_args open_lid (last_call_message (fresh_agent unchanging_world)) = true ->
     repetition_state (snd (_call_validate_execute sample_json_dumps
                              (fresh_agent unchanging_world) (call_messages open_lid)))
     = (same_tool_count (fresh_agent unchanging_world) + 1,
        last_call_message (fresh_agent unchanging_world),
        last_last_call_message (fresh_agent unchanging_world))).
Proof.
  apply (validated_command_clears_failure_counter sample_json_dumps
           (fresh_agent unchanging_world) (call_messages open_lid) open_lid).
  - apply submits_call_messages.
  - reflexivity.
  - repeat split.
    + vm_compute. lia.
    + intros H. vm_compute in H. discriminate H.
Defined.

(** C5 as stated fails when a command is repeated and validates both
    times: after the second round the streak counter is 1, and the window
    still holds no second-last command. *)
Lemma repeated_valid_command_keeps_its_streak :
  validates_successfully (world (fresh_agent unchanging_world)) open_lid /\
  validates_successfully
    (world (run_rounds (fresh_agent unchanging_world) [open_lid])) open_lid /\
  (exists p, fst (execute (world (run_rounds (fresh_agent unchanging_world) [open_lid]))
                          open_lid) = Returned p /\ status p = execution_success) /\
  repetition_state (run_rounds (fresh_agent unchanging_world) [open_lid; open_lid])
    = (1, Some open_lid, None).
Proof.
  split; [|split; [|split]].
  - repeat split; [vm_compute; lia | intros H; vm_compute in H; discriminate H].
  - repeat split; [vm_compute; lia | intros H; vm_compute in H; discriminate H].
  - eexists. split; [vm_compute; reflexivity | reflexivity].
  - vm_compute. reflexivity.
Qed.

(** A round that fails validation ends the graph, a round that succeeds
    goes back to planning, and a round that succeeds on a state whose task
    text starts with the marker ends the graph. *)
Lemma failed_round_stops_and_success_continues_witness :
  snd (validate_execute_round sample_json_dumps sample_json_decode
         (fresh_agent silent_world) (call_messages "close lid_box"))
  = Returned node_END /\
  snd (validate_execute_round sample_json_dumps sample_json_decode
         (fresh_agent unchanging_world) (call_messages open_lid))
  = Returned node_agent /\
  snd (validate_execute_round sample_json_dumps sample_json_decode
         (fresh_agent unchanging_world) (marked_call_messages open_lid))
  = Returned node_END.
Proof.
  split; [|split].
  - destruct (failed_round_stops_and_success_continues sample_json_dumps
                sample_json_decode (fresh_agent silent_world)
                (call_messages "close lid_box") "close lid_box")
      as (p & Hp & Hfailed & _).
    + apply submits_call_messages.
    + reflexivity.
    + apply Hfailed. left. vm_compute in Hp. injection Hp as <-. reflexivity.
  - destruct (failed_round_stops_and_success_continues sample_json_dumps
                sample_json_decode (fresh_agent unchanging_world)
                (call_messages open_lid) open_lid)
      as (p & Hp & _ & Hsuccess).
    + apply submits_call_messages.
    + reflexivity.
    + apply Hsuccess. vm_compute in Hp. injection Hp as <-. reflexivity.
  - destruct (failed_round_stops_and_success_continues sample_json_dumps
                sample_json_decode (fresh_agent unchanging_world)
                (marked_call_messages open_lid) open_lid)
      as (p & Hp & _ & Hsuccess).
    + exists "call_1", []. reflexivity.
    + reflexivity.
    + apply Hsuccess. vm_compute in Hp. injection Hp as <-. reflexivity.
Defined.

(** C6 as stated fails when the text of the task starts with the marker
    of a failed task: the command is executed with success, and the graph
    goes to END instead of the planning node. *)
Lemma successful_round_with_marker_stops :
  submits (marked_call_messages open_lid) open_lid /\
  fst (repetition_guard (fresh_agent unchanging_world) open_lid) = Passed /\
  (exists p, fst (call_tool (world (fresh_agent unchanging_world)) open_lid)
             = OutPayload p /\ status p = execution_success) /\
  snd (validate_execute_round sample_json_dumps sample_json_decode
         (fresh_agent unchanging_world) (marked_call_messages open_lid))
  = Returned node_END /\
  Returned node_END <> Returned node_agent.
Proof.
  split; [exists "call_1", []; reflexivity|].
  split; [reflexivity|].
  split; [eexists; split; [vm_compute; reflexivity | reflexivity]|].
  split; [vm_compute; reflexivity | discriminate].
Qed.

Example closing_a_closed_box_ends_the_graph :
  snd (validate_execute_round sample_json_dumps sample_json_decode
         (fresh_agent silent_world) (call_messages "close lid_box"))
  = Returned node_END.
Proof. vm_compute. reflexivity. Qed.

Example successful_round_returns_to_planning :
  snd (validate_execute_round sample_json_dumps sample_json_decode
         (fresh_agent unchanging_world) (call_messages open_lid))
  = Returned node_agent.
Proof. vm_compute. reflexivity. Qed.

End AgentFacts.

(** ** The store over sequences of calls *)

Module SceneOpsFacts.
Import PyStr Scene SceneOps.

Lemma tracking_ok_init : tracking_ok Scene.init.
Proof. constructor; cbn; auto; try lia; split; reflexivity. Qed.

Lemma tracking_ok_check (m : SceneGraphManager) (g : SceneGraph) (msg : option string) :
  tracking_ok m -> waiting_for_update m = true ->
  tracking_ok (_check_stability (stored m g msg) g).
Proof.
  intros [Hidle Hfr Hemp Hlen Hbound Hth Hsz] Hw.
  unfold _check_stability.
  cbn [scene_graph_history stored stable_frame_count max_history_size].
  destruct (rev (scene_graph_history m)) as [|last_frame rest] eqn:Hrev.
  - constructor; ok_simple.
  - destruct (SceneGraph_eq_dec last_frame g) as [->|Hne].
    + assert (Hin : In g (scene_graph_history m)).
      { apply in_rev. rewrite Hrev. left. reflexivity. }
      assert (Hcur : current_scene_graph m = g).
      { rewrite Forall_forall in Hfr. apply Hfr. exact Hin. }
      assert (Hall : Forall (eq g) (scene_graph_history m)).
      { rewrite <- Hcur. exact Hfr. }
      assert (Hnz : scene_graph_history m <> []).
      { intros E. rewrite E in Hin. contradiction. }
      destruct (List.length (scene_graph_history m) <? max_history_size m) eqn:E.
      * apply Nat.ltb_lt in E.
        constructor; ok_simple.
        all: try (apply Forall_app; split; auto).
        all: try (rewrite length_app; cbn [List.length]; lia).
        all: try (split; [|lia]; intros E'; apply app_eq_nil in E';
                  destruct E'; discriminate).
      * constructor; ok_simple.
        all: try (split; [|lia]; intros; contradiction).
    + constructor; ok_simple.
Qed.

Lemma tracking_ok_call (m : SceneGraphManager) (c : StoreCall) :
  tracking_ok m -> tracking_ok (call m c).
Proof.
  intros Hm. pose proof Hm as [Hidle Hfr Hemp Hlen Hbound Hth Hsz].
  assert (Hstore : forall g msg,
            tracking_ok (if waiting_for_update (stored m g msg)
                         then _check_stability (stored m g msg) g
                         else stored m g msg)).
  { intros g msg. cbn [waiting_for_update stored].
    destruct (waiting_for_update m) eqn:Hw.
    - apply tracking_ok_check; assumption.
    - destruct (Hidle eq_refl) as [Hh Hc].
      constructor; cbn; rewrite ?Hh, ?Hc; ok_simple. }
  assert (Herr : tracking_ok (count_parse_error m)).
  { constructor; cbn; auto. }
  destruct c as [raw msg|ref| |]; cbn [call].
  - unfold update_scene_graph.
    destruct raw as [g|[g|]|]; auto.
    all: destruct (truthy g); auto.
  - constructor; ok_simple.
  - constructor; ok_simple.
  - constructor; ok_simple.
Qed.

Lemma tracking_ok_run (cs : list StoreCall) (m : SceneGraphManager) :
  tracking_ok m -> tracking_ok (run_calls m cs).
Proof.
  revert m. induction cs as [|c cs IH]; intros m Hm; cbn; [exact Hm|].
  apply IH. apply tracking_ok_call. exact Hm.
Qed.

Lemma run_calls_app (m : SceneGraphManager) (cs cs' : list StoreCall) :
  run_calls m (cs ++ cs')%list = run_calls (run_calls m cs) cs'.
Proof. apply fold_left_app. Qed.

(** The stored graph, the message and the tracking after an update. *)
Lemma update_accepted (m : SceneGraphManager) (raw : RawData) (msg : option string)
  (g : SceneGraph) :
  accepted_snapshot raw = Some g ->
  update_scene_graph m raw msg
  = if waiting_for_update m then _check_stability (stored m g msg) g
    else stored m g msg.
Proof.
  unfold accepted_snapshot, update_scene_graph.
  destruct raw as [g'|[g'|]|]; try discriminate.
  all: destruct (truthy g') eqn:Ht; try discriminate.
  all: intros E; injection E as ->; reflexivity.
Qed.

Lemma update_dropped (m : SceneGraphManager) (raw : RawData) (msg : option string) :
  accepted_snapshot raw = None ->
  update_scene_graph m raw msg
  = if counted_as_error raw then count_parse_error m else m.
Proof.
  unfold counted_as_error, accepted_snapshot, update_scene_graph.
  destruct raw as [g'|[g'|]|]; try reflexivity.
  all: destruct (truthy g') eqn:Ht; try discriminate; reflexivity.
Qed.

Lemma check_stability_keeps (m : SceneGraphManager) (g : SceneGraph) :
  current_scene_graph (_check_stability m g) = current_scene_graph m /\
  raw_msg (_check_stability m g) = raw_msg m /\
  parse_success_count (_check_stability m g) = parse_success_count m /\
  parse_error_count (_check_stability m g) = parse_error_count m /\
  last_scene_graph (_check_stability m g) = last_scene_graph m /\
  waiting_for_update (_check_stability m g) = waiting_for_update m /\
  stable_frame_threshold (_check_stability m g) = stable_frame_threshold m.
Proof.
  unfold _check_stability.
  destruct (rev (scene_graph_history m)) as [|f r]; [repeat split|].
  destruct (SceneGraph_eq_dec f g); repeat split.
Qed.

(** X1. After any sequence of calls on a new store (updates, starts and
    stops of a wait, resets of the tracking), a report of
    [check_update_status] that says stable carries the graph the store
    holds at that moment, and it says that there is a real change exactly
    when that graph differs from the reference of the wait. *)
Theorem stable_report_is_the_stored_graph (cs : list StoreCall) :
  let m := run_calls Scene.init cs in
  let report := check_update_status m in
  is_stable report = true ->
  stable_scene_graph report = Some (current_scene_graph m) /\
  (has_real_change report = true <->
   current_scene_graph m <> last_scene_graph m).
Proof.
  intros m report.
  assert (Hok : tracking_ok m) by (apply tracking_ok_run, tracking_ok_init).
  destruct Hok as [Hidle Hfr Hemp Hlen Hbound Hth Hsz].
  subst report. unfold check_update_status.
  destruct (waiting_for_update m); cbn [negb]; [|discriminate].
  destruct (stable_frame_threshold m <=? stable_frame_count m) eqn:E.
  2:{ cbn. discriminate. }
  apply Nat.leb_le in E. rewrite Hth in E. unfold STABILITY_stable_frame_threshold in E.
  destruct (scene_graph_history m) as [|first rest] eqn:Hh.
  { assert (stable_frame_count m = 0) by (apply Hemp; reflexivity). lia. }
  inversion Hfr as [|x l Hx Hl]; subst.
  cbn. intros _. split; [reflexivity|].
  destruct (SceneGraph_eq_dec (current_scene_graph m) (last_scene_graph m)).
  - split; [discriminate | intros; contradiction].
  - split; [intros _; assumption | reflexivity].
Qed.

(** X2. After any sequence of calls on a new store the history holds at
    most [max_history_size] (15) snapshots and never more than the stable-
    frame counter has counted; outside a wait both are zero. *)
Theorem history_never_outgrows_its_bound (cs : list StoreCall) :
  let stats := get_scene_graph_stats (run_calls Scene.init cs) in
  history_size stats <= STABILITY_max_history_size /\
  history_size stats <= stats_stable_frame_count stats /\
  (is_waiting_for_update stats = false ->
   history_size stats = 0 /\ stats_stable_frame_count stats = 0).
Proof.
  intros stats. subst stats. cbn.
  assert (Hok : tracking_ok (run_calls Scene.init cs))
    by (apply tracking_ok_run, tracking_ok_init).
  destruct Hok as [Hidle Hfr Hemp Hlen Hbound Hth Hsz].
  rewrite Hsz in Hbound. unfold STABILITY_max_history_size in *.
  repeat split; try lia.
  - destruct (Hidle H) as [-> _]. reflexivity.
  - apply Hidle. assumption.
Qed.

Lemma same_frames_count (g : SceneGraph) (n : nat) (m : SceneGraphManager) :
  truthy g = true -> waiting_for_update m = true ->
  (exists older, rev (scene_graph_history m) = g :: older) ->
  let m' := run_calls m (same_frames g n) in
  stable_frame_count m' = stable_frame_count m + n /\
  waiting_for_update m' = true /\
  stable_frame_threshold m' = stable_frame_threshold m /\
  last_scene_graph m' = last_scene_graph m /\
  current_scene_graph m' = (if n =? 0 then current_scene_graph m else g) /\
  (exists older' rest, scene_graph_history m' = older' :: rest /\
                       hd_error (scene_graph_history m) = Some older').
Proof.
  intros Ht. revert m. induction n as [|n IH]; intros m Hw [older Hh] m'.
  - subst m'. cbn. repeat split; try lia; auto.
    destruct (scene_graph_history m) as [|a l]; [discriminate|].
    exists a, l. split; reflexivity.
  - subst m'. cbn [same_frames repeat run_calls fold_left call].
    remember (update_scene_graph m (RawDict g) None) as m1 eqn:E1.
    unfold update_scene_graph in E1. rewrite Ht in E1.
    cbn [waiting_for_update stored] in E1. rewrite Hw in E1.
    assert (Hc1 : stable_frame_count m1 = stable_frame_count m + 1 /\
                  (exists older1, rev (scene_graph_history m1) = g :: older1) /\
                  hd_error (scene_graph_history m1) = hd_error (scene_graph_history m)).
    { rewrite E1. unfold _check_stability.
      cbn [scene_graph_history stored stable_frame_count max_history_size].
      rewrite Hh. destruct (SceneGraph_eq_dec g g) as [_|N]; [|contradiction].
      cbn [stable_frame_count set_stability scene_graph_history].
      split; [reflexivity|].
      destruct (List.length (scene_graph_history m) <? max_history_size m).
      - split.
        + rewrite rev_app_distr. cbn. eexists; reflexivity.
        + destruct (scene_graph_history m); [discriminate | reflexivity].
      - split; [exists older; exact Hh | reflexivity]. }
    destruct Hc1 as (Hc & Hh1 & Hhd).
    destruct (check_stability_keeps (stored m g None) g)
      as (Kc & _ & _ & _ & Kl & Kw & Kt).
    rewrite <- E1 in Kc, Kl, Kw, Kt.
    cbn [stored current_scene_graph last_scene_graph waiting_for_update
         stable_frame_threshold] in Kc, Kl, Kw, Kt.
    assert (Hw1 : waiting_for_update m1 = true) by congruence.
    destruct (IH m1 Hw1 Hh1) as (I1 & I2 & I3 & I4 & I5 & (o & r & I6 & I7)).
    fold (same_frames g n) in *. unfold run_calls in *.
    repeat split.
    + rewrite I1. lia.
    + exact I2.
    + congruence.
    + congruence.
    + rewrite I5. cbn [Nat.eqb]. destruct (n =? 0); congruence.
    + exists o, r. split; [exact I6 | congruence].
Qed.

(** X3. From any store: a wait that is started and then receives the same
    non-empty dictionary [n] times has its counter at [n]; it is reported
    stable exactly when [n] has reached the threshold, and then (for [n >
    0]) the stable graph is that dictionary and a real change is reported
    exactly when it differs from the reference. *)
Theorem wait_is_stable_after_threshold_identical_frames
  (m : SceneGraphManager) (reference g : SceneGraph) (n : nat) :
  truthy g = true ->
  let m' := run_calls m (CallStartWaiting reference :: same_frames g n) in
  let report := check_update_status m' in
  stable_frame_count m' = n /\
  is_stable report = (stable_frame_threshold m <=? n) /\
  (0 < n -> stable_frame_threshold m <= n ->
   stable_scene_graph report = Some g /\
   (has_real_change report = true <-> g <> reference)).
Proof.
  intros Ht m' report.
  destruct n as [|n].
  - subst report m'. cbn. repeat split; try lia.
    destruct (stable_frame_threshold m <=? 0); reflexivity.
  - set (m0 := start_waiting_for_update m reference).
    set (m1 := update_scene_graph m0 (RawDict g) None).
    assert (E : m' = run_calls m1 (same_frames g n)) by reflexivity.
    assert (E1 : m1 = set_stability (stored m0 g None) [g] 1).
    { unfold m1, update_scene_graph. rewrite Ht. reflexivity. }
    assert (Hw1 : waiting_for_update m1 = true) by (rewrite E1; reflexivity).
    assert (Hh1 : exists older, rev (scene_graph_history m1) = g :: older).
    { rewrite E1. exists []. reflexivity. }
    destruct (same_frames_count g n m1 Ht Hw1 Hh1)
      as (I1 & I2 & I3 & I4 & _ & (o & r & I6 & I7)).
    rewrite <- E in I1, I2, I3, I4, I6.
    assert (Hc : stable_frame_count m' = S n).
    { rewrite I1, E1. cbn. lia. }
    assert (Hth : stable_frame_threshold m' = stable_frame_threshold m).
    { rewrite I3, E1. reflexivity. }
    assert (Hl : last_scene_graph m' = reference).
    { rewrite I4, E1. reflexivity. }
    assert (Ho : o = g).
    { rewrite E1 in I7. cbn in I7. congruence. }
    subst o.
    subst report. unfold check_update_status.
    rewrite I2, Hc, Hth, I6, Hl. cbn [negb].
    destruct (stable_frame_threshold m <=? S n) eqn:El.
    + cbn. repeat split; auto.
      * destruct (SceneGraph_eq_dec g reference); [discriminate | intros _; assumption].
      * destruct (SceneGraph_eq_dec g reference); [intros; contradiction | reflexivity].
    + apply Nat.leb_gt in El. cbn. repeat split; auto; intros; lia.
Qed.

Lemma accepted_is_no_error (raw : RawData) (g : SceneGraph) :
  accepted_snapshot raw = Some g -> counted_as_error raw = false.
Proof.
  unfold counted_as_error. destruct raw; intros E; try rewrite E; try reflexivity.
Qed.

Lemma call_counts (m : SceneGraphManager) (c : StoreCall) :
  parse_success_count (call m c)
  = parse_success_count m
    + List.length (filter is_accepted (updates_of [c])) /\
  parse_error_count (call m c)
  = parse_error_count m
    + List.length (filter counted_as_error (updates_of [c])).
Proof.
  destruct c as [raw msg|ref| |]; cbn; try (split; lia).
  unfold is_accepted.
  destruct (accepted_snapshot raw) as [g|] eqn:Ea.
  - rewrite (update_accepted m raw msg g Ea), (accepted_is_no_error raw g Ea).
    destruct (waiting_for_update m).
    + destruct (check_stability_keeps (stored m g msg) g) as (_ & _ & Ks & Ke & _).
      rewrite Ks, Ke. cbn. split; lia.
    + cbn. split; lia.
  - rewrite (update_dropped m raw msg Ea).
    destruct (counted_as_error raw); cbn; split; lia.
Qed.

Lemma updates_of_cons (c : StoreCall) (cs : list StoreCall) :
  updates_of (c :: cs) = (updates_of [c] ++ updates_of cs)%list.
Proof. unfold updates_of. cbn. rewrite app_nil_r. reflexivity. Qed.

(** X4. Over any sequence of calls [parse_success_count] grows by the
    number of updates that stored a snapshot and [parse_error_count] by
    the number of inputs of a handled type (text or dictionary) that
    stored none; an input of another type is not counted. *)
Theorem every_handled_update_is_counted_once (cs : list StoreCall)
  (m : SceneGraphManager) :
  parse_success_count (run_calls m cs)
  = parse_success_count m + List.length (accepted_snapshots cs) /\
  parse_error_count (run_calls m cs)
  = parse_error_count m
    + List.length (filter counted_as_error (updates_of cs)).
Proof.
  assert (Hacc : forall l, List.length (accepted_snapshots l)
                           = List.length (filter is_accepted (updates_of l))).
  { intros l. unfold accepted_snapshots, is_accepted.
    induction (updates_of l) as [|raw rs IH]; [reflexivity|].
    cbn. destruct (accepted_snapshot raw); cbn; rewrite IH; reflexivity. }
  rewrite Hacc. revert m.
  induction cs as [|c cs IH]; intros m.
  - cbn. split; lia.
  - cbn [run_calls fold_left]. fold (run_calls (call m c) cs).
    destruct (IH (call m c)) as [I1 I2].
    destruct (call_counts m c) as [C1 C2].
    rewrite (updates_of_cons c cs), !filter_app, !length_app.
    rewrite I1, I2, C1, C2. split; lia.
Qed.

Lemma call_current (m : SceneGraphManager) (c : StoreCall) :
  current_scene_graph (call m c)
  = last (accepted_snapshots [c]) (current_scene_graph m).
Proof.
  destruct c as [raw msg|ref| |]; try reflexivity.
  unfold accepted_snapshots. cbn [call updates_of flat_map app].
  destruct (accepted_snapshot raw) as [g|] eqn:Ea.
  - rewrite (update_accepted m raw msg g Ea). cbn.
    destruct (waiting_for_update m); [|reflexivity].
    destruct (check_stability_keeps (stored m g msg) g) as (K & _). exact K.
  - rewrite (update_dropped m raw msg Ea). cbn.
    destruct (counted_as_error raw); reflexivity.
Qed.

Lemma accepted_snapshots_cons (c : StoreCall) (cs : list StoreCall) :
  accepted_snapshots (c :: cs)
  = (accepted_snapshots [c] ++ accepted_snapshots cs)%list.
Proof.
  unfold accepted_snapshots. rewrite (updates_of_cons c cs), flat_map_app.
  reflexivity.
Qed.

Lemma last_app_default {A} (l l' : list A) (d : A) :
  last (l ++ l')%list d = last l' (last l d).
Proof.
  revert d. induction l as [|a l IH]; intros d; [reflexivity|].
  destruct l as [|b l].
  - cbn. destruct l'; [reflexivity|]. clear IH.
    revert a0. induction l' as [|x l' IH']; intros a0; [reflexivity|].
    cbn. apply IH'.
  - change ((a :: b :: l) ++ l')%list with (a :: (b :: l) ++ l')%list.
    change (last (a :: (b :: l) ++ l')%list d) with (last ((b :: l) ++ l')%list d).
    rewrite IH. reflexivity.
Qed.

Lemma run_calls_current (cs : list StoreCall) (m : SceneGraphManager) :
  current_scene_graph (run_calls m cs)
  = last (accepted_snapshots cs) (current_scene_graph m).
Proof.
  revert m. induction cs as [|c cs IH]; intros m; [reflexivity|].
  cbn [run_calls fold_left]. fold (run_calls (call m c) cs).
  rewrite (accepted_snapshots_cons c cs), last_app_default, IH, call_current.
  reflexivity.
Qed.

Lemma accepted_snapshots_truthy (cs : list StoreCall) :
  Forall (fun g => truthy g = true) (accepted_snapshots cs).
Proof.
  unfold accepted_snapshots.
  induction (updates_of cs) as [|raw rs IH]; [constructor|].
  cbn. destruct (accepted_snapshot raw) as [g|] eqn:Ea; [|exact IH].
  cbn. constructor; [|exact IH].
  unfold accepted_snapshot in Ea.
  destruct raw as [g'|[g'|]|]; try discriminate.
  all: destruct (truthy g') eqn:Ht; try discriminate; congruence.
Qed.

(** X5. [get_latest_scene_graph] answers with the rendering of the last
    snapshot an update has stored, and with the not-available text exactly
    when no update has stored one. *)
Theorem latest_graph_is_the_last_accepted_snapshot
  (json_dumps : SceneGraph -> string) (cs : list StoreCall) :
  get_latest_scene_graph json_dumps (run_calls Scene.init cs)
  = match rev (accepted_snapshots cs) with
    | [] => not_available
    | g :: _ => "Current scene graph: " ++ json_dumps g
    end.
Proof.
  unfold get_latest_scene_graph. rewrite run_calls_current.
  pose proof (accepted_snapshots_truthy cs) as Ht.
  destruct (accepted_snapshots cs) as [|a l] eqn:E using rev_ind.
  - reflexivity.
  - clear IHl. rewrite last_last, rev_app_distr. cbn [rev app].
    apply Forall_app in Ht. destruct Ht as [_ Ht].
    inversion Ht as [|x y Hx Hy]; subst. rewrite Hx. reflexivity.
Qed.

Lemma callback_step (decode : string -> Decoded) (m : SceneGraphManager)
  (text : string) :
  let m' := _ros2_callback decode m text in
  parse_error_count m' = parse_error_count m /\
  (current_scene_graph m' = current_scene_graph m \/
   nodes (current_scene_graph m') <> None /\ edges (current_scene_graph m') <> None).
Proof.
  unfold _ros2_callback.
  destruct (String.eqb text "" || String.eqb (strip text) ""); [split; auto|].
  destruct (decode text) as [| |g]; [split; auto | split; auto |].
  destruct (nodes g) as [ns|] eqn:En; [|split; auto].
  destruct (edges g) as [es|] eqn:Ee; [|split; auto].
  assert (Ea : accepted_snapshot (RawDict g) = Some g).
  { unfold accepted_snapshot, truthy. rewrite En. destruct (timestamp g); reflexivity. }
  rewrite (update_accepted m (RawDict g) (Some text) g Ea).
  destruct (waiting_for_update m).
  - destruct (check_stability_keeps (stored m g (Some text)) g) as (Kc & _ & _ & Ke & _).
    rewrite Kc, Ke. cbn. split; [reflexivity|]. right. rewrite En, Ee.
    split; discriminate.
  - cbn. split; [reflexivity|]. right. rewrite En, Ee. split; discriminate.
Qed.

(** X6. A store that is fed through the ROS callback only never counts a
    parse error, and the graph it holds is [{}] or has both keys [nodes]
    and [edges]: a message that is empty, is not JSON, is not a dictionary
    or lacks one of the keys is dropped before the store sees it. *)
Theorem callback_only_stores_complete_graphs
  (decode : string -> Decoded) (texts : list string) :
  let m := run_messages decode Scene.init texts in
  parse_error_count m = 0 /\
  (current_scene_graph m = empty_dict \/
   nodes (current_scene_graph m) <> None /\ edges (current_scene_graph m) <> None).
Proof.
  cbn zeta.
  assert (H : forall m,
             parse_error_count m = 0 ->
             (current_scene_graph m = empty_dict \/
              nodes (current_scene_graph m) <> None /\
              edges (current_scene_graph m) <> None) ->
             parse_error_count (run_messages decode m texts) = 0 /\
             (current_scene_graph (run_messages decode m texts) = empty_dict \/
              nodes (current_scene_graph (run_messages decode m texts)) <> None /\
              edges (current_scene_graph (run_messages decode m texts)) <> None)).
  { induction texts as [|t ts IH]; intros m He Hg; [split; assumption|].
    cbn [run_messages fold_left]. fold (run_messages decode (_ros2_callback decode m t) ts).
    destruct (callback_step decode m t) as [S1 S2].
    apply IH.
    - congruence.
    - destruct S2 as [S2|S2]; [rewrite S2; exact Hg | right; exact S2]. }
  apply H; [reflexivity | left; reflexivity].
Qed.

End SceneOpsFacts.


(** ** Names, edges and the shape of parsed commands *)

Module NamesFacts.
Import PyStr Scene Validator Names PyStrFacts.

Lemma ident_char_plain (c : ascii) :
  ident_char c = true -> is_space c = false /\ c <> "("%char.
Proof.
  destruct c as [[] [] [] [] [] [] [] []]; vm_compute; intros H;
    try discriminate; split; try reflexivity; discriminate.
Qed.

Lemma prefix_paren (tl s : string) (c : ascii) :
  c <> "("%char -> prefix (String "(" tl) (String c s) = false.
Proof.
  intros H. cbn [prefix].
  destruct (ascii_dec "(" c) as [E|_]; [symmetry in E; contradiction|].
  reflexivity.
Qed.

Lemma is_name_chars (s : string) : is_name s = true -> all_chars ident_char s = true.
Proof. unfold is_name. intros H. apply andb_true_iff in H. apply H. Qed.

Lemma find_map_none {A B} (f : A -> option B) (l : list A) :
  find_map f l = None -> forall x, In x l -> f x = None.
Proof.
  induction l as [|a l IH]; intros H x Hx; [contradiction|].
  cbn in H. destruct (f a) eqn:E; [discriminate|].
  destruct Hx as [<-|Hx]; [exact E | apply IH; assumption].
Qed.

(** *** What the parser can return *)

Section Eaters.
Variable q : ascii -> bool.

Lemma all_chars_lstrip (s : string) :
  all_chars q s = true -> all_chars q (lstrip s) = true.
Proof.
  induction s as [|c s IH]; [reflexivity|]. intros H. cbn [lstrip].
  destruct (is_space c); [|exact H].
  cbn in H. apply andb_true_iff in H. apply IH, H.
Qed.

Lemma all_chars_eat_lit (lit s rest : string) :
  all_chars q s = true -> eat_lit lit s = Some rest -> all_chars q rest = true.
Proof.
  revert s. induction lit as [|a lit IH]; intros s H E.
  - destruct s; cbn in E; injection E as <-; exact H.
  - destruct s as [|b s]; [discriminate|]. cbn in E.
    destruct (Ascii.eqb a b); [|discriminate].
    cbn in H. apply andb_true_iff in H. apply (IH s); [apply H | exact E].
Qed.

Lemma all_chars_eat_ws1 (s rest : string) :
  all_chars q s = true -> eat_ws1 s = Some rest -> all_chars q rest = true.
Proof.
  unfold eat_ws1. destruct s as [|c s]; [discriminate|].
  destruct (is_space c); [|discriminate].
  intros H E. injection E as <-. exact (all_chars_lstrip (String c s) H).
Qed.

Lemma all_chars_skip_digits (s : string) :
  all_chars q s = true -> all_chars q (skip_digits s) = true.
Proof.
  induction s as [|c s IH]; [reflexivity|]. intros H. cbn [skip_digits].
  destruct (is_digit c); [|exact H].
  cbn in H. apply andb_true_iff in H. apply IH, H.
Qed.

Lemma all_chars_eat_digits1 (s rest : string) :
  all_chars q s = true -> eat_digits1 s = Some rest -> all_chars q rest = true.
Proof.
  unfold eat_digits1. destruct s as [|c s]; [discriminate|].
  destruct (is_digit c); [|discriminate].
  intros H E. injection E as <-. exact (all_chars_skip_digits (String c s) H).
Qed.

Lemma take_ident_chars (s : string) :
  all_chars q s = true ->
  all_chars ident_char (fst (take_ident s)) = true /\
  all_chars q (fst (take_ident s)) = true /\
  all_chars q (snd (take_ident s)) = true.
Proof.
  induction s as [|c s IH]; [repeat split|]. intros H.
  cbn in H. apply andb_true_iff in H. destruct H as [Hc Hs].
  cbn [take_ident]. destruct (ident_char c) eqn:Ec.
  - destruct (IH Hs) as (I1 & I2 & I3).
    destruct (take_ident s) as [name rest]. cbn [fst snd] in *.
    cbn [all_chars]. rewrite Ec, Hc, I1, I2, I3. repeat split.
  - cbn. rewrite Hc, Hs. repeat split.
Qed.

Lemma eat_ident_chars (s name rest : string) :
  all_chars q s = true -> eat_ident s = Some (name, rest) ->
  is_name name = true /\ all_chars q name = true /\ all_chars q rest = true.
Proof.
  unfold eat_ident. destruct s as [|c s]; [discriminate|]. intros H.
  cbn in H. apply andb_true_iff in H. destruct H as [Hc Hs].
  destruct (ident_start c) eqn:Ec; [|discriminate].
  destruct (take_ident_chars s Hs) as (I1 & I2 & I3).
  destruct (take_ident s) as [n r]. cbn [fst snd] in *.
  intros E. injection E as <- <-.
  assert (Hi : ident_char c = true).
  { unfold ident_start in Ec. unfold ident_char.
    apply orb_true_iff in Ec. destruct Ec as [->| ->];
      [reflexivity | rewrite !orb_true_r; reflexivity]. }
  unfold is_name. cbn. rewrite Hi, I1, Hc, I2, I3. repeat split.
Qed.

Lemma eat_prefix_chars (s rest : string) :
  all_chars q s = true -> eat_action_type_prefix s = Some rest ->
  all_chars q rest = true.
Proof.
  unfold eat_action_type_prefix. intros H.
  destruct (eat_lit "action" s) as [s1|] eqn:E1; [|discriminate].
  destruct (eat_ws1 s1) as [s2|] eqn:E2; [|discriminate].
  destruct (eat_lit "type" s2) as [s3|] eqn:E3; [|discriminate].
  destruct (eat_ws1 s3) as [s4|] eqn:E4; [|discriminate].
  destruct (eat_digits1 s4) as [s5|] eqn:E5; [|discriminate].
  destruct (eat_lit ":" (eat_ws0 s5)) as [s6|] eqn:E6; [|discriminate].
  intros E. injection E as <-. unfold eat_ws0 in *.
  apply all_chars_lstrip.
  apply (all_chars_eat_lit ":" (lstrip s5)); [|exact E6].
  apply all_chars_lstrip, (all_chars_eat_digits1 s4); [|exact E5].
  apply (all_chars_eat_ws1 s3); [|exact E4].
  apply (all_chars_eat_lit "type" s2); [|exact E3].
  apply (all_chars_eat_ws1 s1); [|exact E2].
  apply (all_chars_eat_lit "action" s); assumption.
Qed.

Lemma match_open_close_shape (s : string) (a : ParsedAction) :
  all_chars q s = true -> match_open_close s = Some a ->
  exists verb name, a = OpenClose verb name /\ (verb = "open" \/ verb = "close") /\
                    is_name name = true /\ all_chars q name = true.
Proof.
  intros H. unfold match_open_close.
  assert (Hv : forall verb r,
             match eat_lit verb s with
             | None => None
             | Some s1 =>
                 match eat_ws1 s1 with
                 | None => None
                 | Some s2 =>
                     match eat_ident s2 with
                     | None => None
                     | Some (name, _) => Some (OpenClose verb name)
                     end
                 end
             end = Some r ->
             exists name, r = OpenClose verb name /\ is_name name = true /\
                          all_chars q name = true).
  { intros verb r.
    destruct (eat_lit verb s) as [s1|] eqn:E1; [|discriminate].
    destruct (eat_ws1 s1) as [s2|] eqn:E2; [|discriminate].
    destruct (eat_ident s2) as [[name rest]|] eqn:E3; [|discriminate].
    intros E. injection E as <-. exists name.
    assert (H2 : all_chars q s2 = true).
    { apply (all_chars_eat_ws1 s1); [|exact E2].
      apply (all_chars_eat_lit verb s); assumption. }
    destruct (eat_ident_chars s2 name rest H2 E3) as (I1 & I2 & _).
    repeat split; assumption. }
  match goal with
  | |- match ?o with Some _ => _ | None => _ end = _ -> _ =>
      destruct o as [r|] eqn:Eo
  end.
  - intros E. injection E as <-. destruct (Hv "open" r Eo) as (name & -> & I1 & I2).
    exists "open", name. repeat split; auto.
  - intros E. destruct (Hv "close" a E) as (name & -> & I1 & I2).
    exists "close", name. repeat split; auto.
Qed.

Lemma match_relation_target_shape (alts : list string) (s rel name : string) :
  all_chars q s = true -> all_chars q "table" = true ->
  match_relation_target alts s = Some (rel, name) ->
  In rel alts /\ is_name name = true /\ all_chars q name = true.
Proof.
  intros H Ht. induction alts as [|alt alts IH]; [discriminate|].
  cbn [match_relation_target].
  destruct (eat_lit alt s) as [s1|] eqn:E1.
  2:{ intros E. destruct (IH E) as (I1 & I2). split; [right; exact I1 | exact I2]. }
  destruct (eat_ws1 s1) as [s2|] eqn:E2.
  2:{ intros E. destruct (IH E) as (I1 & I2). split; [right; exact I1 | exact I2]. }
  assert (H2 : all_chars q s2 = true).
  { apply (all_chars_eat_ws1 s1); [|exact E2].
    apply (all_chars_eat_lit alt s); assumption. }
  destruct (eat_ident s2) as [[n rest]|] eqn:E3.
  - intros E. injection E as <- <-.
    destruct (eat_ident_chars s2 n rest H2 E3) as (I1 & I2 & _).
    split; [left; reflexivity | split; assumption].
  - destruct (eat_lit "table" s2) as [s3|] eqn:E4.
    + intros E. injection E as <- <-.
      split; [left; reflexivity | split; [reflexivity | exact Ht]].
    + intros E. destruct (IH E) as (I1 & I2). split; [right; exact I1 | exact I2].
Qed.

Lemma match_move_shape (verb s source rel target : string) :
  all_chars q s = true -> all_chars q "table" = true ->
  match_move verb s = Some (source, rel, target) ->
  is_name source = true /\ all_chars q source = true /\
  In rel ["in"; "into"; "to"; "on"; "upon"] /\
  is_name target = true /\ all_chars q target = true.
Proof.
  intros H Ht. unfold match_move.
  destruct (eat_lit verb s) as [s1|] eqn:E1; [|discriminate].
  destruct (eat_ws1 s1) as [s2|] eqn:E2; [|discriminate].
  destruct (eat_ident s2) as [[src s3]|] eqn:E3; [|discriminate].
  destruct (eat_ws1 s3) as [s4|] eqn:E4; [|discriminate].
  destruct (match_relation_target _ s4) as [[r t]|] eqn:E5; [|discriminate].
  intros E. injection E as <- <- <-.
  assert (H2 : all_chars q s2 = true).
  { apply (all_chars_eat_ws1 s1); [|exact E2].
    apply (all_chars_eat_lit verb s); assumption. }
  destruct (eat_ident_chars s2 src s3 H2 E3) as (I1 & I2 & I3).
  assert (H4 : all_chars q s4 = true) by (apply (all_chars_eat_ws1 s3); assumption).
  destruct (match_relation_target_shape _ s4 r t H4 Ht E5) as (J1 & J2 & J3).
  repeat split; assumption.
Qed.

End Eaters.

Lemma lower_char_not_upper (c : ascii) : not_upper (lower_char c) = true.
Proof. destruct c as [[] [] [] [] [] [] [] []]; vm_compute; reflexivity. Qed.

Lemma lower_not_upper (s : string) : all_chars not_upper (lower s) = true.
Proof.
  induction s as [|c s IH]; [reflexivity|].
  cbn. rewrite lower_char_not_upper, IH. reflexivity.
Qed.

Lemma normalize_relation_in_on (rel : string) :
  In rel ["in"; "into"; "to"; "on"; "upon"] ->
  normalize_relation rel = "in" \/ normalize_relation rel = "on".
Proof.
  intros [<-|[<-|[<-|[<-|[<-|[]]]]]]; cbn; auto.
Qed.

(** A parsed command is the match of one of the patterns on a lower-cased
    text. *)
Lemma parse_cases (command : string) (a : ParsedAction) :
  _parse_flexible_action_command command = Some a ->
  exists x, all_chars not_upper x = true /\
    (match_open_close x = Some a \/
     exists verb s rel t, match_move verb x = Some (s, rel, t) /\
                          a = Move s (normalize_relation rel) t).
Proof.
  unfold _parse_flexible_action_command.
  set (c := lower (strip command)).
  assert (Hc : all_chars not_upper c = true) by apply lower_not_upper.
  cbn [first_some fold_right].
  destruct (match_open_close c) as [a0|] eqn:E1.
  { intros E. injection E as <-. exists c. split; [exact Hc | left; exact E1]. }
  assert (Hmv : forall verb x r, all_chars not_upper x = true ->
            match_move verb x = Some r ->
            Some (let '(source, rel, target) := r in
                  Move source (normalize_relation rel) target) = Some a ->
            exists x, all_chars not_upper x = true /\
              (match_open_close x = Some a \/
               exists verb s rel t, match_move verb x = Some (s, rel, t) /\
                                    a = Move s (normalize_relation rel) t)).
  { intros verb x [[s rel] t] Hx Em E. injection E as <-.
    exists x. split; [exact Hx|]. right. exists verb, s, rel, t. split; [exact Em | reflexivity]. }
  destruct (eat_action_type_prefix c) as [rest|] eqn:Ep.
  - pose proof (eat_prefix_chars not_upper c rest Hc Ep) as Hr.
    destruct (match_open_close rest) as [a0|] eqn:E2.
    { intros E. injection E as <-. exists rest. split; [exact Hr | left; exact E2]. }
    destruct (match_move "move" c) as [r|] eqn:E3.
    { destruct r as [[? ?] ?]. apply (Hmv "move" c _ Hc E3). }
    destruct (match_move "move" rest) as [r|] eqn:E4.
    { destruct r as [[? ?] ?]. apply (Hmv "move" rest _ Hr E4). }
    destruct (match_move "put" c) as [r|] eqn:E5.
    { destruct r as [[? ?] ?]. apply (Hmv "put" c _ Hc E5). }
    destruct (match_move "put" rest) as [r|] eqn:E6.
    { destruct r as [[? ?] ?]. apply (Hmv "put" rest _ Hr E6). }
    discriminate.
  - destruct (match_move "move" c) as [r|] eqn:E3.
    { destruct r as [[? ?] ?]. apply (Hmv "move" c _ Hc E3). }
    destruct (match_move "put" c) as [r|] eqn:E5.
    { destruct r as [[? ?] ?]. apply (Hmv "put" c _ Hc E5). }
    discriminate.
Qed.

Lemma parsed_move_names (command s r t : string) :
  _parse_flexible_action_command command = Some (Move s r t) ->
  is_name s = true /\ is_name t = true /\ (r = "in" \/ r = "on").
Proof.
  intros E.
  destruct (parse_cases command _ E) as (x & Hx & [H | (verb & s' & rel & t' & H & Ea)]).
  - destruct (match_open_close_shape not_upper x _ Hx H) as (v & n & Ev & _).
    discriminate.
  - injection Ea as -> -> ->.
    destruct (match_move_shape not_upper verb x s' rel t' Hx eq_refl H)
      as (I1 & _ & I3 & I4 & _).
    repeat split; try assumption. apply normalize_relation_in_on. exact I3.
Qed.

End NamesFacts.


(** ** What an accepted command guarantees *)

Module ValidatorMoreFacts.
Import PyStr Scene Validator Samples Names PyStrFacts NamesFacts.

(** Every check an accepted move has passed. *)
Lemma accepted_move_stages (s r t : string) (data : option SceneGraph) :
  is_valid (validate_move s r t data) = true ->
  let a := analysis_of data in
  mem s (all_objects a) = true /\
  fst (_can_move_object s a) = true /\
  fst (_check_action_already_completed s t r a) = false /\
  (_is_cube s = true -> fst (_validate_cube_source_accessibility s a) = true) /\
  (String.eqb t "table" = true -> String.eqb (table_status a) "F" = false) /\
  (String.eqb t "table" = false ->
   mem t (all_objects a) = true /\
   _is_container s && _is_container t = false /\
   fst (_is_valid_target_location t) = true /\
   fst (_can_access_target t a) = true /\
   (_is_cube s = true -> fst (_can_place_cube_in_box s t a) = true)).
Proof.
  unfold validate_move, analysis_of.
  set (a := set_scene_graph_data (_analyze_scene_graph data) data).
  intros H.
  repeat match type of H with
  | context [if ?c then _ else _] => destruct c eqn:?; cbn [is_valid invalid] in H
  end; try discriminate.
  all: repeat match goal with
       | E : negb _ = false |- _ => apply negb_false_iff in E
       | E : negb _ = true |- _ => apply negb_true_iff in E
       | E : _ && _ = true |- _ => apply andb_true_iff in E; destruct E
       end.
  all: cbn [fst snd negb andb] in *.
  all: repeat split; intros; try assumption; try congruence.
  all: try (apply negb_false_iff; assumption).
  all: match goal with
       | E : fst (if _is_cube ?x then _ else _) = true, C : _is_cube ?x = true |- _ =>
           rewrite C in E; exact E
       end.
Qed.
Lemma flat_map_nil {A B} (f : A -> list B) (l : list A) :
  flat_map f l = [] -> forall x, In x l -> f x = [].
Proof.
  induction l as [|a l IH]; intros H x Hx; [contradiction|].
  cbn in H. apply app_eq_nil in H. destruct H as [H1 H2].
  destruct Hx as [<-|Hx]; [exact H1 | apply IH; assumption].
Qed.

Lemma can_move_nothing_on_top (s : string) (a : SceneAnalysis) :
  fst (_can_move_object s a) = true ->
  forall e, In e (an_edges a) -> above_if_on s e = None.
Proof.
  unfold _can_move_object.
  destruct (find_map (above_if_on s) (an_edges a)) eqn:E; [discriminate|].
  intros _. apply find_map_none. exact E.
Qed.

Lemma can_move_container_open (s c : string) (a : SceneAnalysis) :
  source_container s a = Some c -> c <> "" ->
  fst (_can_move_object s a) = true ->
  is_closed (_get_object_state c a) = false /\
  forall e, In e (an_edges a) -> above_if_on c e = None.
Proof.
  unfold source_container, _can_move_object. intros Hc Hne.
  destruct (find_map (above_if_on s) (an_edges a)); [discriminate|].
  rewrite Hc. apply String.eqb_neq in Hne. rewrite Hne.
  destruct (is_closed (_get_object_state c a)); [discriminate|].
  destruct (negb (fst _)); [discriminate|].
  destruct (find_map (above_if_on c) (an_edges a)) eqn:E; [discriminate|].
  intros _. split; [reflexivity|]. apply find_map_none. exact E.
Qed.

Lemma can_access_nothing_on_top (t : string) (a : SceneAnalysis) :
  fst (_can_access_target t a) = true ->
  (forall e, In e (an_edges a) -> above_if_on t e = None) /\
  (contains "lid_box" t || contains "drawer" t = true ->
   is_closed (_get_object_state t a) = false).
Proof.
  unfold _can_access_target.
  destruct (flat_map _ (an_edges a)) eqn:E; [|discriminate].
  intros H. split.
  - intros e He. pose proof (flat_map_nil _ _ E e He) as Hn. cbn in Hn.
    destruct (above_if_on t e); [discriminate | reflexivity].
  - intros Hk. rewrite Hk in H.
    destruct (is_closed (_get_object_state t a)); [discriminate | reflexivity].
Qed.

Lemma parsed_move_validation (command s r t : string) (data : option SceneGraph) :
  _parse_flexible_action_command command = Some (Move s r t) ->
  _validate_action_command command data = validate_move s r t data.
Proof. unfold _validate_action_command. intros ->. reflexivity. Qed.

Lemma nothing_on_top (name e above below : string) :
  above_if_on name e = None -> on_parts e = Some (above, below) -> below <> name.
Proof.
  unfold above_if_on. intros Hn Hp. rewrite Hp in Hn.
  destruct (String.eqb below name) eqn:E; [discriminate|].
  apply String.eqb_neq. exact E.
Qed.

(** X9. When a move is accepted, no edge that splits in two at [(on)] has
    the name of the source as its second part; unless the target is the
    table, none has the name of the target as its second part, and a
    target that is a lid box or a drawer does not read as closed; and the
    container named by the first [(in)] edge of the source does not read
    as closed and is the second part of no such edge.  The parts are
    compared as they are written: a second part that carries a state tag,
    as in [red_mug(on)lid_box(open)], is not the name [lid_box]. *)
Theorem accepted_move_is_unobstructed (command s r t : string) (g : SceneGraph) :
  _parse_flexible_action_command command = Some (Move s r t) ->
  is_valid (_validate_action_command command (Some g)) = true ->
  (forall e above below,
     In e (get_edges g) -> on_parts e = Some (above, below) -> below <> s) /\
  (t <> "table" ->
   (forall e above below,
      In e (get_edges g) -> on_parts e = Some (above, below) -> below <> t) /\
   (contains "lid_box" t || contains "drawer" t = true ->
    is_closed (_get_object_state t (analysis_of (Some g))) = false)) /\
  (forall c, source_container s (analysis_of (Some g)) = Some c -> c <> "" ->
     is_closed (_get_object_state c (analysis_of (Some g))) = false /\
     forall e above below,
       In e (get_edges g) -> on_parts e = Some (above, below) -> below <> c).
Proof.
  intros Hp Hv. rewrite (parsed_move_validation command s r t _ Hp) in Hv.
  destruct (accepted_move_stages s r t (Some g) Hv)
    as (_ & Hmove & _ & _ & _ & Htarget).
  split; [|split].
  - intros e above below Hin He.
    apply (nothing_on_top s e above below); [|exact He].
    apply (can_move_nothing_on_top s _ Hmove e Hin).
  - intros Hne. apply String.eqb_neq in Hne.
    destruct (Htarget Hne) as (_ & _ & _ & Hacc & _).
    destruct (can_access_nothing_on_top t _ Hacc) as [Hn Hc].
    split; [|exact Hc].
    intros e above below Hin He.
    apply (nothing_on_top t e above below); [|exact He]. apply Hn. exact Hin.
  - intros c Hc Hne.
    destruct (can_move_container_open s c _ Hc Hne Hmove) as [Ho Hn].
    split; [exact Ho|].
    intros e above below Hin He.
    apply (nothing_on_top c e above below); [|exact He]. apply Hn. exact Hin.
Qed.

(** X10. When a move is accepted, its source is an object of the scene; a
    target that is the table is not full; any other target is an object of
    the scene, neither a cube nor a mug, and not a container when the
    source is one. *)
Theorem accepted_move_has_a_legal_target (command s r t : string) (g : SceneGraph) :
  _parse_flexible_action_command command = Some (Move s r t) ->
  is_valid (_validate_action_command command (Some g)) = true ->
  let a := analysis_of (Some g) in
  In s (all_objects a) /\
  (t = "table" -> table_status a <> "F") /\
  (t <> "table" ->
   In t (all_objects a) /\ _is_cube t = false /\ _is_mug t = false /\
   (_is_container s = true -> _is_container t = false)).
Proof.
  intros Hp Hv a. rewrite (parsed_move_validation command s r t _ Hp) in Hv.
  destruct (accepted_move_stages s r t (Some g) Hv)
    as (Hs & _ & _ & _ & Htable & Htarget).
  fold a in Hs, Htable, Htarget.
  split; [apply mem_In; exact Hs | split].
  - intros ->. apply String.eqb_neq. apply Htable. reflexivity.
  - intros Hne. apply String.eqb_neq in Hne.
    destruct (Htarget Hne) as (Ht & Hcc & Hvalid & _).
    unfold _is_valid_target_location in Hvalid.
    split; [apply mem_In; exact Ht|].
    destruct (_is_cube t); [discriminate|].
    destruct (_is_mug t); [discriminate|].
    repeat split. intros Hc. rewrite Hc in Hcc. exact Hcc.
Qed.

(** X11. On the same scene graph the commands that open and that close an
    object exclude each other: when the one is accepted, the other is
    rejected as already closed, respectively already open. *)
Theorem open_and_close_exclude_each_other
  (open_command close_command name : string) (data : option SceneGraph) :
  _parse_flexible_action_command open_command = Some (OpenClose "open" name) ->
  _parse_flexible_action_command close_command = Some (OpenClose "close" name) ->
  (is_valid (_validate_action_command open_command data) = true ->
   error_reason (_validate_action_command close_command data)
   = Some (EAlreadyClosed name)) /\
  (is_valid (_validate_action_command close_command data) = true ->
   error_reason (_validate_action_command open_command data)
   = Some (EAlreadyOpen name)).
Proof.
  intros Ho Hc. unfold _validate_action_command. rewrite Ho, Hc.
  unfold _validate_open_close_action.
  destruct data as [g|]; [|split; discriminate].
  destruct (match find_in_nodes name (get_nodes g) with
            | Some st => Some st
            | None => find_in_edges name (get_edges g)
            end) as [[[|]|]|]; cbn; split; intros H; try discriminate; reflexivity.
Qed.

(** X7. Whatever the parser returns, the names in it are not empty,
    consist of letters, digits, the underscore and the slash, and hold no
    upper-case letter; the relation of a move is [in] or [on], the verb of
    the other form is [open] or [close]. *)
Theorem parsed_names_are_lower_case_identifiers (command : string) :
  match _parse_flexible_action_command command with
  | Some (Move s r t) =>
      is_name s = true /\ is_name t = true /\
      all_chars not_upper s = true /\ all_chars not_upper t = true /\
      (r = "in" \/ r = "on")
  | Some (OpenClose verb name) =>
      (verb = "open" \/ verb = "close") /\
      is_name name = true /\ all_chars not_upper name = true
  | None => True
  end.
Proof.
  destruct (_parse_flexible_action_command command) as [a|] eqn:E; [|exact I].
  destruct (parse_cases command a E) as (x & Hx & [H | (verb & s & rel & t & H & ->)]).
  - destruct (match_open_close_shape not_upper x a Hx H) as (v & n & -> & Hn).
    exact Hn.
  - destruct (match_move_shape not_upper verb x s rel t Hx eq_refl H)
      as (I1 & I2 & I3 & I4 & I5).
    repeat split; try assumption. apply normalize_relation_in_on. exact I3.
Qed.

End ValidatorMoreFacts.


(** ** Normal form of commands *)

Module ParserFacts.
Import PyStr Scene Validator Names PyStrFacts NamesFacts.

Lemma is_space_lower_char (c : ascii) : is_space (lower_char c) = is_space c.
Proof. destruct c as [[] [] [] [] [] [] [] []]; vm_compute; reflexivity. Qed.

Lemma lower_char_idem (c : ascii) : lower_char (lower_char c) = lower_char c.
Proof. destruct c as [[] [] [] [] [] [] [] []]; vm_compute; reflexivity. Qed.

Lemma lower_idem (s : string) : lower (lower s) = lower s.
Proof.
  induction s as [|c s IH]; [reflexivity|].
  cbn. rewrite lower_char_idem, IH. reflexivity.
Qed.

Lemma lstrip_lower (s : string) : lstrip (lower s) = lower (lstrip s).
Proof.
  induction s as [|c s IH]; [reflexivity|].
  cbn. rewrite is_space_lower_char. destruct (is_space c); [exact IH | reflexivity].
Qed.

Lemma lower_empty (s : string) : String.eqb (lower s) "" = String.eqb s "".
Proof. destruct s; reflexivity. Qed.

Lemma rstrip_lower (s : string) : rstrip (lower s) = lower (rstrip s).
Proof.
  induction s as [|c s IH]; [reflexivity|].
  cbn. rewrite is_space_lower_char, IH, lower_empty.
  destruct (is_space c && String.eqb (rstrip s) ""); reflexivity.
Qed.

Lemma strip_lower (s : string) : strip (lower s) = lower (strip s).
Proof. unfold strip. rewrite lstrip_lower, rstrip_lower. reflexivity. Qed.

Lemma rstrip_idem (s : string) : rstrip (rstrip s) = rstrip s.
Proof.
  induction s as [|c s IH]; [reflexivity|].
  cbn [rstrip]. destruct (is_space c && String.eqb (rstrip s) "") eqn:E; [reflexivity|].
  cbn [rstrip]. rewrite IH, E. reflexivity.
Qed.

Lemma lstrip_head (s : string) :
  match lstrip s with
  | EmptyString => True
  | String c _ => is_space c = false
  end.
Proof.
  induction s as [|c s IH]; [exact I|].
  cbn. destruct (is_space c) eqn:E; [exact IH | exact E].
Qed.

Lemma strip_idem (s : string) : strip (strip s) = strip s.
Proof.
  unfold strip. pose proof (lstrip_head s) as H.
  destruct (lstrip s) as [|c u]; [reflexivity|].
  cbn [rstrip]. rewrite H. cbn [andb lstrip]. rewrite H.
  cbn [rstrip]. rewrite H. cbn [andb]. rewrite rstrip_idem. reflexivity.
Qed.

Lemma parse_normal (c c' : string) :
  lower (strip c) = lower (strip c') ->
  _parse_flexible_action_command c = _parse_flexible_action_command c'.
Proof. unfold _parse_flexible_action_command. intros ->. reflexivity. Qed.

(** X8. The parser ignores the case of the letters and the white space
    around the command; the validator accepts the lower-cased, stripped
    command exactly when it accepts the command. *)
Theorem parser_ignores_case_and_outer_white_space (command : string) :
  _parse_flexible_action_command (lower command)
  = _parse_flexible_action_command command /\
  _parse_flexible_action_command (strip command)
  = _parse_flexible_action_command command /\
  (forall data,
     is_valid (_validate_action_command (lower (strip command)) data)
     = is_valid (_validate_action_command command data)).
Proof.
  assert (H1 : lower (strip (lower command)) = lower (strip command))
    by (rewrite strip_lower, lower_idem; reflexivity).
  assert (H2 : lower (strip (strip command)) = lower (strip command))
    by (rewrite strip_idem; reflexivity).
  assert (H3 : lower (strip (lower (strip command))) = lower (strip command))
    by (rewrite strip_lower, lower_idem, strip_idem; reflexivity).
  split; [apply parse_normal; exact H1 | split; [apply parse_normal; exact H2|]].
  intros data. unfold _validate_action_command.
  rewrite (parse_normal _ _ H3).
  destruct (_parse_flexible_action_command command) as [[v n|s r t]|]; reflexivity.
Qed.

End ParserFacts.


(** ** Change analysis and completion checks *)

Module CompletionFacts.
Import PyStr Scene Validator Tool Samples Names Completion PyStrFacts NamesFacts
       ValidatorFacts ValidatorMoreFacts.

Lemma set_difference_In (a b : list string) (e : string) :
  In e (set_difference a b) <-> In e a /\ ~ In e b.
Proof.
  unfold set_difference. rewrite nodup_In, filter_In, negb_true_iff.
  rewrite <- (mem_In e b). destruct (mem e b); split; intros [H1 H2];
    split; auto; try discriminate. exfalso. apply H2. reflexivity.
Qed.

Lemma length_zero_ltb {A} (l : list A) : (0 <? List.length l) = false <-> l = [].
Proof.
  destruct l; cbn; split; intros H; try reflexivity; discriminate.
Qed.

(** X12. [_analyze_scene_changes]: the added edges are the edges of the
    final graph that the initial graph lacks, the removed edges those of
    the initial graph that the final graph lacks, both without repetition,
    and [has_changes] is false exactly when the two graphs have the same
    set of edges (the nodes play no part). *)
Theorem change_analysis_is_the_difference_of_the_edge_sets
  (initial final : SceneGraph) :
  let changes := _analyze_scene_changes initial final in
  (forall e, In e (edges_added changes)
             <-> In e (get_edges final) /\ ~ In e (get_edges initial)) /\
  (forall e, In e (edges_removed changes)
             <-> In e (get_edges initial) /\ ~ In e (get_edges final)) /\
  NoDup (edges_added changes) /\ NoDup (edges_removed changes) /\
  (has_changes changes = false
   <-> forall e, In e (get_edges initial) <-> In e (get_edges final)).
Proof.
  cbn zeta. unfold _analyze_scene_changes. cbn [edges_added edges_removed has_changes].
  split; [intros e; apply set_difference_In|].
  split; [intros e; apply set_difference_In|].
  split; [apply NoDup_nodup|]. split; [apply NoDup_nodup|].
  rewrite orb_false_iff, !length_zero_ltb. split.
  - intros [Ha Hr] e.
    split; intros He.
    + destruct (in_dec string_dec e (get_edges final)) as [Hi|Hn]; [exact Hi|].
      assert (Hx : In e (set_difference (get_edges initial) (get_edges final)))
        by (apply set_difference_In; split; assumption).
      rewrite Hr in Hx. contradiction.
    + destruct (in_dec string_dec e (get_edges initial)) as [Hi|Hn]; [exact Hi|].
      assert (Hx : In e (set_difference (get_edges final) (get_edges initial)))
        by (apply set_difference_In; split; assumption).
      rewrite Ha in Hx. contradiction.
  - intros H. split.
    + destruct (set_difference (get_edges final) (get_edges initial)) as [|e l] eqn:E;
        [reflexivity|].
      assert (Hx : In e (set_difference (get_edges final) (get_edges initial)))
        by (rewrite E; left; reflexivity).
      apply set_difference_In in Hx. destruct Hx as [H1 H2].
      exfalso. apply H2, H, H1.
    + destruct (set_difference (get_edges initial) (get_edges final)) as [|e l] eqn:E;
        [reflexivity|].
      assert (Hx : In e (set_difference (get_edges initial) (get_edges final)))
        by (rewrite E; left; reflexivity).
      apply set_difference_In in Hx. destruct Hx as [H1 H2].
      exfalso. apply H2, H, H1.
Qed.

(** The expected edge of a move is the edge the validator looks for. *)
Lemma target_state_of_move (command s r t : string) :
  _parse_flexible_action_command command = Some (Move s r t) ->
  exists kind relation,
    _parse_action_target_state command
    = TargetMove kind s t relation (s ++ "(" ++ r ++ ")" ++ t).
Proof.
  intros E. unfold _parse_action_target_state. rewrite E.
  destruct (parsed_move_names command s r t E) as (_ & _ & [-> | ->]).
  - destruct (String.eqb t "table"); eexists; eexists; reflexivity.
  - destruct (String.eqb t "table"); eexists; eexists; reflexivity.
Qed.

(** X13. When [_check_action_completion] reports the target state of a
    command as reached in a graph, the command is a move whose edge
    source(relation)target is in that graph, and the validator does not
    accept the command on that graph. *)
Theorem completed_action_is_not_validated_again
  (command : string) (current initial : SceneGraph) :
  fst (_check_action_completion (_parse_action_target_state command) current initial)
  = true ->
  (exists s r t, _parse_flexible_action_command command = Some (Move s r t) /\
                 In (s ++ "(" ++ r ++ ")" ++ t) (get_edges current)) /\
  is_valid (_validate_action_command command (Some current)) = false.
Proof.
  intros H.
  destruct (_parse_flexible_action_command command) as [[v n|s r t]|] eqn:E.
  - unfold _parse_action_target_state in H. rewrite E in H. discriminate.
  - destruct (target_state_of_move command s r t E) as (kind & rel & Ets).
    rewrite Ets in H. cbn [_check_action_completion] in H.
    destruct (String.eqb _ "" || String.eqb s ""); [discriminate|].
    destruct (mem (s ++ "(" ++ r ++ ")" ++ t) (get_edges current)) eqn:Em;
      [|discriminate].
    split.
    + exists s, r, t. split; [reflexivity | apply mem_In; exact Em].
    + unfold _validate_action_command. rewrite E.
      apply (validate_move_with_expected_edge s r t current Em).
  - unfold _parse_action_target_state in H. rewrite E in H. discriminate.
Qed.

(** X14. When [_check_source_object_removed_from_initial_position] answers
    true for two edge lists, the change analysis of the two graphs reports
    changes, and one of its removed edges mentions the source object. *)
Theorem removed_source_shows_in_the_change_analysis
  (source_object : string) (initial final : SceneGraph) :
  _check_source_object_removed_from_initial_position
    source_object (get_edges initial) (get_edges final) = true ->
  has_changes (_analyze_scene_changes initial final) = true /\
  exists edge, In edge (edges_removed (_analyze_scene_changes initial final)) /\
               contains source_object edge = true.
Proof.
  unfold _check_source_object_removed_from_initial_position.
  set (rel := filter _ (get_edges initial)).
  destruct (existsb (fun r => mem r (get_edges final)) rel) eqn:Ex; [discriminate|].
  destruct rel as [|edge rest] eqn:Er; [discriminate|]. intros _.
  assert (Hin : In edge rel) by (rewrite Er; left; reflexivity).
  unfold rel in Hin. apply filter_In in Hin. destruct Hin as [Hi Hc].
  apply andb_true_iff in Hc. destruct Hc as [Hc _].
  assert (Hnf : ~ In edge (get_edges final)).
  { intros Hf. apply mem_In in Hf. cbn in Ex. rewrite Hf in Ex. discriminate. }
  assert (Hr : In edge (set_difference (get_edges initial) (get_edges final)))
    by (apply set_difference_In; split; assumption).
  split.
  - unfold _analyze_scene_changes. cbn [has_changes].
    destruct (set_difference (get_edges initial) (get_edges final));
      [contradiction | apply orb_true_r].
  - exists edge. split; [exact Hr | exact Hc].
Qed.

End CompletionFacts.


(** ** Cubes and the table *)

Module CubeFacts.
Import PyStr Scene Validator Tool Samples Names MoreSamples PyStrFacts NamesFacts
       ValidatorFacts ValidatorMoreFacts.

(** X28. When the move of a cube is accepted, the first edge that places
    the cube gives it a location that is not empty; when the location is
    not the table, the list of objects the check collects from the edges
    that end with [(on)location] is empty; when the target is not the
    table, the list collected from the edges that end with [(on)target] is
    empty and the edges that end with [(in)target] count fewer than ten
    cubes.  The tests are on the text of the edges: an edge that ends with
    a state tag, as [red_mug(on)lid_box(open)], is none that ends with
    [(on)lid_box]. *)
Theorem accepted_cube_move_has_a_clear_source_and_room
  (command s r t : string) (g : SceneGraph) :
  _parse_flexible_action_command command = Some (Move s r t) ->
  is_valid (_validate_action_command command (Some g)) = true ->
  _is_cube s = true ->
  exists location via_in,
    cube_location s (get_edges g) = Some (location, via_in) /\
    location <> "" /\
    (location <> "table" -> objects_on location (get_edges g) = []) /\
    (t <> "table" ->
     objects_on t (get_edges g) = [] /\
     List.length (filter _is_cube (objects_in t (get_edges g))) < 10).
Proof.
  intros Hp Hv Hc. rewrite (parsed_move_validation command s r t _ Hp) in Hv.
  destruct (accepted_move_stages s r t (Some g) Hv)
    as (_ & _ & _ & Hsrc & _ & Htarget).
  specialize (Hsrc Hc). unfold _validate_cube_source_accessibility in Hsrc.
  change (an_edges (analysis_of (Some g))) with (get_edges g) in Hsrc.
  destruct (cube_location s (get_edges g)) as [[location via_in]|] eqn:El;
    [|discriminate].
  exists location, via_in. split; [reflexivity|].
  destruct (String.eqb location "") eqn:Ee; [discriminate|].
  apply String.eqb_neq in Ee. split; [exact Ee|]. split.
  - intros Hnt. apply String.eqb_neq in Hnt. rewrite Hnt in Hsrc.
    assert (Hcc : (if via_in then true else negb false) = true)
      by (destruct via_in; reflexivity).
    rewrite Hcc in Hsrc.
    destruct (objects_on location (get_edges g)); [reflexivity | discriminate].
  - intros Hnt. apply String.eqb_neq in Hnt.
    destruct (Htarget Hnt) as (_ & _ & _ & _ & Hplace).
    specialize (Hplace Hc). unfold _can_place_cube_in_box in Hplace.
    change (an_edges (analysis_of (Some g))) with (get_edges g) in Hplace.
    destruct (match cube_location s (get_edges g) with
              | Some (loc, true) => _
              | _ => None
              end) as [[? ?]|]; [discriminate|].
    destruct (objects_on t (get_edges g)); [|discriminate].
    destruct (10 <=? List.length (filter _is_cube (objects_in t (get_edges g)))) eqn:E;
      [discriminate|].
    apply Nat.leb_gt in E. split; [reflexivity | exact E].
Qed.

Lemma not_table_In (name x : string) : In x (not_table name) -> x <> "table".
Proof.
  unfold not_table. destruct (String.eqb name "table") eqn:E; [intros []|].
  intros [<-|[]]. apply String.eqb_neq. exact E.
Qed.

Lemma table_is_no_object (data : option SceneGraph) :
  ~ In "table" (all_objects (analysis_of data)).
Proof.
  unfold analysis_of, set_scene_graph_data, _analyze_scene_graph.
  destruct data as [g|]; cbn [all_objects]; [|intros []].
  intros H. apply in_app_or in H. destruct H as [H|H].
  - apply in_flat_map in H. destruct H as (e & _ & H). unfold edge_objects in H.
    destruct (contains "(on)" e || contains "(in)" e); [|contradiction].
    destruct (if contains "(on)" e then split "(on)" e else split "(in)" e)
      as [|a [|b [|? ?]]]; try contradiction.
    apply in_app_or in H. destruct H as [H|H]; apply not_table_In in H; congruence.
  - apply in_flat_map in H. destruct H as (n & _ & H). unfold node_objects in H.
    destruct n as [nm|z]; [|contradiction].
    destruct (String.eqb (clean nm) ""); [contradiction|].
    apply not_table_In in H. congruence.
Qed.

(** X29. The table is never among the objects of the scene analysis: a
    command that moves the table is rejected with the reason that the
    source is not in the scene, whatever the scene graph (also none). *)
Theorem table_is_never_moved (command relation target : string) (data : option SceneGraph) :
  _parse_flexible_action_command command = Some (Move "table" relation target) ->
  _validate_action_command command data
  = invalid (ESourceNotFound "table") (move_details 0).
Proof.
  intros Hp. rewrite (parsed_move_validation command "table" relation target _ Hp).
  unfold validate_move. fold (analysis_of data).
  destruct (mem "table" (all_objects (analysis_of data))) eqn:E; [|reflexivity].
  apply mem_In in E. exfalso. apply (table_is_no_object data E).
Qed.

End CubeFacts.


(** ** Open and close *)

Module StateTagFacts.
Import PyStr Scene Validator Names StateTags PyStrFacts NamesFacts.

Lemma contains_paren_after_name (tl x s : string) :
  all_chars ident_char x = true ->
  contains (String "(" tl) (x ++ s) = contains (String "(" tl) s.
Proof.
  intros H. induction x as [|c x IH]; [reflexivity|].
  cbn [all_chars] in H. apply andb_true_iff in H. destruct H as [Hc Hx].
  apply ident_char_plain in Hc. destruct Hc as [_ Hc].
  change (String c x ++ s) with (String c (x ++ s)). cbn [contains].
  rewrite (prefix_paren tl (x ++ s) c Hc). cbn [orb]. apply IH. exact Hx.
Qed.

Lemma tag_of_tagged (x : string) (st : ObjState) :
  all_chars ident_char x = true -> tag_of (x ++ state_tag st) = Some st.
Proof.
  intros H. unfold tag_of.
  rewrite (contains_paren_after_name "open)" x _ H).
  rewrite (contains_paren_after_name "closed)" x _ H).
  destruct st; reflexivity.
Qed.

Lemma append_not_self (x s : string) : s <> "" -> String.eqb (x ++ s) x = false.
Proof.
  intros Hs. apply String.eqb_neq.
  induction x as [|c x IH]; [exact Hs|].
  intros E. cbn in E. injection E as E. apply IH. exact E.
Qed.

Lemma find_in_tagged_nodes (x : string) (st : ObjState) (earlier later : list node) :
  all_chars ident_char x = true ->
  forallb (passed_over x) earlier = true ->
  find_in_nodes x (earlier ++ NStr (x ++ state_tag st) :: later)%list = Some (Some st).
Proof.
  intros Hx. induction earlier as [|n earlier IH]; intros He.
  - cbn [app find_in_nodes str_of_node].
    rewrite (append_not_self x (state_tag st)) by (destruct st; discriminate).
    assert (Hp : startswith (x ++ "(") (x ++ state_tag st) = true).
    { unfold startswith.
      destruct st; cbn [state_tag].
      - change "(open)" with ("(" ++ "open)"). rewrite <- append_assoc. apply prefix_app.
      - change "(closed)" with ("(" ++ "closed)"). rewrite <- append_assoc. apply prefix_app. }
    rewrite Hp, (tag_of_tagged x st Hx). reflexivity.
  - cbn [forallb] in He. apply andb_true_iff in He. destruct He as [Hn He].
    unfold passed_over in Hn. apply andb_true_iff in Hn. destruct Hn as [H1 H2].
    apply negb_true_iff in H1, H2.
    cbn [app find_in_nodes]. rewrite H1, H2. apply IH. exact He.
Qed.

(** X30. When the first node of the scene graph that names an object
    (equals its name or starts with the name and a parenthesis) carries
    the tag (closed), the command that opens the object is accepted and
    the one that closes it is rejected; with the tag (open) it is the
    other way round. *)
Theorem first_tagged_node_decides_open_and_close
  (open_command close_command name : string) (g : SceneGraph) (st : ObjState)
  (earlier later : list node) :
  _parse_flexible_action_command open_command = Some (OpenClose "open" name) ->
  _parse_flexible_action_command close_command = Some (OpenClose "close" name) ->
  get_nodes g = (earlier ++ NStr (name ++ state_tag st) :: later)%list ->
  forallb (passed_over name) earlier = true ->
  is_valid (_validate_action_command open_command (Some g))
  = (match st with StClosed => true | StOpen => false end) /\
  is_valid (_validate_action_command close_command (Some g))
  = (match st with StOpen => true | StClosed => false end).
Proof.
  intros Ho Hc Hn He.
  assert (Hname : all_chars ident_char name = true).
  { destruct (parse_cases open_command _ Ho) as (x & Hx & [H | (v & s & r & t & _ & E)]);
      [|discriminate].
    destruct (match_open_close_shape not_upper x _ Hx H) as (v & n & E & _ & Hi & _).
    injection E as _ ->. apply is_name_chars. exact Hi. }
  unfold _validate_action_command. rewrite Ho, Hc.
  unfold _validate_open_close_action.
  rewrite Hn, (find_in_tagged_nodes name st earlier later Hname He).
  destruct st; split; reflexivity.
Qed.

End StateTagFacts.


(** ** The calls of the tool *)

Module ToolMoreFacts.
Import PyStr Scene Validator Tool Samples Calls PyStrFacts ToolFacts.

Lemma polled_refl w : polled w w.
Proof. repeat split. left. reflexivity. Qed.

Lemma polled_trans w1 w2 w3 : polled w1 w2 -> polled w2 w3 -> polled w1 w3.
Proof.
  intros (T1 & A1 & B1 & C1) (T2 & A2 & B2 & C2).
  repeat split; try congruence.
  destruct T1 as [T1|T1], T2 as [T2|T2]; rewrite T2, T1; auto.
Qed.

Lemma rclpy_spin_once_polled w w' : rclpy_spin_once w = Returned w' -> polled w w'.
Proof.
  unfold rclpy_spin_once. destruct (bus w) as [|ev rest].
  - intros H. injection H as <-. apply polled_refl.
  - destruct ev as [|d m|[|]|e]; intros H; try discriminate; injection H as <-;
      repeat split; cbn; auto.
Qed.

Lemma spin_once_polled w : polled w (spin_once w).
Proof.
  unfold spin_once. destruct (rclpy_spin_once w) as [w'|e] eqn:E.
  - apply rclpy_spin_once_polled. exact E.
  - repeat split. left. reflexivity.
Qed.

Lemma force_refresh_polled n old w : polled w (force_refresh_from_ros n old w).
Proof.
  revert w. induction n as [|n IH]; intros w; cbn [force_refresh_from_ros].
  - apply polled_refl.
  - destruct (old <? parse_success_count (manager (spin_once w))).
    + apply spin_once_polled.
    + eapply polled_trans; [apply spin_once_polled | apply IH].
Qed.

Lemma pump_polled w w1 : pump w = Returned w1 -> polled w w1.
Proof.
  unfold pump. destruct (agent (tool w)); [|destruct (_ros_node (tool w))].
  - intros H. injection H as <-. apply spin_once_polled.
  - apply rclpy_spin_once_polled.
  - intros H. injection H as <-. apply polled_refl.
Qed.

(** The refresh keeps the outbox and stores the graph it returns. *)
Lemma refresh_and_snapshot_outbox w :
  publisher (snd (refresh_and_snapshot w)) = publisher w /\
  published (snd (refresh_and_snapshot w)) = published w.
Proof.
  unfold refresh_and_snapshot, _smart_refresh_scene_graph, get_current_raw_msg.
  cbn [snd set_tool publisher published].
  set (w1 := if agent (tool w) then spin_once w else w).
  assert (H1 : polled w w1).
  { subst w1. destruct (agent (tool w)); [apply spin_once_polled | apply polled_refl]. }
  set (w2 := if agent (tool w1) || store_agent (tool w1) then _ else w1).
  assert (H2 : polled w1 w2).
  { subst w2. destruct (agent (tool w1) || store_agent (tool w1));
      [apply force_refresh_polled | apply polled_refl]. }
  destruct (polled_trans _ _ _ H1 H2) as (_ & A & B & _). split; assumption.
Qed.

Lemma polled_init_data w w' :
  polled w w' ->
  init_scene_graph_data (tool w') = init_scene_graph_data (tool w) /\
  init_raw_data (tool w') = init_raw_data (tool w).
Proof. intros ([-> | ->] & _); split; reflexivity. Qed.

(** The three ways the wait loop ends. *)
Lemma wait_loop_outcome fuel initial query w :
  let r := wait_loop fuel initial query w in
  publisher (snd r) = publisher w /\ published (snd r) = published w /\
  ((fst r = _format_success_response initial
              (current_scene_graph (manager (snd r))) query /\
    init_scene_graph_data (tool (snd r))
    = Some (current_scene_graph (manager (snd r)))) \/
   ((fst r = ExecutionTimeout (current_scene_graph (manager (snd r))) \/
     exists e, fst r = ExecutionError e (current_scene_graph (manager (snd r)))) /\
    init_scene_graph_data (tool (snd r)) = init_scene_graph_data (tool w))).
Proof.
  revert w. induction fuel as [|fuel IH]; intros w; cbn [wait_loop].
  - cbn. repeat split. right. split; [left; reflexivity | reflexivity].
  - destruct (pump w) as [w1|e] eqn:Ep.
    + pose proof (pump_polled w w1 Ep) as Hp.
      destruct (polled_init_data w w1 Hp) as [Hi _].
      destruct Hp as (_ & A & B & _).
      destruct (trigger_received (tool w1)).
      * destruct (refresh_and_snapshot_outbox w1) as [A' B'].
        destruct (refresh_and_snapshot_config w1) as (_ & Hg & Hd).
        destruct (refresh_and_snapshot w1) as [final w2]. cbn [fst snd] in *.
        repeat split; try congruence. left. split; congruence.
      * destruct (IH w1) as (A' & B' & H).
        split; [congruence | split; [congruence|]].
        destruct H as [H|[H Hd]]; [left; exact H | right; split; [exact H | congruence]].
    + cbn. repeat split. right. split; [right; eexists; reflexivity | reflexivity].
Qed.

(** An event that is not the signal is consumed by the pump. *)
Lemma pump_consumes w ev rest :
  agent (tool w) || _ros_node (tool w) = true ->
  bus w = ev :: rest -> quiet_event (agent (tool w)) ev = true ->
  trigger_received (tool w) = false ->
  exists w1, pump w = Returned w1 /\ trigger_received (tool w1) = false /\
             agent (tool w1) = agent (tool w) /\ _ros_node (tool w1) = _ros_node (tool w) /\
             bus w1 = rest.
Proof.
  intros Hn Hb Hq Ht. unfold pump, spin_once, rclpy_spin_once, drop_event. rewrite Hb.
  destruct (agent (tool w)) eqn:Ea; [|destruct (_ros_node (tool w)) eqn:Er].
  - destruct ev as [|d m|[|]|e]; cbn in Hq; try discriminate;
      eexists; (split; [reflexivity|]); cbn; rewrite ?Hb; repeat split; auto.
  - destruct ev as [|d m|[|]|e]; cbn in Hq; try discriminate;
      eexists; (split; [reflexivity|]); cbn; rewrite ?Hb; repeat split; auto.
  - discriminate.
Qed.

Lemma pump_signal w rest :
  agent (tool w) || _ros_node (tool w) = true ->
  bus w = EvTrigger true :: rest ->
  exists w1, pump w = Returned w1 /\ trigger_received (tool w1) = true.
Proof.
  intros Hn Hb. unfold pump, spin_once, rclpy_spin_once. rewrite Hb.
  destruct (agent (tool w)); [|destruct (_ros_node (tool w))].
  - eexists. split; reflexivity.
  - eexists. split; reflexivity.
  - discriminate.
Qed.

Lemma wait_loop_success fuel initial query w :
  agent (tool w) || _ros_node (tool w) = true ->
  signal_within (agent (tool w)) fuel (bus w) = true ->
  trigger_received (tool w) = false ->
  fst (wait_loop fuel initial query w)
  = _format_success_response initial
      (current_scene_graph (manager (snd (wait_loop fuel initial query w)))) query /\
  init_scene_graph_data (tool (snd (wait_loop fuel initial query w)))
  = Some (current_scene_graph (manager (snd (wait_loop fuel initial query w)))).
Proof.
  revert w. induction fuel as [|fuel IH]; intros w Hn Hs Ht; [discriminate|].
  destruct (bus w) as [|ev rest] eqn:Hb; [discriminate|].
  cbn [wait_loop].
  assert (Hcase : ev = EvTrigger true \/
                  (quiet_event (agent (tool w)) ev = true /\
                   signal_within (agent (tool w)) fuel rest = true)).
  { cbn [signal_within] in Hs. destruct ev as [|d m|[|]|e]; auto; right;
      apply andb_true_iff in Hs; exact Hs. }
  destruct Hcase as [-> | [Hq Hs']].
  - destruct (pump_signal w rest Hn Hb) as (w1 & Ep & Ht1). rewrite Ep, Ht1.
    destruct (refresh_and_snapshot_config w1) as (_ & Hg & Hd).
    destruct (refresh_and_snapshot w1) as [final w2]. cbn [fst snd] in *.
    split; congruence.
  - destruct (pump_consumes w ev rest Hn Hb Hq Ht) as (w1 & Ep & Ht1 & Ea & Er & Hb1).
    rewrite Ep, Ht1. apply IH; [congruence | rewrite Ea, Hb1; exact Hs' | exact Ht1].
Qed.

(** The branch of [execute] for a command that validates. *)
Lemma execute_validated w query :
  validates_successfully w query ->
  exists g,
    validation_snapshot w = Some g /\
    execute w query
    = (Returned (fst (wait_loop (poll_budget w) g query (waiting_world w query))),
       let w1 := snd (wait_loop (poll_budget w) g query (waiting_world w query)) in
       set_tool w1 (set_trigger (tool w1) false)).
Proof.
  intros (Hcf & Hq & Hv). unfold execute.
  apply Nat.leb_gt in Hcf. rewrite Hcf.
  apply String.eqb_neq in Hq. rewrite Hq.
  rewrite execute_snapshot, Hv. cbn [negb].
  destruct (validation_snapshot w) as [g|] eqn:Eg.
  2:{ destruct (none_graph_is_rejected query) as [Hn _]. congruence. }
  exists g. split; [reflexivity|].
  unfold _execute_action. fold (validated_world w). fold (waiting_world w query).
  assert (Hp : poll_budget (waiting_world w query) = poll_budget w).
  { unfold waiting_world. cbn [poll_budget set_tool].
    destruct (publish_steps_fields (validated_world w) query) as (_ & _ & _ & Hp).
    rewrite Hp. reflexivity. }
  rewrite Hp.
  destruct (wait_loop (poll_budget w) g query (waiting_world w query)) as [p w1].
  reflexivity.
Qed.

Lemma validated_world_fields w :
  manager (validated_world w) = manager w /\ bus (validated_world w) = bus w /\
  poll_budget (validated_world w) = poll_budget w /\
  publisher (validated_world w) = publisher w /\
  published (validated_world w) = published w /\
  agent (tool (validated_world w)) = agent (tool w) /\
  _ros_node (tool (validated_world w)) = _ros_node (tool w) /\
  init_scene_graph_data (tool (validated_world w)) = validation_snapshot w /\
  init_raw_data (tool (validated_world w))
  = (if validation_count (tool w) + 1 =? 1
     then raw_msg (manager w) else init_raw_data (tool w)) /\
  validation_count (tool (validated_world w)) = validation_count (tool w) + 1 /\
  success_count (tool (validated_world w)) = success_count (tool w) + 1 /\
  consecutive_failures (tool (validated_world w)) = 0.
Proof.
  unfold validated_world, validation_snapshot.
  destruct (validation_count (tool w) + 1 =? 1); repeat split.
Qed.

Lemma publish_publisher (w : World) (m : Publication) :
  publisher (publish w m) = publisher w.
Proof. unfold publish. destruct (publisher w) as [[u|e]|] eqn:E; cbn; congruence. Qed.

Lemma publish_steps_publisher (w : World) (query : string) :
  publisher (_publish_init_raw_msg (_publish_action_cmd w query)) = publisher w.
Proof.
  unfold _publish_init_raw_msg, _publish_action_cmd.
  destruct (init_raw_data (tool (publish w _))).
  - rewrite !publish_publisher. reflexivity.
  - apply publish_publisher.
Qed.

Lemma waiting_world_fields w query :
  manager (waiting_world w query) = manager w /\
  bus (waiting_world w query) = bus w /\
  poll_budget (waiting_world w query) = poll_budget w /\
  publisher (waiting_world w query) = publisher w /\
  trigger_received (tool (waiting_world w query)) = false /\
  agent (tool (waiting_world w query)) = agent (tool w) /\
  _ros_node (tool (waiting_world w query)) = _ros_node (tool w) /\
  init_scene_graph_data (tool (waiting_world w query)) = validation_snapshot w /\
  validation_count (tool (waiting_world w query)) = validation_count (tool w) + 1 /\
  success_count (tool (waiting_world w query)) = success_count (tool w) + 1 /\
  consecutive_failures (tool (waiting_world w query)) = 0.
Proof.
  destruct (validated_world_fields w)
    as (Vm & Vb & Vp & Vpub & Vd & Va & Vn & Vi & Vr & Vc & Vs & Vf).
  destruct (publish_steps_fields (validated_world w) query) as (Pm & Pt & Pb & Pp).
  unfold waiting_world.
  cbn [manager bus poll_budget publisher tool set_tool trigger_received set_trigger
       agent _ros_node init_scene_graph_data validation_count success_count
       consecutive_failures].
  rewrite Pm, Pt, Pb, Pp.
  rewrite publish_steps_publisher.
  repeat split; assumption.
Qed.

Lemma waiting_world_published w query :
  publisher w = Some (Returned tt) ->
  published (waiting_world w query) = (published w ++ publications_of w query)%list.
Proof.
  intros Hpub.
  destruct (validated_world_fields w)
    as (_ & _ & _ & Vpub & Vd & _ & _ & _ & Vr & _).
  unfold waiting_world, publications_of. cbn [published set_tool]. rewrite <- Vr.
  unfold _publish_init_raw_msg, _publish_action_cmd, publish.
  rewrite Vpub, Hpub. cbn [tool init_raw_data publisher published].
  destruct (init_raw_data (tool (validated_world w))) as [json_str|].
  - cbn [published]. rewrite Vd, <- app_assoc. reflexivity.
  - cbn [published]. rewrite Vd. reflexivity.
Qed.

Lemma execute_failed w query :
  fails_validation w query ->
  execute w query
  = (Returned (ValidationFailed
                 (_validate_action_command query (validation_snapshot w))
                 (fst (refresh_and_snapshot (failed_world w)))
                 (consecutive_failures (tool w) + 1)),
     snd (refresh_and_snapshot (failed_world w))).
Proof.
  intros (Hcf & Hq & Hv). unfold execute.
  apply Nat.leb_gt in Hcf. rewrite Hcf.
  apply String.eqb_neq in Hq. rewrite Hq.
  rewrite execute_snapshot, Hv. cbn [negb].
  unfold failed_world, counted_world.
  destruct (validation_count (tool w) + 1 =? 1);
    cbn [tool set_tool set_init_data set_counters consecutive_failures success_count
         get_current_raw_msg];
    destruct (refresh_and_snapshot _) as [g w3]; reflexivity.
Qed.

Lemma failed_world_fields w :
  publisher (failed_world w) = publisher w /\
  published (failed_world w) = published w /\
  validation_count (tool (failed_world w)) = validation_count (tool w) + 1 /\
  success_count (tool (failed_world w)) = success_count (tool w) /\
  consecutive_failures (tool (failed_world w)) = consecutive_failures (tool w) + 1.
Proof.
  unfold failed_world, counted_world.
  destruct (validation_count (tool w) + 1 =? 1); repeat split.
Qed.

Lemma execute_empty w query :
  consecutive_failures (tool w) < max_consecutive_failures -> strip query = "" ->
  execute w query = (Returned (NoCommand (validation_snapshot w)), counted_world w).
Proof.
  intros Hcf Hq. unfold execute.
  apply Nat.leb_gt in Hcf. rewrite Hcf, Hq. cbn [String.eqb].
  rewrite execute_snapshot. reflexivity.
Qed.

Lemma counted_world_fields w :
  manager (counted_world w) = manager w /\ bus (counted_world w) = bus w /\
  publisher (counted_world w) = publisher w /\
  published (counted_world w) = published w /\
  validation_count (tool (counted_world w)) = validation_count (tool w) + 1 /\
  success_count (tool (counted_world w)) = success_count (tool w) /\
  consecutive_failures (tool (counted_world w)) = consecutive_failures (tool w).
Proof.
  unfold counted_world. destruct (validation_count (tool w) + 1 =? 1); repeat split.
Qed.

Lemma execute_exhausted w query :
  max_consecutive_failures <= consecutive_failures (tool w) ->
  execute w query
  = (Returned (TaskFailed max_consecutive_failures (init_scene_graph_data (tool w))),
     set_tool w (set_counters (tool w) (validation_count (tool w) + 1)
                   (success_count (tool w)) 0)).
Proof.
  intros H. unfold execute. apply Nat.leb_le in H. rewrite H. reflexivity.
Qed.

(** The command of a call is empty, fails the validation or passes it,
    unless the failure counter has reached its limit. *)
Lemma call_cases w query :
  max_consecutive_failures <= consecutive_failures (tool w) \/
  (consecutive_failures (tool w) < max_consecutive_failures /\ strip query = "") \/
  fails_validation w query \/ validates_successfully w query.
Proof.
  unfold fails_validation, validates_successfully.
  destruct (Nat.le_gt_cases max_consecutive_failures (consecutive_failures (tool w)))
    as [H|H]; [left; exact H | right].
  destruct (string_dec (strip query) "") as [E|E]; [left; split; assumption | right].
  destruct (is_valid (_validate_action_command query (validation_snapshot w)));
    [right | left]; repeat split; assumption.
Qed.

Lemma task_failure_needs_the_limit (w : World) (query : string) (n : nat)
  (g : option SceneGraph) :
  fst (execute w query) = Returned (TaskFailed n g) ->
  max_consecutive_failures <= consecutive_failures (tool w).
Proof.
  intros E.
  destruct (call_cases w query) as [H|[[Hc Hq]|[H|H]]]; [exact H | | |].
  - rewrite (execute_empty w query Hc Hq) in E. discriminate.
  - rewrite (execute_failed w query H) in E. discriminate.
  - destruct (validated_command_resets_failures w query H) as (_ & p & Ep & _ & Hs).
    rewrite Ep in E. injection E as ->. exfalso. apply Hs. reflexivity.
Qed.

(** X15. [execute] answers with the task failure exactly when the failure
    counter has reached its limit (5) at the call; the answer then carries
    the snapshot the tool kept, the counter goes back to zero, and the
    store, the bus and the published messages are untouched: the command
    is neither validated nor sent. *)
Theorem task_failure_is_returned_exactly_at_the_limit (w : World) (query : string) :
  ((exists n g, fst (execute w query) = Returned (TaskFailed n g))
   <-> max_consecutive_failures <= consecutive_failures (tool w)) /\
  (max_consecutive_failures <= consecutive_failures (tool w) ->
   fst (execute w query)
   = Returned (TaskFailed max_consecutive_failures (init_scene_graph_data (tool w))) /\
   consecutive_failures (tool (snd (execute w query))) = 0 /\
   manager (snd (execute w query)) = manager w /\
   bus (snd (execute w query)) = bus w /\
   published (snd (execute w query)) = published w).
Proof.
  split.
  - split.
    + intros (n & g & E). apply (task_failure_needs_the_limit w query n g E).
    + intros H. rewrite (execute_exhausted w query H). eexists. eexists. reflexivity.
  - intros H. rewrite (execute_exhausted w query H). repeat split.
Qed.

Lemma execute_counters w query :
  let w' := snd (execute w query) in
  validation_count (tool w') = validation_count (tool w) + 1 /\
  success_count (tool w) <= success_count (tool w') <= success_count (tool w) + 1 /\
  (consecutive_failures (tool w) <= max_consecutive_failures ->
   consecutive_failures (tool w') <= max_consecutive_failures).
Proof.
  cbn zeta.
  destruct (call_cases w query) as [H|[[Hc Hq]|[H|H]]].
  - rewrite (execute_exhausted w query H). cbn. repeat split; lia.
  - rewrite (execute_empty w query Hc Hq).
    destruct (counted_world_fields w) as (_ & _ & _ & _ & Hv & Hs & Hf).
    cbn [snd]. rewrite Hv, Hs, Hf. repeat split; lia.
  - rewrite (execute_failed w query H). cbn [snd].
    destruct (refresh_and_snapshot_config (failed_world w))
      as ((Cv & Cs & Cf & _) & _).
    destruct (failed_world_fields w) as (_ & _ & Hv & Hs & Hf).
    destruct H as (Hlt & _).
    rewrite Cv, Cs, Cf, Hv, Hs, Hf. repeat split; lia.
  - destruct (execute_validated w query H) as (g & _ & E). rewrite E. cbn [snd].
    cbn [tool set_tool set_trigger validation_count success_count consecutive_failures].
    destruct (wait_loop_config (poll_budget w) g query (waiting_world w query))
      as (Cv & Cs & Cf & _).
    destruct (waiting_world_fields w query)
      as (_ & _ & _ & _ & _ & _ & _ & _ & Hv & Hs & Hf).
    rewrite Cv, Cs, Cf, Hv, Hs, Hf. repeat split; lia.
Qed.

(** X16. Over any sequence of commands the failure counter never exceeds
    its limit, [validation_count] grows by one for each call and
    [success_count] by at most one for each call. *)
Theorem counters_after_any_commands (w : World) (queries : list string) :
  consecutive_failures (tool w) <= max_consecutive_failures ->
  let w' := run_commands w queries in
  consecutive_failures (tool w') <= max_consecutive_failures /\
  validation_count (tool w') = validation_count (tool w) + List.length queries /\
  success_count (tool w) <= success_count (tool w')
    <= success_count (tool w) + List.length queries.
Proof.
  revert w. induction queries as [|q qs IH]; intros w Hw.
  - cbn. repeat split; lia.
  - cbn zeta. unfold run_commands. cbn [fold_left].
    fold (run_commands (snd (execute w q)) qs).
    destruct (execute_counters w q) as (Hv & Hs & Hf).
    destruct (IH (snd (execute w q)) (Hf Hw)) as (I1 & I2 & I3).
    cbn [List.length]. repeat split; lia.
Qed.

(** X17. A call whose command does not validate publishes nothing.  A call
    whose command validates publishes, when the publisher works, the
    cleaned command and after it the text of the initial scene graph when
    the tool has one; when the publisher is missing or raises, it
    publishes nothing. *)
Theorem only_validated_commands_are_published (w : World) (query : string) :
  (~ validates_successfully w query ->
   published (snd (execute w query)) = published w) /\
  (validates_successfully w query ->
   published (snd (execute w query))
   = match publisher w with
     | Some (Returned _) => (published w ++ publications_of w query)%list
     | _ => published w
     end).
Proof.
  split.
  - intros Hn.
    destruct (call_cases w query) as [H|[[Hc Hq]|[H|H]]]; [| | |contradiction].
    + rewrite (execute_exhausted w query H). reflexivity.
    + rewrite (execute_empty w query Hc Hq). apply counted_world_fields.
    + rewrite (execute_failed w query H). cbn [snd].
      destruct (refresh_and_snapshot_outbox (failed_world w)) as [_ ->].
      apply failed_world_fields.
  - intros H. destruct (execute_validated w query H) as (g & _ & E). rewrite E.
    cbn [snd published set_tool].
    destruct (wait_loop_outcome (poll_budget w) g query (waiting_world w query))
      as (_ & -> & _).
    destruct (publisher w) as [[[]|e]|] eqn:Ep.
    + apply waiting_world_published. exact Ep.
    + destruct (validated_world_fields w) as (_ & _ & _ & Vpub & Vd & _).
      unfold waiting_world. cbn [published set_tool].
      unfold _publish_init_raw_msg, _publish_action_cmd, publish.
      rewrite Vpub, Ep. cbn [tool init_raw_data].
      destruct (init_raw_data (tool (validated_world w)));
        cbn [publisher]; rewrite ?Vpub, ?Ep; exact Vd.
    + destruct (validated_world_fields w) as (_ & _ & _ & Vpub & Vd & _).
      unfold waiting_world. cbn [published set_tool].
      unfold _publish_init_raw_msg, _publish_action_cmd, publish.
      rewrite Vpub, Ep. cbn [tool init_raw_data].
      destruct (init_raw_data (tool (validated_world w)));
        cbn [publisher]; rewrite ?Vpub, ?Ep; exact Vd.
Qed.

(** X18. When a command validates and the completion signal arrives within
    the polling rounds of the waiting time (no event before it making the
    pump fail), [execute] returns the success payload: its graph is the
    one the store holds when the call returns, its change analysis
    compares the validation snapshot with that graph; the tool keeps that
    graph and the trigger flag is cleared. *)
Theorem signal_in_time_gives_success (w : World) (query : string) :
  validates_successfully w query ->
  completion_signal_arrives w ->
  let w' := snd (execute w query) in
  exists g,
    validation_snapshot w = Some g /\
    fst (execute w query)
    = Returned (_format_success_response g (current_scene_graph (manager w')) query) /\
    init_scene_graph_data (tool w') = Some (current_scene_graph (manager w')) /\
    trigger_received (tool w') = false.
Proof.
  intros H (Hn & Hs). cbn zeta.
  destruct (execute_validated w query H) as (g & Eg & E). rewrite E.
  exists g. split; [exact Eg|]. cbn [fst snd].
  cbn [manager tool set_tool init_scene_graph_data set_trigger trigger_received].
  destruct (waiting_world_fields w query)
    as (_ & Hb & Hp & _ & Ht & Ha & Hr & _).
  destruct (wait_loop_success (poll_budget w) g query (waiting_world w query))
    as [Hr1 Hr2].
  - rewrite Ha, Hr. exact Hn.
  - rewrite Ha, Hb. exact Hs.
  - exact Ht.
  - rewrite Hr1 at 1. repeat split. exact Hr2.
Qed.

(** X19. After a call with a non-empty command below the failure limit the
    graph of the payload is the one the store holds.  After a validation
    failure or a success the tool keeps that graph for the next
    validation; after a timeout or an error it keeps the graph the command
    was validated against. *)
Theorem kept_snapshot_after_a_call (w : World) (query : string) :
  consecutive_failures (tool w) < max_consecutive_failures ->
  strip query <> "" ->
  let w' := snd (execute w query) in
  exists p,
    fst (execute w query) = Returned p /\
    payload_scene_graph p = Some (current_scene_graph (manager w')) /\
    match status p with
    | validation_failed | execution_success =>
        init_scene_graph_data (tool w') = Some (current_scene_graph (manager w'))
    | execution_timeout | execution_error =>
        init_scene_graph_data (tool w') = validation_snapshot w
    | task_failed => False
    end.
Proof.
  intros Hcf Hq. cbn zeta.
  destruct (call_cases w query) as [H|[[Hc He]|[H|H]]]; [lia | contradiction | |].
  - rewrite (execute_failed w query H). cbn [fst snd].
    destruct (refresh_and_snapshot_config (failed_world w)) as (_ & Hg & Hd).
    eexists. split; [reflexivity|]. cbn [payload_scene_graph status].
    split; congruence.
  - destruct (execute_validated w query H) as (g & Eg & E). rewrite E.
    cbn [fst snd manager tool set_tool init_scene_graph_data set_trigger].
    destruct (waiting_world_fields w query)
      as (_ & _ & _ & _ & _ & _ & _ & Hi & _).
    destruct (wait_loop_outcome (poll_budget w) g query (waiting_world w query))
      as (_ & _ & [[Hr Hd]|[[Hr|[e Hr]] Hd]]).
    + eexists. split; [reflexivity|]. rewrite Hr. cbn. split; [reflexivity | exact Hd].
    + eexists. split; [reflexivity|]. rewrite Hr. cbn. split; [reflexivity | congruence].
    + eexists. split; [reflexivity|]. rewrite Hr. cbn. split; [reflexivity | congruence].
Qed.

End ToolMoreFacts.

(** ** The wait without a completion signal *)

Module TimeoutFacts.
Import PyStr Scene Validator Tool Samples Calls PyStrFacts ToolFacts ToolMoreFacts.

Lemma quiet_without_signal (has_agent : bool) (events : list BusEvent) :
  existsb completion_signal events = false ->
  has_agent = true \/ existsb raising_event events = false ->
  forallb (quiet_event has_agent) events = true.
Proof.
  induction events as [|ev events IH]; [reflexivity|].
  cbn [existsb forallb]. intros Hs Hr.
  apply orb_false_iff in Hs. destruct Hs as [Hs1 Hs2].
  assert (Hq : quiet_event has_agent ev = true).
  { destruct ev as [|d m|[|]|e]; try reflexivity; try discriminate.
    destruct Hr as [-> | Hr]; [reflexivity | discriminate]. }
  rewrite Hq. apply IH; [exact Hs2|].
  destruct Hr as [Hr | Hr]; [left; exact Hr | right].
  apply orb_false_iff in Hr. apply Hr.
Qed.

(** A tool with neither the agent nor a node pumps nothing: the loop runs
    to the deadline. *)
Lemma wait_loop_without_pump fuel initial query w :
  agent (tool w) = false -> _ros_node (tool w) = false ->
  trigger_received (tool w) = false ->
  wait_loop fuel initial query w = (_format_timeout_response w, w).
Proof.
  intros Ha Hn Ht. induction fuel as [|fuel IH]; [reflexivity|].
  cbn [wait_loop]. unfold pump. rewrite Ha, Hn, Ht. exact IH.
Qed.

(** On a node of its own the first raising round ends the loop with the
    error payload. *)
Lemma wait_loop_raises fuel initial query w :
  agent (tool w) = false -> _ros_node (tool w) = true ->
  trigger_received (tool w) = false ->
  existsb completion_signal (firstn fuel (bus w)) = false ->
  existsb raising_event (firstn fuel (bus w)) = true ->
  exists e,
    In (EvRaise e) (firstn fuel (bus w)) /\
    fst (wait_loop fuel initial query w)
    = ExecutionError ("Error during action execution: " ++ e)
        (get_current_scene_graph (manager (snd (wait_loop fuel initial query w)))).
Proof.
  revert w. induction fuel as [|fuel IH]; intros w Ha Hn Ht Hs Hr; [discriminate|].
  destruct (bus w) as [|ev rest] eqn:Eb; [discriminate|].
  cbn [firstn existsb] in Hs, Hr.
  apply orb_false_iff in Hs. destruct Hs as [Hs1 Hs2].
  cbn [wait_loop]. unfold pump, rclpy_spin_once. rewrite Ha, Hn, Eb.
  destruct ev as [|d m|[|]|e]; try discriminate; cbn [raising_event orb] in Hr.
  - match goal with |- context [wait_loop fuel initial query ?w1] =>
      destruct (IH w1 Ha Hn Ht Hs2 Hr) as (e & Hin & He) end.
    cbn [tool trigger_received]. rewrite Ht.
    exists e. split; [right; exact Hin | exact He].
  - match goal with |- context [wait_loop fuel initial query ?w1] =>
      destruct (IH w1 Ha Hn Ht Hs2 Hr) as (e & Hin & He) end.
    cbn [tool trigger_received]. rewrite Ht.
    exists e. split; [right; exact Hin | exact He].
  - match goal with |- context [wait_loop fuel initial query ?w1] =>
      destruct (IH w1 Ha Hn Ht Hs2 Hr) as (e & Hin & He) end.
    cbn [tool trigger_received]. rewrite Ht.
    exists e. split; [right; exact Hin | exact He].
  - exists e. split; [left; reflexivity | reflexivity].
Qed.

(** C7, amended.  When a command passes validation and no completion
    signal arrives within the polling rounds of [max_wait_time], [execute]
    raises nothing and returns a payload whose scene graph is the one the
    store holds when the call returns: the timeout payload when no polling
    round raises, and the error payload, with the text of the exception,
    when the tool polls a node of its own and a round raises (the pump of
    the agent drops such an exception). *)
Theorem execute_times_out_with_last_snapshot (w : World) (query : string) :
  consecutive_failures (tool w) < max_consecutive_failures ->
  strip query <> "" ->
  is_valid (_validate_action_command query (validation_snapshot w)) = true ->
  no_completion_signal w ->
  (polling_raises w = false ->
   fst (execute w query)
   = Returned (ExecutionTimeout
                 (get_current_scene_graph (manager (snd (execute w query)))))) /\
  (polling_raises w = true ->
   exists e,
     In (EvRaise e) (firstn (poll_budget w) (bus w)) /\
     fst (execute w query)
     = Returned (ExecutionError ("Error during action execution: " ++ e)
                   (get_current_scene_graph (manager (snd (execute w query)))))).
Proof.
  intros Hcf Hq Hv Hs.
  destruct (execute_validated w query (conj Hcf (conj Hq Hv))) as (g & _ & Ex).
  rewrite Ex. cbn [fst snd manager set_tool].
  destruct (waiting_world_fields w query)
    as (_ & Hb & _ & _ & Ht & Ha & Hn & _).
  unfold no_completion_signal in Hs. unfold polling_raises, polls_own_node.
  rewrite <- Hb in Hs |- *. rewrite <- Ha, <- Hn.
  set (w0 := waiting_world w query) in *.
  split.
  - intros Hr. f_equal.
    destruct (agent (tool w0)) eqn:Ea; [|destruct (_ros_node (tool w0)) eqn:En].
    + destruct (wait_loop_timeout (poll_budget w) g query w0) as [Hout _];
        [rewrite Ea; apply quiet_without_signal; [exact Hs | left; reflexivity]
        | exact Ht | exact Hout].
    + destruct (wait_loop_timeout (poll_budget w) g query w0) as [Hout _];
        [rewrite Ea; apply quiet_without_signal; [exact Hs | right; exact Hr]
        | exact Ht | exact Hout].
    + rewrite (wait_loop_without_pump (poll_budget w) g query w0 Ea En Ht).
      reflexivity.
  - intros Hr. apply andb_true_iff in Hr. destruct Hr as [Hown Hr].
    apply andb_true_iff in Hown. destruct Hown as [Ea En].
    apply negb_true_iff in Ea.
    destruct (wait_loop_raises (poll_budget w) g query w0 Ea En Ht Hs Hr)
      as (e & Hin & He).
    exists e. split; [exact Hin | f_equal; exact He].
Qed.

(** The timeout of a tool that polls through the agent, and the error of
    a tool that polls a node of its own. *)
Lemma execute_times_out_with_last_snapshot_witness :
  fst (execute sample_world "move red_cube1 on table")
  = Returned (ExecutionTimeout
                (get_current_scene_graph
                   (manager (snd (execute sample_world "move red_cube1 on table"))))) /\
  exists e,
    In (EvRaise e) (firstn (poll_budget raising_bus_world) (bus raising_bus_world)) /\
    fst (execute raising_bus_world "move red_cube1 on table")
    = Returned (ExecutionError ("Error during action execution: " ++ e)
                  (get_current_scene_graph
                     (manager (snd (execute raising_bus_world
                                      "move red_cube1 on table"))))).
Proof.
  split.
  - destruct (execute_times_out_with_last_snapshot sample_world
                "move red_cube1 on table") as [Hquiet _].
    + vm_compute. lia.
    + intros H. vm_compute in H. discriminate H.
    + vm_compute. reflexivity.
    + vm_compute. reflexivity.
    + apply Hquiet. vm_compute. reflexivity.
  - destruct (execute_times_out_with_last_snapshot raising_bus_world
                "move red_cube1 on table") as [_ Hraise].
    + vm_compute. lia.
    + intros H. vm_compute in H. discriminate H.
    + vm_compute. reflexivity.
    + vm_compute. reflexivity.
    + apply Hraise. vm_compute. reflexivity.
Defined.

(** C7 as stated fails for a tool without the agent that polls a node of
    its own: the command is validated and published, no completion signal
    is on the bus, and the round that raises ends the call with the error
    payload, not with the timeout. *)
Lemma polling_exception_gives_error_not_timeout :
  validates_successfully raising_bus_world "move red_cube1 on table" /\
  no_completion_signal raising_bus_world /\
  published (snd (execute raising_bus_world "move red_cube1 on table"))
  = [PubInstruction "move red_cube1 on table"; PubSceneInit "scene"] /\
  fst (execute raising_bus_world "move red_cube1 on table")
  = Returned (ExecutionError "Error during action execution: context is shut down"
                             cube_in_box_scene) /\
  status (ExecutionError "Error during action execution: context is shut down"
                         cube_in_box_scene) <> execution_timeout.
Proof.
  split; [|split; [|split; [|split]]].
  - repeat split; [vm_compute; lia | intros H; vm_compute in H; discriminate H].
  - vm_compute. reflexivity.
  - vm_compute. reflexivity.
  - vm_compute. reflexivity.
  - discriminate.
Qed.

End TimeoutFacts.


(** ** The published command *)

Module PublishedFacts.
Import PyStr Scene Validator Tool Samples Names Calls PyStrFacts NamesFacts
       ParserFacts ToolFacts ToolMoreFacts.

(** *** The command that is published reads as the command that was validated *)

Lemma rstrip_tail (c : ascii) (s : string) :
  rstrip (String c s) = String c s -> rstrip s = s.
Proof.
  cbn [rstrip]. destruct (is_space c && String.eqb (rstrip s) ""); [discriminate|].
  intros H. injection H as H. exact H.
Qed.

Lemma rstrip_lstrip (s : string) : rstrip s = s -> rstrip (lstrip s) = lstrip s.
Proof.
  induction s as [|c s IH]; [reflexivity|]. intros H. cbn [lstrip].
  destruct (is_space c); [apply IH, (rstrip_tail c), H | exact H].
Qed.

Lemma rstrip_eat_lit (lit s rest : string) :
  rstrip s = s -> eat_lit lit s = Some rest -> rstrip rest = rest.
Proof.
  revert s. induction lit as [|a lit IH]; intros s H E.
  - destruct s; cbn in E; injection E as <-; exact H.
  - destruct s as [|b s]; [discriminate|]. cbn in E.
    destruct (Ascii.eqb a b); [|discriminate].
    apply (IH s); [apply (rstrip_tail b), H | exact E].
Qed.

Lemma rstrip_eat_lit_ci (lit s rest : string) :
  rstrip s = s -> eat_lit_ci lit s = Some rest -> rstrip rest = rest.
Proof.
  revert s. induction lit as [|a lit IH]; intros s H E.
  - destruct s; cbn in E; injection E as <-; exact H.
  - destruct s as [|b s]; [discriminate|]. cbn in E.
    destruct (Ascii.eqb (lower_char a) (lower_char b)); [|discriminate].
    apply (IH s); [apply (rstrip_tail b), H | exact E].
Qed.

Lemma rstrip_eat_ws1 (s rest : string) :
  rstrip s = s -> eat_ws1 s = Some rest -> rstrip rest = rest.
Proof.
  unfold eat_ws1. destruct s as [|c s]; [discriminate|].
  destruct (is_space c) eqn:Ec; [|discriminate].
  intros H E. injection E as <-. exact (rstrip_lstrip (String c s) H).
Qed.

Lemma rstrip_skip_digits (s : string) : rstrip s = s -> rstrip (skip_digits s) = skip_digits s.
Proof.
  induction s as [|c s IH]; [reflexivity|]. intros H. cbn [skip_digits].
  destruct (is_digit c); [apply IH, (rstrip_tail c), H | exact H].
Qed.

Lemma rstrip_eat_digits1 (s rest : string) :
  rstrip s = s -> eat_digits1 s = Some rest -> rstrip rest = rest.
Proof.
  unfold eat_digits1. destruct s as [|c s]; [discriminate|].
  destruct (is_digit c) eqn:Ec; [|discriminate].
  intros H E. injection E as <-. exact (rstrip_skip_digits (String c s) H).
Qed.

Lemma rstrip_strip (s : string) : rstrip (strip s) = strip s.
Proof. unfold strip. apply rstrip_idem. Qed.

Lemma lstrip_idem (s : string) : lstrip (lstrip s) = lstrip s.
Proof.
  induction s as [|c s IH]; [reflexivity|]. cbn [lstrip].
  destruct (is_space c) eqn:E; [exact IH|]. cbn [lstrip]. rewrite E. reflexivity.
Qed.

(** Lower-casing commutes with the pieces of the prefix pattern. *)
Lemma eat_lit_lower (lit s rest : string) :
  lower lit = lit -> eat_lit_ci lit s = Some rest ->
  eat_lit lit (lower s) = Some (lower rest).
Proof.
  revert s. induction lit as [|a lit IH]; intros s Hl E.
  - destruct s; cbn in E; injection E as <-; reflexivity.
  - destruct s as [|b s]; [discriminate|]. cbn in E. cbn in Hl.
    injection Hl as Ha Hl.
    destruct (Ascii.eqb (lower_char a) (lower_char b)) eqn:Eab; [|discriminate].
    cbn. rewrite Ha in Eab. rewrite Eab. apply IH; assumption.
Qed.

Lemma is_digit_lower_char (c : ascii) : is_digit (lower_char c) = is_digit c.
Proof. destruct c as [[] [] [] [] [] [] [] []]; vm_compute; reflexivity. Qed.

Lemma colon_lower_char (c : ascii) :
  Ascii.eqb ":" (lower_char c) = Ascii.eqb ":" c.
Proof. destruct c as [[] [] [] [] [] [] [] []]; vm_compute; reflexivity. Qed.

Lemma eat_ws1_lower (s rest : string) :
  eat_ws1 s = Some rest -> eat_ws1 (lower s) = Some (lower rest).
Proof.
  unfold eat_ws1. destruct s as [|c s]; [discriminate|].
  cbn [lower]. rewrite is_space_lower_char.
  destruct (is_space c); [|discriminate].
  intros E. injection E as <-.
  change (String (lower_char c) (lower s)) with (lower (String c s)).
  rewrite lstrip_lower. reflexivity.
Qed.

Lemma skip_digits_lower (s : string) : skip_digits (lower s) = lower (skip_digits s).
Proof.
  induction s as [|c s IH]; [reflexivity|].
  cbn. rewrite is_digit_lower_char. destruct (is_digit c); [exact IH | reflexivity].
Qed.

Lemma eat_digits1_lower (s rest : string) :
  eat_digits1 s = Some rest -> eat_digits1 (lower s) = Some (lower rest).
Proof.
  unfold eat_digits1. destruct s as [|c s]; [discriminate|].
  cbn [lower]. rewrite is_digit_lower_char.
  destruct (is_digit c); [|discriminate].
  intros E. injection E as <-.
  change (String (lower_char c) (lower s)) with (lower (String c s)).
  rewrite skip_digits_lower. reflexivity.
Qed.

Lemma eat_colon_lower (s rest : string) :
  eat_lit ":" s = Some rest -> eat_lit ":" (lower s) = Some (lower rest).
Proof.
  destruct s as [|c s]; [discriminate|]. cbn [eat_lit lower]. rewrite colon_lower_char.
  destruct (Ascii.eqb ":" c); [|discriminate].
  destruct s; intros E; injection E as <-; reflexivity.
Qed.

Lemma eat_lit_ci_head (lit s rest : string) (a : ascii) :
  lower_char a = a -> eat_lit_ci (String a lit) s = Some rest ->
  exists t, lower s = String a t.
Proof.
  intros Ha. destruct s as [|b s]; [discriminate|]. cbn [eat_lit_ci].
  destruct (Ascii.eqb (lower_char a) (lower_char b)) eqn:E; [|discriminate].
  intros _. apply Ascii.eqb_eq in E. exists (lower s). cbn. congruence.
Qed.

Lemma no_verb_at_a_or_s (c : ascii) (s : string) :
  c = "a"%char \/ c = "s"%char ->
  match_open_close (String c s) = None /\
  match_move "move" (String c s) = None /\
  match_move "put" (String c s) = None.
Proof. intros [-> | ->]; repeat split; reflexivity. Qed.

Lemma no_prefix_at_s (s : string) : eat_action_type_prefix (String "s" s) = None.
Proof. reflexivity. Qed.

(** The prefix that [_extract_core_action] removes is the prefix the
    parser skips. *)
Lemma extracted_prefix (text s1 s2 s3 s4 core : string) :
  eat_lit_ci "action" text = Some s1 -> eat_ws1 s1 = Some s2 ->
  eat_lit_ci "type" s2 = Some s3 -> eat_ws1 s3 = Some s4 ->
  core_after_number s4 = Some core ->
  eat_action_type_prefix (lower text) = Some (lower core) /\
  lstrip core = core /\ (rstrip text = text -> rstrip core = core).
Proof.
  intros E1 E2 E3 E4 E5. unfold core_after_number in E5.
  destruct (eat_digits1 s4) as [s5|] eqn:E6; [|discriminate].
  unfold eat_ws0 in E5.
  destruct (eat_lit ":" (lstrip s5)) as [s6|] eqn:E7; [|discriminate].
  destruct (String.eqb (lstrip s6) "" || has_newline (lstrip s6)); [discriminate|].
  injection E5 as <-.
  split; [|split].
  - unfold eat_action_type_prefix, eat_ws0.
    rewrite (eat_lit_lower "action" text s1 eq_refl E1).
    rewrite (eat_ws1_lower s1 s2 E2).
    rewrite (eat_lit_lower "type" s2 s3 eq_refl E3).
    rewrite (eat_ws1_lower s3 s4 E4).
    rewrite (eat_digits1_lower s4 s5 E6).
    rewrite lstrip_lower, (eat_colon_lower (lstrip s5) s6 E7), lstrip_lower.
    reflexivity.
  - apply lstrip_idem.
  - intros H. apply rstrip_lstrip.
    apply (rstrip_eat_lit ":" (lstrip s5)); [|exact E7].
    apply rstrip_lstrip, (rstrip_eat_digits1 s4); [|exact E6].
    apply (rstrip_eat_ws1 s3); [|exact E4].
    apply (rstrip_eat_lit_ci "type" s2); [|exact E3].
    apply (rstrip_eat_ws1 s1); [|exact E2].
    apply (rstrip_eat_lit_ci "action" text); assumption.
Qed.

Lemma parse_of_core (query : string) :
  _parse_flexible_action_command (_extract_core_action query)
  = _parse_flexible_action_command query \/
  _parse_flexible_action_command query = None.
Proof.
  unfold _extract_core_action.
  set (text := strip query).
  assert (Hfix : rstrip text = text) by apply rstrip_strip.
  assert (Hsame : _parse_flexible_action_command text
                  = _parse_flexible_action_command query).
  { apply parse_normal. unfold text. rewrite strip_idem. reflexivity. }
  destruct (eat_lit_ci "action" text) as [s1|] eqn:E1.
  2:{ (* no action prefix: the step pattern or the text itself *)
    destruct (eat_lit_ci "step" text) as [t1|] eqn:F1; [|left; exact Hsame].
    destruct (eat_ws1 t1) as [t2|]; [|left; exact Hsame].
    destruct (core_after_number t2) as [core|]; [|left; exact Hsame].
    right. destruct (eat_lit_ci_head "tep" text t1 "s" eq_refl F1) as [u Hu].
    unfold _parse_flexible_action_command. fold text. rewrite Hu.
    destruct (no_verb_at_a_or_s "s" u (or_intror eq_refl)) as (-> & -> & ->).
    cbn [first_some fold_right]. rewrite no_prefix_at_s. reflexivity. }
  destruct (eat_lit_ci_head "ction" text s1 "a" eq_refl E1) as [u Hu].
  assert (Hstep : eat_lit_ci "step" text = None).
  { destruct text as [|b t]; [discriminate|]. cbn in Hu. injection Hu as Hb _.
    cbn [eat_lit_ci]. destruct (Ascii.eqb (lower_char "s") (lower_char b)) eqn:E;
      [|reflexivity].
    apply Ascii.eqb_eq in E. rewrite Hb in E. discriminate. }
  rewrite Hstep.
  destruct (eat_ws1 s1) as [s2|] eqn:E2; [|left; exact Hsame].
  destruct (eat_lit_ci "type" s2) as [s3|] eqn:E3; [|left; exact Hsame].
  destruct (eat_ws1 s3) as [s4|] eqn:E4; [|left; exact Hsame].
  destruct (core_after_number s4) as [core|] eqn:E5; [|left; exact Hsame].
  destruct (extracted_prefix text s1 s2 s3 s4 core E1 E2 E3 E4 E5) as (Hp & Hl & Hr).
  specialize (Hr Hfix).
  assert (Hcore : strip core = core) by (unfold strip; rewrite Hl; exact Hr).
  rewrite Hcore.
  unfold _parse_flexible_action_command. fold text. rewrite Hcore, Hp, Hu.
  destruct (no_verb_at_a_or_s "a" u (or_introl eq_refl)) as (-> & -> & ->).
  cbn [first_some fold_right].
  destruct (eat_action_type_prefix (lower core)) as [r2|] eqn:Eq.
  - (* the core starts with a prefix of its own: the command does not parse *)
    right.
    assert (Ha : exists v, lower core = String "a" v).
    { unfold eat_action_type_prefix in Eq.
      destruct (lower core) as [|b v]; [discriminate|].
      cbn [eat_lit] in Eq. destruct (Ascii.eqb "a" b) eqn:Eb; [|discriminate].
      apply Ascii.eqb_eq in Eb. subst b. exists v. reflexivity. }
    destruct Ha as [v Hv]. rewrite Hv.
    destruct (no_verb_at_a_or_s "a" v (or_introl eq_refl)) as (-> & -> & ->).
    reflexivity.
  - left.
    destruct (match_open_close (lower core)); [reflexivity|].
    destruct (match_move "move" (lower core)) as [[[? ?] ?]|]; [reflexivity|].
    destruct (match_move "put" (lower core)) as [[[? ?] ?]|]; reflexivity.
Qed.

(** X20. For a command that parses, the text [_extract_core_action] makes
    of it parses to the same action, the validator gives the same verdict
    on both, and after a call that validates with a working publisher that
    text is among the published messages: the simulator is sent the action
    that was validated. *)
Theorem published_command_reads_as_the_validated_one
  (w : World) (query : string) (parsed : ParsedAction) :
  _parse_flexible_action_command query = Some parsed ->
  _parse_flexible_action_command (_extract_core_action query) = Some parsed /\
  (forall data,
     is_valid (_validate_action_command (_extract_core_action query) data)
     = is_valid (_validate_action_command query data)) /\
  (validates_successfully w query -> publisher w = Some (Returned tt) ->
   In (PubInstruction (_extract_core_action query))
      (published (snd (execute w query)))).
Proof.
  intros Hp.
  assert (He : _parse_flexible_action_command (_extract_core_action query)
               = Some parsed).
  { destruct (parse_of_core query) as [H|H]; congruence. }
  split; [exact He | split].
  - intros data. unfold _validate_action_command. rewrite He, Hp. reflexivity.
  - intros Hv Hpub.
    destruct (execute_validated w query Hv) as (g & _ & E). rewrite E.
    cbn [snd published set_tool].
    destruct (wait_loop_outcome (poll_budget w) g query (waiting_world w query))
      as (_ & -> & _).
    rewrite (waiting_world_published w query Hpub).
    apply in_or_app. right. left. reflexivity.
Qed.

End PublishedFacts.


(** ** Task messages *)

Module RosFacts.
Import PyStr Scene Validator Tool Names Ros PyStrFacts NamesFacts ParserFacts
       PublishedFacts.

Lemma rstrip_app (a c : string) :
  rstrip c = c -> c <> "" -> rstrip (a ++ c) = a ++ c.
Proof.
  intros Hc Hn. induction a as [|x a IH]; [exact Hc|].
  cbn [append rstrip]. rewrite IH.
  assert (E : String.eqb (a ++ c) "" = false).
  { destruct a; cbn; [destruct c; [contradiction | reflexivity] | reflexivity]. }
  rewrite E, andb_false_r. reflexivity.
Qed.

Lemma lstrip_gap (gap s : string) :
  all_chars is_space gap = true -> lstrip (gap ++ s) = lstrip s.
Proof.
  induction gap as [|x gap IH]; [reflexivity|]. cbn. intros H.
  apply andb_true_iff in H. destruct H as [-> H]. apply IH, H.
Qed.

Lemma strip_parts (s : string) :
  strip s = s -> lstrip s = s /\ rstrip s = s.
Proof.
  intros H. assert (Hr : rstrip s = s).
  { rewrite <- H at 1. rewrite rstrip_strip. exact H. }
  split; [|exact Hr].
  unfold strip in H. pose proof (lstrip_head s) as Hh.
  destruct s as [|c s]; [reflexivity|].
  cbn [lstrip] in *. destruct (is_space c) eqn:Ec; [|reflexivity].
  exfalso.
  (* the stripped text would start with a white-space character *)
  assert (Hs : exists t, rstrip (lstrip s) = String c t) by (exists s; exact H).
  destruct Hs as [t Ht].
  destruct (lstrip s) as [|d u] eqn:Eu; [discriminate|].
  cbn [rstrip] in Ht. rewrite Hh in Ht. cbn [andb] in Ht.
  injection Ht as -> _. congruence.
Qed.

Lemma eat_lit_ci_word (word lit rest : string) :
  lower word = lower lit -> eat_lit_ci lit (word ++ rest) = Some rest.
Proof.
  revert word. induction lit as [|a lit IH]; intros word H.
  - destruct word; [|discriminate]. cbn. destruct rest; reflexivity.
  - destruct word as [|b word]; [discriminate|]. cbn in H. injection H as Hb Hw.
    cbn. rewrite Hb, Ascii.eqb_refl. apply IH. exact Hw.
Qed.

(** X27. [_extract_task_content] reads the content of a task message back:
    the word [task] in any case, white space, a colon, white space, then a
    non-empty text on one line without white space at its ends. *)
Theorem task_content_is_read_back (word gap1 gap2 content : string) :
  lower word = "task" ->
  all_chars is_space gap1 = true -> all_chars is_space gap2 = true ->
  one_line_text content ->
  _extract_task_content (task_message word gap1 gap2 content) = content.
Proof.
  intros Hw H1 H2 (Hn & Hs & Hl).
  destruct (strip_parts content Hs) as [Hcl Hcr].
  unfold _extract_task_content, task_message.
  assert (Hstrip : strip (word ++ gap1 ++ ":" ++ gap2 ++ content)
                   = word ++ gap1 ++ ":" ++ gap2 ++ content).
  { unfold strip.
    assert (Hlw : lstrip (word ++ gap1 ++ ":" ++ gap2 ++ content)
                  = word ++ gap1 ++ ":" ++ gap2 ++ content).
    { destruct word as [|b word]; [discriminate|]. cbn in Hw. injection Hw as Hb _.
      cbn [append lstrip].
      assert (Eb : is_space b = false).
      { rewrite <- is_space_lower_char, Hb. reflexivity. }
      rewrite Eb. reflexivity. }
    rewrite Hlw.
    rewrite <- !append_assoc. apply rstrip_app; assumption. }
  rewrite Hstrip.
  rewrite (eat_lit_ci_word word "task" _ Hw).
  unfold eat_ws0. rewrite (lstrip_gap gap1 _ H1).
  change (lstrip (":" ++ gap2 ++ content)) with (":" ++ gap2 ++ content).
  change (eat_lit ":" (":" ++ gap2 ++ content)) with (eat_lit "" (gap2 ++ content)).
  assert (Hel : eat_lit "" (gap2 ++ content) = Some (gap2 ++ content))
    by (destruct (gap2 ++ content); reflexivity).
  rewrite Hel, (lstrip_gap gap2 _ H2), Hcl, Hl.
  apply String.eqb_neq in Hn. rewrite Hn. cbn [orb]. exact Hs.
Qed.

End RosFacts.


(** ** The repetition tests and the routing over rounds *)

Module AgentMoreFacts.
Import PyStr Scene Validator Tool Agent Samples Calls Routing PyStrFacts ToolFacts
       AgentFacts ToolMoreFacts.

Lemma guard_in_phase (query : string) (k : nat) (st : AgentState) :
  k < 6 -> streak_phase query k st ->
  fst (repetition_guard st query) = (if k =? 5 then RejectedRepeated else Passed) /\
  forall st', repetition_state st' = snd (repetition_guard st query) ->
              streak_phase query ((k + 1) mod 6) st'.
Proof.
  intros Hk Hp. unfold repetition_guard.
  destruct k as [|r].
  - destruct Hp as [Hl Hll]. rewrite Hll, Hl. split; [reflexivity|].
    intros st' E. unfold repetition_state in E. injection E as E1 E2 E3.
    cbn. repeat split; try assumption.
    rewrite E3. exact Hl.
  - destruct Hp as (Hc & Hl & Hll). rewrite Hll, Hl, Hc.
    cbn [same_args]. rewrite String.eqb_refl.
    do 5 (destruct r as [|r]; [cbn; split; [reflexivity|];
      intros st' E; unfold repetition_state in E; injection E as E1 E2 E3;
      cbn; unfold new_command; rewrite ?E1, ?E2, ?E3;
      repeat split; try assumption; reflexivity |]).
    lia.
Qed.

Lemma rounds_cons json_dumps st q qs :
  rounds json_dumps st (q :: qs)
  = rounds json_dumps (snd (_call_validate_execute json_dumps st (call_messages q))) qs.
Proof. reflexivity. Qed.

Lemma verdict_after_repeats json_dumps (query : string) (n k : nat) (st : AgentState) :
  k < 6 -> streak_phase query k st ->
  fst (repetition_guard (rounds json_dumps st (repeat query n)) query)
  = if (k + n + 1) mod 6 =? 0 then RejectedRepeated else Passed.
Proof.
  revert k st. induction n as [|n IH]; intros k st Hk Hp.
  - cbn [repeat rounds fold_left]. destruct (guard_in_phase query k st Hk Hp) as [-> _].
    rewrite Nat.add_0_r.
    do 6 (destruct k as [|k]; [reflexivity|]). lia.
  - cbn [repeat]. rewrite rounds_cons.
    destruct (guard_in_phase query k st Hk Hp) as [_ Hnext].
    specialize (Hnext (snd (_call_validate_execute json_dumps st (call_messages query)))
                      (node_repetition_state json_dumps st (call_messages query) query
                         (submits_call_messages query))).
    rewrite (IH ((k + 1) mod 6) _ (Nat.mod_upper_bound _ 6 ltac:(lia)) Hnext).
    replace (k + S n + 1) with ((k + 1) + (n + 1)) by lia.
    rewrite <- (Nat.add_assoc ((k + 1) mod 6) n 1).
    rewrite Nat.Div0.add_mod_idemp_l. reflexivity.
Qed.

(** X21. Of the submissions of one command in a row, starting in a state
    where the command is neither the last one nor the one before it,
    exactly every sixth is refused by the repetition tests (as repeated);
    the others pass. *)
Theorem every_sixth_identical_command_is_refused
  (json_dumps : SceneGraph -> string) (st : AgentState) (query : string) (n : nat) :
  new_command st query ->
  fst (repetition_guard (rounds json_dumps st (repeat query n)) query)
  = if (n + 1) mod 6 =? 0 then RejectedRepeated else Passed.
Proof.
  intros H. apply (verdict_after_repeats json_dumps query n 0 st); [lia | exact H].
Qed.

Lemma refused_round json_dumps st messages query :
  submits messages query ->
  fst (repetition_guard st query) <> Passed ->
  exists reason,
    _call_validate_execute json_dumps st messages
    = ([HumanMessage ("invalid, reason: " ++ reason)],
       add_record (set_repetition st (snd (repetition_guard st query)))
                  (RecordRejected reason)).
Proof.
  intros (id & rest & E) Hv. unfold _call_validate_execute. rewrite E.
  cbn [tc_args tc_name tc_id].
  destruct (repetition_guard st query) as [v rep]. cbn [fst snd] in *.
  destruct v; [eexists; reflexivity | eexists; reflexivity | contradiction].
Qed.

(** X22. A command the repetition tests refuse passes them when it is
    submitted again at once; the refused round leaves the world untouched
    and adds no tool message. *)
Theorem refused_command_passes_when_resubmitted
  (json_dumps : SceneGraph -> string) (st : AgentState) (messages : list Message)
  (query : string) :
  submits messages query ->
  fst (repetition_guard st query) <> Passed ->
  let st' := snd (_call_validate_execute json_dumps st messages) in
  fst (repetition_guard st' query) = Passed /\
  world st' = world st /\
  (forall m, In m (fst (_call_validate_execute json_dumps st messages)) ->
             is_vae_message m = false).
Proof.
  intros S Hv. cbn zeta.
  destruct (refused_round json_dumps st messages query S Hv) as [reason ->].
  cbn [fst snd]. split; [|split].
  - revert Hv. unfold repetition_guard at 1 3.
    destruct (same_args query (last_last_call_message st)) eqn:Ell.
    + intros _. reflexivity.
    + destruct (same_args query (last_call_message st)).
      * destruct (5 <=? same_tool_count st + 1).
        -- intros _. unfold repetition_guard. cbn. rewrite Ell. reflexivity.
        -- intros H. contradiction H. reflexivity.
      * intros H. contradiction H. reflexivity.
  - destruct (snd (repetition_guard st query)) as [[c l] ll]. reflexivity.
  - intros m [<-|[]]. reflexivity.
Qed.

(** X23. A round whose command the repetition tests refuse sends the graph
    back to the planning node whenever the routing function answers
    [continue] on the state the node was handed. *)
Theorem refused_round_goes_back_to_planning
  (json_dumps : SceneGraph -> string) (json_decode : string -> option JsonDoc)
  (st : AgentState) (messages : list Message) (query : string) :
  submits messages query ->
  fst (repetition_guard st query) <> Passed ->
  _should_continue_after_execution json_decode st messages = Returned route_continue ->
  snd (validate_execute_round json_dumps json_decode st messages)
  = Returned node_agent.
Proof.
  intros S Hv Hc. unfold validate_execute_round.
  destruct (refused_round json_dumps st messages query S Hv) as [reason ->].
  cbn [snd].
  revert Hc. unfold _should_continue_after_execution.
  rewrite existsb_snoc.
  destruct (existsb _ messages); [discriminate|].
  cbn [orb content_of]. change (startswith "TASK_FAILED:" ("invalid, reason: " ++ reason))
    with false. cbn match.
  rewrite rev_unit. cbn [find is_vae_message name_of].
  assert (Hr : last_record_task_failed
                 (execution_records
                    (add_record (set_repetition st (snd (repetition_guard st query)))
                                (RecordRejected reason))) = false).
  { unfold add_record, last_record_task_failed. cbn [execution_records].
    rewrite rev_unit. reflexivity. }
  rewrite Hr.
  destruct (find is_vae_message (rev messages)) as [m|]; [|reflexivity].
  destruct (json_loads json_decode (content_of m)) as [[k|]|].
  - destruct (String.eqb (or_default k "") "validation_failed"); [discriminate|].
    destruct (String.eqb (or_default k "") "task_failed"); [discriminate|].
    reflexivity.
  - discriminate.
  - destruct (startswith "The action '" (content_of m)
              && contains "is invalid, reason:" (content_of m)); [discriminate|].
    reflexivity.
Qed.

(** X24. The node looks at the first tool call of the message only.  When
    that call asks for another tool, the router after the planning node
    still sends the state to the node exactly when a later call asks for
    the action tool, and the node then leaves the world untouched and adds
    no tool message. *)
Theorem only_the_first_tool_call_is_executed
  (json_dumps : SceneGraph -> string) (st : AgentState) (messages : list Message)
  (first : ToolCall) (others : list ToolCall) :
  tool_calls_of (last messages (HumanMessage "")) = first :: others ->
  names_vae first = false ->
  (_should_execute_action messages = route_execute <-> existsb names_vae others = true) /\
  world (snd (_call_validate_execute json_dumps st messages)) = world st /\
  (forall m, In m (fst (_call_validate_execute json_dumps st messages)) ->
             is_vae_message m = false).
Proof.
  intros E Hf. split; [|split].
  - unfold _should_execute_action. rewrite E. cbn [existsb]. rewrite Hf. cbn [orb].
    destruct (existsb names_vae others); split; intros H; try reflexivity; discriminate.
  - unfold _call_validate_execute. rewrite E. unfold names_vae in Hf.
    destruct (repetition_guard st (tc_args first)) as [v [[c l] ll]].
    destruct v; cbn [snd world add_record set_repetition]; try reflexivity.
    rewrite Hf. reflexivity.
  - unfold _call_validate_execute. rewrite E. unfold names_vae in Hf.
    destruct (repetition_guard st (tc_args first)) as [v [[c l] ll]].
    destruct v; cbn [fst]; try (intros m [<-|[]]; reflexivity).
    rewrite Hf. intros m [].
Qed.

(** X25. After a round in which the tool ran (and no message carries the
    marker of a failed task) the routing function never raises, whatever
    the JSON decoder does: the graph ends when the feedback text reads as
    that of a rejected command or the status is [task_failed], and goes
    back to planning otherwise. *)
Theorem routing_after_a_tool_round
  (json_dumps : SceneGraph -> string) (json_decode : string -> option JsonDoc)
  (st : AgentState) (messages : list Message) (query : string) :
  submits messages query ->
  fst (repetition_guard st query) = Passed ->
  no_task_failed_marker messages ->
  exists p content id,
    fst (call_tool (world st) query) = OutPayload p /\
    hd_error (fst (_call_validate_execute json_dumps st messages))
    = Some (ToolMessage content tool_name_vae id) /\
    snd (validate_execute_round json_dumps json_decode st messages)
    = Returned (if reads_as_invalid content then node_END
                else match status p with
                     | task_failed => node_END
                     | _ => node_agent
                     end).
Proof.
  intros (id & rest & E) P Hm.
  destruct (execute_returns_payload (world st) query) as [p Hp].
  exists p. unfold call_tool.
  unfold validate_execute_round, _call_validate_execute. rewrite E.
  cbn [tc_args tc_name tc_id].
  destruct (repetition_guard st query) as [v [[c l] ll]]. cbn [fst] in P. subst v.
  rewrite String.eqb_refl. cbn [set_repetition world]. unfold call_tool.
  destruct (execute (world st) query) as [[p'|e] w']; cbn [fst] in Hp; [|discriminate].
  injection Hp as ->.
  destruct (feedback_shape json_dumps p query w') as [tail Ef].
  pose proof (feedback_not_json json_decode p query tail) as Hj.
  pose proof (feedback_not_marker p query tail) as Hk.
  exists (_build_action_feedback_message json_dumps (OutPayload p) query w'), id.
  split; [reflexivity|].
  split; [destruct (output_task_failed (OutPayload p)); reflexivity|].
  cbn [snd]. unfold _should_continue_after_execution, reads_as_invalid.
  unfold no_task_failed_marker in Hm.
  assert (Hrec : forall st0 msgs,
            last_record_task_failed
              (execution_records
                 (add_record st0
                    (RecordValidateExecute msgs [(tool_name_vae, OutPayload p)]
                       (output_task_failed (OutPayload p)))))
            = output_task_failed (OutPayload p)).
  { intros st0 msgs. unfold add_record, last_record_task_failed.
    cbn [execution_records]. rewrite rev_unit. reflexivity. }
  destruct (output_task_failed (OutPayload p)) eqn:Ef'.
  - assert (Hs : status p = task_failed).
    { unfold output_task_failed in Ef'. destruct (status p); try discriminate; reflexivity. }
    rewrite Hs. cbn [fst snd].
    rewrite existsb_app, Hm. cbn [app existsb content_of orb].
    rewrite Ef, Hk. cbn [orb]. change (startswith "TASK_FAILED:" _) with false.
    cbn match.
    rewrite rev_app_distr. cbn [rev app find is_vae_message name_of].
    unfold tool_name_vae at 1 2. rewrite String.eqb_refl. cbn [content_of].
    rewrite Hj, Hrec.
    destruct (startswith "The action '" (feedback_head p query ++ tail)
              && contains "is invalid, reason:" (feedback_head p query ++ tail));
      reflexivity.
  - cbn [fst snd]. rewrite existsb_snoc, Hm. cbn [content_of orb].
    rewrite Ef, Hk. rewrite rev_unit. cbn [find is_vae_message name_of].
    unfold tool_name_vae at 1 2. rewrite String.eqb_refl. cbn [content_of].
    rewrite Hj, Hrec.
    assert (Hs : match status p with task_failed => node_END | _ => node_agent end
                 = node_agent).
    { unfold output_task_failed in Ef'. destruct (status p); try discriminate; reflexivity. }
    rewrite Hs.
    destruct (startswith "The action '" (feedback_head p query ++ tail)
              && contains "is invalid, reason:" (feedback_head p query ++ tail));
      reflexivity.
Qed.

(** X26. After [reset_validation_count] every command passes the
    repetition tests, the next call of the tool validates against the
    graph the store holds and is not answered with the task failure; the
    success count and the execution records are kept. *)
Theorem reset_starts_a_task_afresh (st : AgentState) (query : string) :
  let st' := reset_validation_count st in
  fst (repetition_guard st' query) = Passed /\
  validation_snapshot (world st')
  = Some (current_scene_graph (manager (world st))) /\
  (forall n g, fst (execute (world st') query) <> Returned (TaskFailed n g)) /\
  success_count (tool (world st')) = success_count (tool (world st)) /\
  execution_records st' = execution_records st.
Proof.
  cbn zeta. split; [reflexivity|]. split; [reflexivity|]. split; [|split; reflexivity].
  intros n g E.
  pose proof (task_failure_needs_the_limit _ query n g E) as Hl.
  cbn in Hl. unfold max_consecutive_failures in Hl. lia.
Qed.

End AgentMoreFacts.


(** ** Instances *)

Module StoreWitness.
Import PyStr Scene Samples SceneOps MoreSamples SceneOpsFacts.

Lemma stable_report_is_the_stored_graph_witness :
  stable_scene_graph (check_update_status (run_calls Scene.init stable_wait))
  = Some (current_scene_graph (run_calls Scene.init stable_wait)) /\
  (has_real_change (check_update_status (run_calls Scene.init stable_wait)) = true <->
   current_scene_graph (run_calls Scene.init stable_wait)
   <> last_scene_graph (run_calls Scene.init stable_wait)).
Proof.
  apply (stable_report_is_the_stored_graph stable_wait). vm_compute. reflexivity.
Defined.

Lemma wait_is_stable_after_threshold_identical_frames_witness :
  stable_frame_count (run_calls Scene.init stable_wait) = 5 /\
  is_stable (check_update_status (run_calls Scene.init stable_wait))
  = (stable_frame_threshold Scene.init <=? 5) /\
  (0 < 5 -> stable_frame_threshold Scene.init <= 5 ->
   stable_scene_graph (check_update_status (run_calls Scene.init stable_wait))
   = Some mug_on_box_scene /\
   (has_real_change (check_update_status (run_calls Scene.init stable_wait)) = true
    <-> mug_on_box_scene <> cube_in_box_scene)).
Proof.
  apply (wait_is_stable_after_threshold_identical_frames
           Scene.init cube_in_box_scene mug_on_box_scene 5).
  reflexivity.
Defined.

End StoreWitness.

Module ValidatorWitness.
Import PyStr Scene Validator Tool Samples Names Completion MoreSamples
       ValidatorMoreFacts CompletionFacts.

(** The box is moved although the edge of the mug names it with its
    state tag. *)
Lemma accepted_move_is_unobstructed_witness :
  In "red_mug(on)lid_box(open)" (get_edges tagged_lid_scene) /\
  (forall e above below,
     In e (get_edges tagged_lid_scene) -> on_parts e = Some (above, below) ->
     below <> "lid_box") /\
  ("table" <> "table" ->
   (forall e above below,
      In e (get_edges tagged_lid_scene) -> on_parts e = Some (above, below) ->
      below <> "table") /\
   (contains "lid_box" "table" || contains "drawer" "table" = true ->
    is_closed (_get_object_state "table" (analysis_of (Some tagged_lid_scene)))
    = false)) /\
  (forall c, source_container "lid_box" (analysis_of (Some tagged_lid_scene)) = Some c ->
     c <> "" ->
     is_closed (_get_object_state c (analysis_of (Some tagged_lid_scene))) = false /\
     forall e above below,
       In e (get_edges tagged_lid_scene) -> on_parts e = Some (above, below) ->
       below <> c).
Proof.
  split; [right; right; left; reflexivity|].
  apply (accepted_move_is_unobstructed "move lid_box on table" "lid_box" "on" "table"
           tagged_lid_scene); reflexivity.
Defined.

Lemma accepted_move_has_a_legal_target_witness :
  In "red_cube4" (all_objects (analysis_of (Some three_cubes_scene))) /\
  ("red_box" = "table" -> table_status (analysis_of (Some three_cubes_scene)) <> "F") /\
  ("red_box" <> "table" ->
   In "red_box" (all_objects (analysis_of (Some three_cubes_scene))) /\
   _is_cube "red_box" = false /\ _is_mug "red_box" = false /\
   (_is_container "red_cube4" = true -> _is_container "red_box" = false)).
Proof.
  apply (accepted_move_has_a_legal_target cube_to_box "red_cube4" "in" "red_box"
           three_cubes_scene); reflexivity.
Defined.

Lemma open_and_close_exclude_each_other_witness :
  (is_valid (_validate_action_command open_lid (Some lid_box_scene)) = true ->
   error_reason (_validate_action_command "close lid_box" (Some lid_box_scene))
   = Some (EAlreadyClosed "lid_box")) /\
  (is_valid (_validate_action_command "close lid_box" (Some lid_box_scene)) = true ->
   error_reason (_validate_action_command open_lid (Some lid_box_scene))
   = Some (EAlreadyOpen "lid_box")).
Proof.
  apply (open_and_close_exclude_each_other open_lid "close lid_box" "lid_box"
           (Some lid_box_scene)); reflexivity.
Defined.

Lemma completed_action_is_not_validated_again_witness :
  (exists s r t,
     _parse_flexible_action_command "move red_cube1 in red_box" = Some (Move s r t) /\
     In (s ++ "(" ++ r ++ ")" ++ t) (get_edges cube_in_box_scene)) /\
  is_valid (_validate_action_command "move red_cube1 in red_box" (Some cube_in_box_scene))
  = false.
Proof.
  apply (completed_action_is_not_validated_again "move red_cube1 in red_box"
           cube_in_box_scene three_cubes_scene).
  reflexivity.
Defined.

Lemma removed_source_shows_in_the_change_analysis_witness :
  has_changes (_analyze_scene_changes mug_on_box_scene cube_in_box_scene) = true /\
  exists edge,
    In edge (edges_removed (_analyze_scene_changes mug_on_box_scene cube_in_box_scene)) /\
    contains "red_mug" edge = true.
Proof.
  apply (removed_source_shows_in_the_change_analysis "red_mug"
           mug_on_box_scene cube_in_box_scene).
  reflexivity.
Defined.

End ValidatorWitness.

Module ToolWitness.
Import PyStr Scene Validator Tool Samples Calls MoreSamples ToolMoreFacts PublishedFacts.

Lemma counters_after_any_commands_witness :
  consecutive_failures
    (tool (run_commands sample_world ["move ghost on table"; "   "; cube_to_table]))
  <= max_consecutive_failures /\
  validation_count
    (tool (run_commands sample_world ["move ghost on table"; "   "; cube_to_table]))
  = validation_count (tool sample_world)
    + List.length ["move ghost on table"; "   "; cube_to_table] /\
  success_count (tool sample_world)
  <= success_count
       (tool (run_commands sample_world ["move ghost on table"; "   "; cube_to_table]))
  <= success_count (tool sample_world)
     + List.length ["move ghost on table"; "   "; cube_to_table].
Proof.
  apply (counters_after_any_commands sample_world
           ["move ghost on table"; "   "; cube_to_table]).
  vm_compute. lia.
Defined.

Lemma signal_in_time_gives_success_witness :
  exists g,
    validation_snapshot responsive_world = Some g /\
    fst (execute responsive_world mug_to_table)
    = Returned (_format_success_response g
                  (current_scene_graph
                     (manager (snd (execute responsive_world mug_to_table))))
                  mug_to_table) /\
    init_scene_graph_data (tool (snd (execute responsive_world mug_to_table)))
    = Some (current_scene_graph
              (manager (snd (execute responsive_world mug_to_table)))) /\
    trigger_received (tool (snd (execute responsive_world mug_to_table))) = false.
Proof.
  apply (signal_in_time_gives_success responsive_world mug_to_table).
  - repeat split; [vm_compute; lia | intros H; vm_compute in H; discriminate H].
  - split; reflexivity.
Defined.

Lemma kept_snapshot_after_a_call_witness :
  exists p,
    fst (execute sample_world cube_to_table) = Returned p /\
    payload_scene_graph p
    = Some (current_scene_graph (manager (snd (execute sample_world cube_to_table)))) /\
    match status p with
    | validation_failed | execution_success =>
        init_scene_graph_data (tool (snd (execute sample_world cube_to_table)))
        = Some (current_scene_graph (manager (snd (execute sample_world cube_to_table))))
    | execution_timeout | execution_error =>
        init_scene_graph_data (tool (snd (execute sample_world cube_to_table)))
        = validation_snapshot sample_world
    | task_failed => False
    end.
Proof.
  apply (kept_snapshot_after_a_call sample_world cube_to_table).
  - vm_compute. lia.
  - intros H. vm_compute in H. discriminate H.
Defined.

Lemma published_command_reads_as_the_validated_one_witness :
  _parse_flexible_action_command (_extract_core_action prefixed_cube_to_table)
  = Some (Move "red_cube1" "on" "table") /\
  (forall data,
     is_valid (_validate_action_command (_extract_core_action prefixed_cube_to_table) data)
     = is_valid (_validate_action_command prefixed_cube_to_table data)) /\
  (validates_successfully sample_world prefixed_cube_to_table ->
   publisher sample_world = Some (Returned tt) ->
   In (PubInstruction (_extract_core_action prefixed_cube_to_table))
      (published (snd (execute sample_world prefixed_cube_to_table)))).
Proof.
  apply (published_command_reads_as_the_validated_one sample_world
           prefixed_cube_to_table (Move "red_cube1" "on" "table")).
  reflexivity.
Defined.

End ToolWitness.

Module AgentWitness.
Import PyStr Scene Validator Tool Agent Samples Calls Routing Ros MoreSamples
       AgentFacts AgentMoreFacts RosFacts.

Lemma every_sixth_identical_command_is_refused_witness :
  fst (repetition_guard
         (rounds sample_json_dumps (fresh_agent silent_world) (repeat open_lid 5))
         open_lid)
  = if (5 + 1) mod 6 =? 0 then RejectedRepeated else Passed.
Proof.
  apply (every_sixth_identical_command_is_refused sample_json_dumps
           (fresh_agent silent_world) open_lid 5).
  split; reflexivity.
Defined.

Lemma refused_command_passes_when_resubmitted_witness :
  fst (repetition_guard
         (snd (_call_validate_execute sample_json_dumps (snd round2)
                 (call_messages open_lid))) open_lid) = Passed /\
  world (snd (_call_validate_execute sample_json_dumps (snd round2)
                (call_messages open_lid))) = world (snd round2) /\
  (forall m,
     In m (fst (_call_validate_execute sample_json_dumps (snd round2)
                  (call_messages open_lid))) ->
     is_vae_message m = false).
Proof.
  apply (refused_command_passes_when_resubmitted sample_json_dumps (snd round2)
           (call_messages open_lid) open_lid).
  - apply submits_call_messages.
  - vm_compute. discriminate.
Defined.

Lemma refused_round_goes_back_to_planning_witness :
  snd (validate_execute_round sample_json_dumps sample_json_decode (snd round2)
         (call_messages open_lid))
  = Returned node_agent.
Proof.
  apply (refused_round_goes_back_to_planning sample_json_dumps sample_json_decode
           (snd round2) (call_messages open_lid) open_lid).
  - apply submits_call_messages.
  - vm_compute. discriminate.
  - vm_compute. reflexivity.
Defined.

Lemma only_the_first_tool_call_is_executed_witness :
  (_should_execute_action two_call_messages = route_execute
   <-> existsb names_vae [mkToolCall tool_name_vae open_lid "call_1"] = true) /\
  world (snd (_call_validate_execute sample_json_dumps (fresh_agent silent_world)
                two_call_messages))
  = world (fresh_agent silent_world) /\
  (forall m,
     In m (fst (_call_validate_execute sample_json_dumps (fresh_agent silent_world)
                  two_call_messages)) ->
     is_vae_message m = false).
Proof.
  apply (only_the_first_tool_call_is_executed sample_json_dumps
           (fresh_agent silent_world) two_call_messages
           (mkToolCall "GetSceneGraph" "" "call_0")
           [mkToolCall tool_name_vae open_lid "call_1"]); reflexivity.
Defined.

Lemma routing_after_a_tool_round_witness :
  exists p content id,
    fst (call_tool (world (fresh_agent silent_world)) open_lid) = OutPayload p /\
    hd_error (fst (_call_validate_execute sample_json_dumps (fresh_agent silent_world)
                     (call_messages open_lid)))
    = Some (ToolMessage content tool_name_vae id) /\
    snd (validate_execute_round sample_json_dumps sample_json_decode
           (fresh_agent silent_world) (call_messages open_lid))
    = Returned (if reads_as_invalid content then node_END
                else match status p with
                     | task_failed => node_END
                     | _ => node_agent
                     end).
Proof.
  apply (routing_after_a_tool_round sample_json_dumps sample_json_decode
           (fresh_agent silent_world) (call_messages open_lid) open_lid).
  - apply submits_call_messages.
  - reflexivity.
  - reflexivity.
Defined.

Lemma task_content_is_read_back_witness :
  _extract_task_content (task_message "Task" "" " " "move box2 to table")
  = "move box2 to table".
Proof.
  apply (task_content_is_read_back "Task" "" " " "move box2 to table");
    try reflexivity.
  repeat split. discriminate.
Defined.

End AgentWitness.

Module CubeWitness.
Import PyStr Scene Validator Samples Names MoreSamples CubeFacts.

(** The cube is taken out of the box although the edge of the mug ends
    with the name of the box and its state tag. *)
Lemma accepted_cube_move_has_a_clear_source_and_room_witness :
  In "red_mug(on)lid_box(open)" (get_edges tagged_lid_scene) /\
  exists location via_in,
    cube_location "red_cube1" (get_edges tagged_lid_scene) = Some (location, via_in) /\
    location <> "" /\
    (location <> "table" -> objects_on location (get_edges tagged_lid_scene) = []) /\
    ("table" <> "table" ->
     objects_on "table" (get_edges tagged_lid_scene) = [] /\
     List.length (filter _is_cube (objects_in "table" (get_edges tagged_lid_scene)))
     < 10).
Proof.
  split; [right; right; left; reflexivity|].
  apply (accepted_cube_move_has_a_clear_source_and_room cube_to_table
           "red_cube1" "on" "table" tagged_lid_scene); reflexivity.
Defined.

Lemma table_is_never_moved_witness :
  _validate_action_command "move table on red_box" (Some three_cubes_scene)
  = invalid (ESourceNotFound "table") (move_details 0).
Proof.
  apply (table_is_never_moved "move table on red_box" "on" "red_box"
           (Some three_cubes_scene)).
  reflexivity.
Defined.

End CubeWitness.

Module StateTagWitness.
Import PyStr Scene Validator Samples StateTags StateTagFacts.

Lemma first_tagged_node_decides_open_and_close_witness :
  is_valid (_validate_action_command open_lid (Some (tagged_box_scene StClosed))) = true /\
  is_valid (_validate_action_command "close lid_box" (Some (tagged_box_scene StClosed)))
  = false.
Proof.
  apply (first_tagged_node_decides_open_and_close open_lid "close lid_box" "lid_box"
           (tagged_box_scene StClosed) StClosed
           [NStr "table"; NStr "blue_box"] []); reflexivity.
Defined.

End StateTagWitness.
